(** * embedding_studio: session features, experiment tracking, sweep driver

  A shallow embedding of the bookkeeping core of the repository:

  - [Features]: [SessionFeatures] of
    [embedding_studio/embeddings/features/session_features.py];
  - [Tracker]: [ExperimentsManager] of
    [embedding_studio/worker/experiments/experiments_tracker.py], over a
    model of the MLflow tracking store it talks to;
  - [Sweep]: [finetune_embedding_model] of
    [embedding_studio/worker/finetune_embedding.py].

  Python objects are mutable and exceptions do not roll assignments back,
  so every method is a function from the object's state to an outcome
  together with the state the object is left in. *)

From Stdlib Require Import QArith Qabs Qminmax.
From stdpp Require Import base option list strings pretty gmap.

Set Default Proof Using "Type".
Local Open Scope string_scope.

(** ** Python outcomes *)

Module Py.

(** The exception classes the modelled code raises or meets.  All derive
    from [Exception] ([Exception_] is a bare [Exception]) except
    [KeyboardInterrupt], which derives from [BaseException] only, so that
    [except Exception] lets it through. *)
Inductive exn : Type :=
| TypeError (msg : string)
| ValueError (msg : string)
| IndexError (msg : string)
| KeyError (msg : string)
| AttributeError (msg : string)
| RuntimeError (msg : string)
| OSError (msg : string)
| MlflowException (msg : string)
| Exception_ (msg : string)
| KeyboardInterrupt.

Definition is_Exception (e : exn) : bool :=
  match e with KeyboardInterrupt => false | _ => true end.

Definition is_TypeError (e : exn) : bool :=
  match e with TypeError _ => true | _ => false end.

Definition is_ValueError (e : exn) : bool :=
  match e with ValueError _ => true | _ => false end.

Inductive result (A : Type) : Type :=
| Ok (a : A)
| Raise (e : exn).
Arguments Ok {A} a.
Arguments Raise {A} e.

Definition raises {A} (r : result A) (p : exn -> bool) : Prop :=
  match r with Ok _ => False | Raise e => p e = true end.

Definition returns {A} (r : result A) : Prop :=
  match r with Ok _ => True | Raise _ => False end.

Definition rbind {A B} (r : result A) (k : A -> result B) : result B :=
  match r with Ok a => k a | Raise e => Raise e end.

(** A method body: it reads and writes the receiver [S], and either
    returns or raises; what was assigned before a raise stays assigned. *)
Definition M (S A : Type) : Type := S -> result A * S.

Definition ret {S A} (a : A) : M S A := fun s => (Ok a, s).
Definition throw {S A} (e : exn) : M S A := fun s => (Raise e, s).
Definition bind {S A B} (m : M S A) (k : A -> M S B) : M S B :=
  fun s => match m s with
           | (Ok a, s') => k a s'
           | (Raise e, s') => (Raise e, s')
           end.
Definition get {S} : M S S := fun s => (Ok s, s).
Definition modify {S} (f : S -> S) : M S unit := fun s => (Ok tt, f s).
Definition lift {S A} (r : result A) : M S A := fun s => (r, s).

Definition outcome {S A} (p : result A * S) : result A := fst p.
Definition after {S A} (p : result A * S) : S := snd p.

(** [[f(x) for x in xs]], stopping at the first exception. *)
Fixpoint for_each {A B} (f : A -> result B) (xs : list A) : result (list B) :=
  match xs with
  | nil => Ok nil
  | cons x xs' =>
      rbind (f x) (fun y => rbind (for_each f xs') (fun ys => Ok (cons y ys)))
  end.

End Py.

Import Py.

Declare Scope py_scope.
Delimit Scope py_scope with py.
Notation "'let!' x ':=' m 'in' k" := (Py.bind m (fun x => k))
  (at level 10, x name, m at level 100, k at level 200) : py_scope.

Local Open Scope py_scope.

(** ** session_features.py *)

Module Features.

(** The arithmetic [clamp_diff_in] performs on tensor elements.  It is
    kept abstract: the theorems hold for whatever the element type's
    subtraction, absolute value and comparisons compute. *)
Class Scalar (F : Type) : Type := {
  sub : F -> F -> F;
  abs : F -> F;
  gt : F -> F -> bool;
  lt : F -> F -> bool
}.

#[export] Instance Q_Scalar : Scalar Q := {
  sub := Qminus;
  abs := Qabs;
  gt := fun x y => negb (Qle_bool x y);
  lt := fun x y => negb (Qle_bool y x)
}.

Section WithScalar.
Context {F : Type} `{Scalar F}.

(** What a field slot may hold: [None], a one-dimensional [torch.Tensor],
    or any other object.  Of a foreign object only what [len] answers on it
    is kept ([None] when it has no length); it is taken to be an object
    that supports neither tensor arithmetic nor subscripting nor [.shape]
    (a float, say), and no theorem below depends on that choice. *)
Inductive value : Type :=
| VNone
| VTensor (t : list F)
| VOther (olen : option nat).

Record SessionFeatures : Type := mkSessionFeatures {
  _positive_ranks : value;
  _negative_ranks : value;
  _target : value;
  _positive_confidences : value;
  _negative_confidences : value
}.

(** Plain attribute assignment, [self._field = v]. *)
Definition assign_positive_ranks (v : value) (s : SessionFeatures) :=
  mkSessionFeatures v (_negative_ranks s) (_target s)
    (_positive_confidences s) (_negative_confidences s).
Definition assign_negative_ranks (v : value) (s : SessionFeatures) :=
  mkSessionFeatures (_positive_ranks s) v (_target s)
    (_positive_confidences s) (_negative_confidences s).
Definition assign_target (v : value) (s : SessionFeatures) :=
  mkSessionFeatures (_positive_ranks s) (_negative_ranks s) v
    (_positive_confidences s) (_negative_confidences s).
Definition assign_positive_confidences (v : value) (s : SessionFeatures) :=
  mkSessionFeatures (_positive_ranks s) (_negative_ranks s) (_target s)
    v (_negative_confidences s).
Definition assign_negative_confidences (v : value) (s : SessionFeatures) :=
  mkSessionFeatures (_positive_ranks s) (_negative_ranks s) (_target s)
    (_positive_confidences s) v.

Definition is_not_None (v : value) : bool :=
  match v with VNone => false | _ => true end.

Definition isinstance_Tensor (v : value) : bool :=
  match v with VTensor _ => true | _ => false end.

(** [len(x)] *)
Definition len (v : value) : result nat :=
  match v with
  | VTensor t => Ok (length t)
  | VOther (Some n) => Ok n
  | VOther None => Raise (TypeError "object has no len()")
  | VNone => Raise (TypeError "object of type 'NoneType' has no len()")
  end.

Definition check_type (name : string) (v : value) : result unit :=
  if is_not_None v && negb (isinstance_Tensor v)
  then Raise (TypeError (name ++ " must be a torch.Tensor or None"))
  else Ok tt.

Definition _check_types (s : SessionFeatures) : result unit :=
  rbind (check_type "positive_ranks" (_positive_ranks s)) (fun _ =>
  rbind (check_type "negative_ranks" (_negative_ranks s)) (fun _ =>
  rbind (check_type "target" (_target s)) (fun _ =>
  rbind (check_type "positive_confidences" (_positive_confidences s)) (fun _ =>
         check_type "negative_confidences" (_negative_confidences s))))).

Definition fields (s : SessionFeatures) : list value :=
  [ _positive_ranks s; _negative_ranks s; _target s;
    _positive_confidences s; _negative_confidences s ].

(** [[len(x) for x in xs if x is not None]], left to right. *)
Fixpoint lens (xs : list value) : result (list nat) :=
  match xs with
  | [] => Ok []
  | x :: xs' =>
      if is_not_None x
      then rbind (len x) (fun n => rbind (lens xs') (fun ns => Ok (n :: ns)))
      else lens xs'
  end.

Definition _check_lengths (s : SessionFeatures) : result unit :=
  rbind (lens (fields s)) (fun ns =>
    let length_set : gset nat := list_to_set ns in
    if decide (1 < size length_set)
    then Raise (ValueError "All non-None parameters must have the same length")
    else Ok tt).

(** [SessionFeatures(...)]: the caller gets the object only if both checks
    pass. *)
Definition __init__ (positive_ranks negative_ranks target
                     positive_confidences negative_confidences : value)
  : result SessionFeatures :=
  let self := mkSessionFeatures positive_ranks negative_ranks target
                positive_confidences negative_confidences in
  rbind (_check_types self) (fun _ =>
  rbind (_check_lengths self) (fun _ => Ok self)).

(** The tail shared by the setters and the mutating methods. *)
Definition recheck : M SessionFeatures unit :=
  let! s := get in
  let! _ := lift (_check_types s) in
  lift (_check_lengths s).

(** The five property setters: assign, then check. *)
Definition set_positive_ranks (v : value) : M SessionFeatures unit :=
  let! _ := modify (assign_positive_ranks v) in recheck.
Definition set_negative_ranks (v : value) : M SessionFeatures unit :=
  let! _ := modify (assign_negative_ranks v) in recheck.
Definition set_target (v : value) : M SessionFeatures unit :=
  let! _ := modify (assign_target v) in recheck.
Definition set_positive_confidences (v : value) : M SessionFeatures unit :=
  let! _ := modify (assign_positive_confidences v) in recheck.
Definition set_negative_confidences (v : value) : M SessionFeatures unit :=
  let! _ := modify (assign_negative_confidences v) in recheck.

(** [torch.cat([a, b])] on one-dimensional tensors. *)
Definition cat (a b : value) : result value :=
  match a, b with
  | VTensor x, VTensor y => Ok (VTensor (x ++ y))
  | _, _ => Raise (TypeError "expected Tensor as element of argument 'tensors'")
  end.

(** [_accumulate] has an [if] and an [elif] and no [else]: when
    [other_var] is [None] it falls off the end and returns [None]. *)
Definition _accumulate (self_var other_var : value) : result value :=
  if is_not_None self_var && is_not_None other_var
  then cat self_var other_var
  else if is_not_None other_var
  then Ok other_var
  else Ok VNone.

Definition __iadd__ (other : SessionFeatures) : M SessionFeatures unit :=
  let! s := get in
  let! v := lift (_accumulate (_positive_ranks s) (_positive_ranks other)) in
  let! _ := modify (assign_positive_ranks v) in
  let! s := get in
  let! v := lift (_accumulate (_negative_ranks s) (_negative_ranks other)) in
  let! _ := modify (assign_negative_ranks v) in
  let! s := get in
  let! v := lift (_accumulate (_target s) (_target other)) in
  let! _ := modify (assign_target v) in
  let! s := get in
  let! v := lift (_accumulate (_positive_confidences s)
                    (_positive_confidences other)) in
  let! _ := modify (assign_positive_confidences v) in
  let! s := get in
  let! v := lift (_accumulate (_negative_confidences s)
                    (_negative_confidences other)) in
  let! _ := modify (assign_negative_confidences v) in
  recheck.

(** [a - b] on one-dimensional tensors, with torch's broadcasting of a
    one-element operand. *)
Definition broadcast2 (f : F -> F -> F) (a b : list F) : result (list F) :=
  if decide (length a = length b) then Ok (zip_with f a b)
  else match a, b with
       | [x], _ => Ok (map (f x) b)
       | _, [y] => Ok (map (fun x => f x y) a)
       | _, _ => Raise (RuntimeError
                   "The size of tensor a must match the size of tensor b")
       end.

Definition tensor_sub (a b : value) : result (list F) :=
  match a, b with
  | VTensor x, VTensor y => broadcast2 sub x y
  | _, _ => Raise (TypeError "unsupported operand type(s) for -")
  end.

(** [t[mask]] for a boolean mask: the elements at the [True] positions. *)
Fixpoint masked (mask : list bool) (t : list F) : list F :=
  match mask, t with
  | b :: mask', x :: t' => if b then x :: masked mask' t' else masked mask' t'
  | _, _ => []
  end.

(** [v[mask]], for a boolean mask.  A non-tensor stands here for an
    object that cannot be subscripted; one that can (an array) is not
    modelled, and the properties that subscript a field are stated of
    fields that are tensors or [None]. *)
Definition getitem_mask (v : value) (mask : list bool) : result value :=
  match v with
  | VTensor t =>
      if decide (length mask = length t) then Ok (VTensor (masked mask t))
      else Raise (IndexError
             "The shape of the mask does not match the shape of the indexed tensor")
  | VNone => Raise (TypeError "'NoneType' object is not subscriptable")
  | VOther _ => Raise (TypeError "object is not subscriptable")
  end.

Definition clamp_diff_in (min max : F) : M SessionFeatures unit :=
  let! s := get in
  if is_not_None (_positive_ranks s) && is_not_None (_negative_ranks s)
  then
    let! d := lift (tensor_sub (_positive_ranks s) (_negative_ranks s)) in
    let hard_examples := map (fun x => gt (abs x) min) d in
    let! d := lift (tensor_sub (_positive_ranks s) (_negative_ranks s)) in
    let smooth_examples := map (fun x => lt (abs x) max) d in
    let examples := zip_with andb hard_examples smooth_examples in
    let! v := lift (getitem_mask (_positive_ranks s) examples) in
    let! _ := modify (assign_positive_ranks v) in
    let! s := get in
    let! v := lift (getitem_mask (_negative_ranks s) examples) in
    let! _ := modify (assign_negative_ranks v) in
    let! s := get in
    let! v := lift (getitem_mask (_target s) examples) in
    let! _ := modify (assign_target v) in
    let! s := get in
    let! v := lift (getitem_mask (_positive_confidences s) examples) in
    let! _ := modify (assign_positive_confidences v) in
    let! s := get in
    let! v := lift (getitem_mask (_negative_confidences s) examples) in
    let! _ := modify (assign_negative_confidences v) in
    let! s := get in
    lift (_check_lengths s)
  else ret tt.

(** [v.shape[0]] *)
Definition shape0 (v : value) : result nat :=
  match v with
  | VTensor t => Ok (length t)
  | VNone => Raise (AttributeError "'NoneType' object has no attribute 'shape'")
  | VOther _ => Raise (AttributeError "object has no attribute 'shape'")
  end.

(** [v[:n]] *)
Definition slice_to (v : value) (n : nat) : result value :=
  match v with
  | VTensor t => Ok (VTensor (take n t))
  | VNone => Raise (TypeError "'NoneType' object is not subscriptable")
  | VOther _ => Raise (TypeError "object is not subscriptable")
  end.

Definition use_positive_from (other : SessionFeatures)
  : M SessionFeatures unit :=
  let! _ := lift (_check_types other) in
  let! _ := lift (_check_lengths other) in
  let! s := get in
  let! n_self := lift (shape0 (_negative_ranks s)) in
  let! n_other := lift (shape0 (_positive_ranks other)) in
  let! positive_ranks_ :=
    (if (n_self <? n_other)%nat then
       lift (slice_to (_positive_ranks other) n_self)
     else if (n_other <? n_self)%nat then
       let! v := lift (slice_to (_negative_ranks s) n_other) in
       let! _ := modify (assign_negative_ranks v) in
       let! s := get in
       let! v := lift (slice_to (_target s) n_other) in
       let! _ := modify (assign_target v) in
       let! s := get in
       let! v := lift (slice_to (_negative_confidences s) n_other) in
       let! _ := modify (assign_negative_confidences v) in
       ret (_positive_ranks other)
     else
       ret (_positive_ranks other)) in
  let! _ := modify (assign_positive_confidences (_positive_ranks other)) in
  let! _ := modify (assign_positive_ranks positive_ranks_) in
  recheck.

(** *** The invariant, stated apart from the checks that enforce it *)

Definition is_tensor_or_None (v : value) : Prop :=
  v = VNone \/ exists t, v = VTensor t.

Definition well_typed (s : SessionFeatures) : Prop :=
  Forall is_tensor_or_None (fields s).

(** All non-absent fields have identical length. *)
Definition same_length (s : SessionFeatures) : Prop :=
  forall t1 t2, VTensor t1 ∈ fields s -> VTensor t2 ∈ fields s ->
                length t1 = length t2.

Definition valid (s : SessionFeatures) : Prop :=
  well_typed s /\ same_length s.

(** What the two checks answer about a state: nothing when it is valid,
    a [TypeError] when a present field is not a tensor, and a
    [ValueError] when the present fields are tensors of differing
    lengths. *)
Definition checked (r : result unit) (s : SessionFeatures) : Prop :=
  match r with
  | Ok _ => valid s
  | Raise e =>
      (is_TypeError e = true /\ ~ well_typed s) \/
      (is_ValueError e = true /\ well_typed s /\ ~ same_length s)
  end.

(** The lengths of the tensors among a list of values. *)
Fixpoint tensor_lengths (xs : list value) : list nat :=
  match xs with
  | [] => []
  | VTensor t :: xs' => length t :: tensor_lengths xs'
  | _ :: xs' => tensor_lengths xs'
  end.

(** *** What [clamp_diff_in] is to retain *)

(** [min < |p - n| < max], strict on both sides. *)
Definition in_range (min max p n : F) : bool :=
  gt (abs (sub p n)) min && lt (abs (sub p n)) max.

(** The indices [i] with [min < |pr[i] - nr[i]| < max], ascending. *)
Definition in_range_at (min max : F) (pr nr : list F) (i : nat) : bool :=
  match pr !! i, nr !! i with
  | Some p, Some n => in_range min max p n
  | _, _ => false
  end.

Definition retained (min max : F) (pr nr : list F) : list nat :=
  filter (fun i => in_range_at min max pr nr i = true) (seq 0 (length pr)).

(** [[t[i] for i in idx]] *)
Definition at_indices (idx : list nat) (t : list F) : list F :=
  omap (fun i => t !! i) idx.

(** The elements a slot holds, none for an absent one. *)
Definition tensor_of (v : value) : list F :=
  match v with VTensor t => t | _ => [] end.

(** All five fields are tensors. *)
Definition full (s : SessionFeatures) : Prop :=
  exists pr nr tg pc nc,
    s = mkSessionFeatures (VTensor pr) (VTensor nr) (VTensor tg)
          (VTensor pc) (VTensor nc).

(** [for other in others: self += other] *)
Fixpoint iadd_each (others : list SessionFeatures) : M SessionFeatures unit :=
  match others with
  | [] => ret tt
  | other :: rest => let! _ := __iadd__ other in iadd_each rest
  end.

End WithScalar.
Arguments value F : clear implicits.
Arguments SessionFeatures F : clear implicits.

End Features.

(** ** experiments_tracker.py *)

Module Tracker.

(** A Python [float]: the tracked metric values, which pandas shows as
    [NaN] where a run has none.  Only comparisons are made on them, and on
    numbers those agree with the rationals'. *)
Inductive float : Type :=
| Num (q : Q)
| NaN.

Definition float_le (x y : float) : bool :=
  match x, y with Num a, Num b => Qle_bool a b | _, _ => false end.
Definition float_ge (x y : float) : bool := float_le y x.
Definition float_eq (x y : float) : bool :=
  match x, y with Num a, Num b => Qeq_bool a b | _, _ => false end.

(** *** The collaborators that are not among the sources *)

(** Modelled from the spec: [EXPERIMENT_PREFIX] of [finetuning_session.py]
    is not among the sources; it is the prefix of every session's
    experiment name, and its value is left open. *)
Class Constants : Type := { EXPERIMENT_PREFIX : string }.

(** A parameter value as [set_run] sees it: a list, or anything else
    (kept as the text [mlflow.log_param] stores for it). *)
Inductive param_value : Type :=
| PScalar (text : string)
| PList (items : list string).

(** Modelled from the spec: [FineTuningSession] and [FineTuningParams] are
    the descriptors identifying a tuning session and one hyperparameter
    configuration, used through their string identity ([str(session)],
    [params.id]) and their items ([dict(...)]). *)
Record FineTuningSession : Type := mkFineTuningSession {
  session_str : string;
  session_items : list (string * param_value)
}.

Record FineTuningParams : Type := mkFineTuningParams {
  id : string;
  params_items : list (string * param_value)
}.

(** Modelled from the spec: a [MetricsAccumulator] owns the values
    accumulated for one metric name, and [clear()] resets that history. *)
Record MetricsAccumulator : Type := mkMetricsAccumulator {
  acc_name : string;
  acc_values : list Q
}.

Definition clear (a : MetricsAccumulator) : MetricsAccumulator :=
  mkMetricsAccumulator (acc_name a) [].

(** The model object is opaque here: only whether it was stored matters. *)
Definition EmbeddingsModelInterface : Type := nat.

(** *** The MLflow tracking store *)

Inductive RunStatus : Type := RUNNING | SCHEDULED | FINISHED | FAILED | KILLED.

#[export] Instance RunStatus_eq_dec : EqDecision RunStatus.
Proof. solve_decision. Defined.

Record RunRow : Type := mkRunRow {
  run_id : string;
  experiment_id : string;
  run_name : string;
  status : RunStatus;
  params : gmap string string;
  metrics : gmap string Q;
  artifacts : list (string * EmbeddingsModelInterface)
}.

Record ExperimentRow : Type := mkExperimentRow {
  exp_id : string;
  exp_name : string
}.

(** [runs] is kept in the order [mlflow.search_runs] lists them (newest
    first); [active_experiment] and [active_run] are the fluent API's
    process-wide state; [fresh] numbers the ids the store hands out. *)
Record MLflow : Type := mkMLflow {
  experiments : list ExperimentRow;
  runs : list RunRow;
  active_experiment : option string;
  active_run : option string;
  fresh : nat
}.

Definition update_run (rid : string) (f : RunRow -> RunRow) (st : MLflow)
  : MLflow :=
  mkMLflow (experiments st)
    (map (fun r => if decide (run_id r = rid) then f r else r) (runs st))
    (active_experiment st) (active_run st) (fresh st).

Definition with_status (s : RunStatus) (r : RunRow) : RunRow :=
  mkRunRow (run_id r) (experiment_id r) (run_name r) s (params r)
    (metrics r) (artifacts r).
Definition with_param (k v : string) (r : RunRow) : RunRow :=
  mkRunRow (run_id r) (experiment_id r) (run_name r) (status r)
    (<[k:=v]> (params r)) (metrics r) (artifacts r).
Definition with_metric (k : string) (v : Q) (r : RunRow) : RunRow :=
  mkRunRow (run_id r) (experiment_id r) (run_name r) (status r) (params r)
    (<[k:=v]> (metrics r)) (artifacts r).
Definition with_artifact (path : string) (m : EmbeddingsModelInterface)
  (r : RunRow) : RunRow :=
  mkRunRow (run_id r) (experiment_id r) (run_name r) (status r) (params r)
    (metrics r) ((path, m) :: artifacts r).

Definition find_run (rid : string) (st : MLflow) : option RunRow :=
  head (filter (fun r => run_id r = rid) (runs st)).

(** [mlflow.search_runs(experiment_ids=..., filter_string=...)]; the only
    filter the code uses has the shape [params.KEY = 'VALUE']. *)
Definition matches_filter (filter_string : option (string * string))
  (r : RunRow) : bool :=
  match filter_string with
  | Some (k, v) => bool_decide (params r !! k = Some v)
  | None => true
  end.

Definition search_runs (experiment_ids : list string)
  (filter_string : option (string * string)) (st : MLflow) : list RunRow :=
  filter (fun r => bool_decide (experiment_id r ∈ experiment_ids)
                   && matches_filter filter_string r = true)
         (runs st).

(** [mlflow.create_experiment(name)] *)
Definition create_experiment (name : string) : M MLflow string :=
  fun st =>
    if decide (name ∈ map exp_name (experiments st))
    then (Raise (MlflowException "Experiment already exists"), st)
    else let eid := pretty (fresh st) in
         (Ok eid,
          mkMLflow (experiments st ++ [mkExperimentRow eid name]) (runs st)
            (active_experiment st) (active_run st) (S (fresh st))).

(** [mlflow.set_experiment(experiment_id=eid)] *)
Definition set_experiment_by_id (eid : string) : M MLflow string :=
  fun st =>
    if decide (eid ∈ map exp_id (experiments st))
    then (Ok eid, mkMLflow (experiments st) (runs st) (Some eid)
                    (active_run st) (fresh st))
    else (Raise (MlflowException "Experiment does not exist"), st).

(** The experiment a name resolves to. *)
Definition experiment_by_name (name : string) (st : MLflow) : option string :=
  exp_id <$> head (filter (fun e => exp_name e = name) (experiments st)).

(** [mlflow.set_experiment(experiment_name=name)]: created when missing. *)
Definition set_experiment_by_name (name : string) : M MLflow string :=
  fun st =>
    match experiment_by_name name st with
    | Some eid => set_experiment_by_id eid st
    | None => (let! eid := create_experiment name in
               set_experiment_by_id eid) st
    end.

(** [mlflow.end_run()]: the active run, if any, becomes [FINISHED]. *)
Definition end_run : M MLflow unit :=
  fun st =>
    match active_run st with
    | None => (Ok tt, st)
    | Some rid =>
        let st' := update_run rid (with_status FINISHED) st in
        (Ok tt, mkMLflow (experiments st') (runs st') (active_experiment st')
                  None (fresh st'))
    end.

(** [mlflow.start_run(run_id, experiment_id, run_name)], not nested: an
    existing run is resumed, otherwise a new one is created in the given
    experiment (the active one when none is given). *)
Definition start_run (rid : option string) (eid : option string)
  (name : string) : M MLflow string :=
  fun st =>
    match active_run st with
    | Some _ => (Raise (Exception_ "Run is already active"), st)
    | None =>
        match rid with
        | Some rid =>
            match find_run rid st with
            | None => (Raise (MlflowException "Run not found"), st)
            | Some _ =>
                let st' := update_run rid (with_status RUNNING) st in
                (Ok rid, mkMLflow (experiments st') (runs st')
                           (active_experiment st') (Some rid) (fresh st'))
            end
        | None =>
            let eid := match eid with
                       | Some e => e
                       | None => default "0" (active_experiment st)
                       end in
            let rid := "run-" +:+ pretty (fresh st) in
            (Ok rid,
             mkMLflow (experiments st)
               (mkRunRow rid eid name RUNNING ∅ ∅ [] :: runs st)
               (active_experiment st) (Some rid) (S (fresh st)))
        end
    end.

(** The fluent logging calls write to the active run and start one when
    there is none. *)
Definition get_or_start_run : M MLflow string :=
  fun st =>
    match active_run st with
    | Some rid => (Ok rid, st)
    | None => start_run None None "" st
    end.

(** [mlflow.log_param(key, value)]: a parameter is write-once. *)
Definition log_param (key value : string) : M MLflow unit :=
  let! rid := get_or_start_run in
  fun st =>
    match find_run rid st with
    | None => (Raise (MlflowException "Run not found"), st)
    | Some r =>
        match params r !! key with
        | Some old =>
            if decide (old = value) then (Ok tt, st)
            else (Raise (MlflowException "Changing param values is not allowed"),
                  st)
        | None => (Ok tt, update_run rid (with_param key value) st)
        end
    end.

(** [mlflow.log_metric(key, value)]: the latest value is the one a
    search shows. *)
Definition log_metric (key : string) (value : Q) : M MLflow unit :=
  let! rid := get_or_start_run in
  modify (update_run rid (with_metric key value)).

(** [mlflow.pytorch.log_model(model, "model", ...)] *)
Definition log_model (model : EmbeddingsModelInterface) (path : string)
  : M MLflow unit :=
  let! rid := get_or_start_run in
  modify (update_run rid (with_artifact path model)).

(** Modelled from the spec: [get_experiment_id_by_name] and
    [get_run_id_by_name] of [embedding_studio/worker/mlflow/utils.py] are
    not among the sources; they resolve a name to the identifier the
    tracking service holds for it, or to [None]. *)
Definition get_experiment_id_by_name (name : string) (st : MLflow)
  : option string :=
  experiment_by_name name st.

Definition get_run_id_by_name (eid : option string) (name : string)
  (st : MLflow) : option string :=
  match eid with
  | None => None
  | Some e => run_id <$> head (filter (fun r => experiment_id r = e
                                               /\ run_name r = name) (runs st))
  end.

(** *** ExperimentsManager *)

(** What [self._tuning_session] holds: nothing yet, the string
    [INITIAL_EXPERIMENT_NAME], or a session descriptor.  The comparison
    [self._tuning_session == INITIAL_EXPERIMENT_NAME] holds of the second
    only. *)
Inductive session_ref : Type :=
| SessionNone
| SessionInitial
| SessionOf (session : FineTuningSession).

Definition is_initial (s : session_ref) : bool :=
  match s with SessionInitial => true | _ => false end.

Record ExperimentsManager : Type := mkExperimentsManager {
  main_metric : string;
  _is_loss : bool;
  _n_top_runs : option Z;
  _accumulators : list MetricsAccumulator;
  _experiment : option string;
  _tuning_session : session_ref;
  _tuning_session_id : option string;
  _run : option string;
  _run_params : option FineTuningParams;
  _run_id : option string
}.

Definition is_loss (m : ExperimentsManager) : bool := _is_loss m.

(** [ExperimentsManager(tracking_uri, main_metric, accumulators, is_loss,
    n_top_runs)] *)
Definition ExperimentsManager__init__ (tracking_uri main_metric : string)
  (accumulators : list MetricsAccumulator) (is_loss : bool)
  (n_top_runs : option Z)
  : result ExperimentsManager :=
  if bool_decide (String.length tracking_uri = 0) then
    Raise (ValueError "MLFlow tracking URI value should be a not empty string")
  else if bool_decide (String.length main_metric = 0) then
    Raise (ValueError "main_metric value should be a not empty string")
  else
    Ok (mkExperimentsManager main_metric is_loss n_top_runs accumulators
          None SessionNone None None None None).

(** The manager together with the tracking service it talks to. *)
Record World : Type := mkWorld {
  mgr : ExperimentsManager;
  store : MLflow
}.

Definition self : M World ExperimentsManager := fun w => (Ok (mgr w), w).

Definition assign (f : ExperimentsManager -> ExperimentsManager)
  : M World unit :=
  fun w => (Ok tt, mkWorld (f (mgr w)) (store w)).

Definition mlflow {A} (m : M MLflow A) : M World A :=
  fun w => let (r, st) := m (store w) in (r, mkWorld (mgr w) st).

Definition ask {A} (q : MLflow -> A) : M World A :=
  fun w => (Ok (q (store w)), w).

Definition set__accumulators v m :=
  mkExperimentsManager (main_metric m) (_is_loss m) (_n_top_runs m) v
    (_experiment m) (_tuning_session m) (_tuning_session_id m) (_run m)
    (_run_params m) (_run_id m).
Definition set__experiment v m :=
  mkExperimentsManager (main_metric m) (_is_loss m) (_n_top_runs m)
    (_accumulators m) v (_tuning_session m) (_tuning_session_id m) (_run m)
    (_run_params m) (_run_id m).
Definition set__tuning_session v m :=
  mkExperimentsManager (main_metric m) (_is_loss m) (_n_top_runs m)
    (_accumulators m) (_experiment m) v (_tuning_session_id m) (_run m)
    (_run_params m) (_run_id m).
Definition set__tuning_session_id v m :=
  mkExperimentsManager (main_metric m) (_is_loss m) (_n_top_runs m)
    (_accumulators m) (_experiment m) (_tuning_session m) v (_run m)
    (_run_params m) (_run_id m).
Definition set__run v m :=
  mkExperimentsManager (main_metric m) (_is_loss m) (_n_top_runs m)
    (_accumulators m) (_experiment m) (_tuning_session m)
    (_tuning_session_id m) v (_run_params m) (_run_id m).
Definition set__run_params v m :=
  mkExperimentsManager (main_metric m) (_is_loss m) (_n_top_runs m)
    (_accumulators m) (_experiment m) (_tuning_session m)
    (_tuning_session_id m) (_run m) v (_run_id m).
Definition set__run_id v m :=
  mkExperimentsManager (main_metric m) (_is_loss m) (_n_top_runs m)
    (_accumulators m) (_experiment m) (_tuning_session m)
    (_tuning_session_id m) (_run m) (_run_params m) v.

(** *** Notions the properties are stated with *)

(** The runs of an experiment that can be its best: those carrying the
    marker [model_uploaded] whose status is [FINISHED], in the order a
    search lists them. *)
Definition qualifying (eid : string) (st : MLflow) : list RunRow :=
  filter (fun r => experiment_id r = eid
                   /\ params r !! "model_uploaded" = Some "1"
                   /\ status r = FINISHED)
         (runs st).



(** The experiment a name resolves to, created when there is none. *)
Definition ensure_experiment (name : string) (st : MLflow)
  : string * MLflow :=
  match experiment_by_name name st with
  | Some eid => (eid, st)
  | None =>
      (pretty (fresh st),
       mkMLflow (experiments st ++ [mkExperimentRow (pretty (fresh st)) name])
         (runs st) (active_experiment st) (active_run st) (S (fresh st)))
  end.

Definition activate (eid : string) (st : MLflow) : MLflow :=
  mkMLflow (experiments st) (runs st) (Some eid) (active_run st) (fresh st).

(** The manager pointed at the experiment named [name], resolved or
    created and made the active one; its run fields and accumulators are
    not mentioned. *)
Definition enter (session : session_ref) (name : string) (w : World) : World :=
  let (eid, st) := ensure_experiment name (store w) in
  mkWorld
    (set__experiment (Some eid)
       (set__tuning_session_id (Some eid)
          (set__tuning_session session (mgr w))))
    (activate eid st).

(** The store's bookkeeping is in order: every run belongs to an
    experiment on record, and no identifier still to be handed out is in
    use. *)
Definition consistent (st : MLflow) : Prop :=
  (forall r, r ∈ runs st -> experiment_id r ∈ map exp_id (experiments st))
  /\ (forall n, fresh st <= n -> pretty n ∉ map exp_id (experiments st)).

Section WithConstants.
Context {constants : Constants}.

Definition INITIAL_EXPERIMENT_NAME : string :=
  EXPERIMENT_PREFIX +:+ " / initial".

Definition finish_session : M World unit :=
  let! _ := assign (set__tuning_session SessionInitial) in
  let! eid := ask (get_experiment_id_by_name INITIAL_EXPERIMENT_NAME) in
  let! _ := assign (set__tuning_session_id eid) in
  let! m := self in
  match _tuning_session_id m with
  | None =>
      let! e := mlflow (set_experiment_by_name INITIAL_EXPERIMENT_NAME) in
      let! _ := assign (set__experiment (Some e)) in
      assign (set__tuning_session_id (Some e))
  | Some eid =>
      let! e := mlflow (set_experiment_by_id eid) in
      assign (set__experiment (Some e))
  end.

Definition set_session (session : FineTuningSession) : M World unit :=
  let! m := self in
  let! _ := (if is_initial (_tuning_session m) then finish_session
             else ret tt) in
  let! _ := assign (set__tuning_session (SessionOf session)) in
  let! eid := ask (get_experiment_id_by_name (session_str session)) in
  let! _ := assign (set__tuning_session_id eid) in
  let! m := self in
  let! eid := (match _tuning_session_id m with
               | None =>
                   let! eid := mlflow (create_experiment (session_str session)) in
                   let! _ := assign (set__tuning_session_id (Some eid)) in
                   ret eid
               | Some eid => ret eid
               end) in
  let! e := mlflow (set_experiment_by_id eid) in
  assign (set__experiment (Some e)).

Definition finish_run : M World unit :=
  let! m := self in
  let! _ := assign (set__accumulators (map clear (_accumulators m))) in
  let! _ := mlflow end_run in
  let! _ := assign (set__run None) in
  let! _ := assign (set__run_params None) in
  assign (set__run_id None).

(** [convert_value]: a list is joined with commas, anything else is
    passed on as it is. *)
Definition convert_value (value : param_value) : string :=
  match value with
  | PList items => String.concat ", " items
  | PScalar text => text
  end.

(** [for key, value in items: mlflow.log_param(key, convert_value(value))] *)
Fixpoint log_params (items : list (string * param_value)) : M World unit :=
  match items with
  | [] => ret tt
  | (key, value) :: rest =>
      let! _ := mlflow (log_param key (convert_value value)) in
      log_params rest
  end.

Definition set_run (params : FineTuningParams) : M World unit :=
  let! m := self in
  if is_initial (_tuning_session m) then
    throw (ValueError "You can't start run for initial experiment")
  else
    let! _ := (if bool_decide (_run m <> None) then finish_run else ret tt) in
    let! _ := assign (set__run_params (Some params)) in
    let run_name := id params in
    let! m := self in
    let! rid := ask (get_run_id_by_name (_tuning_session_id m) run_name) in
    let! _ := assign (set__run_id rid) in
    let! m := self in
    let! r := mlflow (start_run (_run_id m) (_tuning_session_id m) run_name) in
    let! _ := assign (set__run (Some r)) in
    let! m := self in
    let! _ := (if bool_decide (_run_id m = None)
               then assign (set__run_id (Some r)) else ret tt) in
    let! m := self in
    let! items := (match _tuning_session m with
                   | SessionOf session => ret (session_items session)
                   | _ => throw (TypeError "object is not iterable")
                   end) in
    let! _ := log_params items in
    log_params (params_items params).

(** The cell of the main-metric column in a run's row. *)
Definition cell (metric : string) (r : RunRow) : float :=
  match metrics r !! metric with Some q => Num q | None => NaN end.

(** The frame [mlflow.search_runs] builds of the runs [found] has the
    column [metrics.<metric>] when one of them recorded the metric; rows
    taken from the frame keep its columns. *)
Definition has_column (metric : string) (found : list RunRow) : bool :=
  bool_decide (Exists (fun r => is_Some (metrics r !! metric)) found).

(** [rows[metric_field]], for rows of the frame built of [found]. *)
Definition column (metric : string) (found rows : list RunRow)
  : result (list float) :=
  if has_column metric found
  then Ok (map (cell metric) rows)
  else Raise (KeyError ("metrics." +:+ metric)).

(** [mlflow.search_runs(experiment_ids=[self._tuning_session_id], ...)] *)
Definition search_session_runs (eid : option string)
  (filter_string : option (string * string)) : M World (list RunRow) :=
  match eid with
  | Some e => ask (search_runs [e] filter_string)
  | None => throw (MlflowException "Invalid experiment id")
  end.

(** [quality] is the main-metric column of the rows of the current run,
    under the row labels of the frame; [float(quality)] is its one value,
    and [quality[0]] the value under label [0]. *)
Definition get_quality : M World float :=
  let! m := self in
  if is_initial (_tuning_session m) then
    throw (ValueError
             ("No metrics for " +:+ INITIAL_EXPERIMENT_NAME +:+ " experiment"))
  else if bool_decide (_run_id m = None) then
    throw (ValueError "There is no current Run")
  else
    let! found := search_session_runs (_tuning_session_id m) None in
    let labelled := zip (seq 0 (length found)) found in
    let selected :=
      filter (fun ir => Some (run_id (ir.2)) = _run_id m) labelled in
    let! col := lift (column (main_metric m) found (map snd selected)) in
    let quality := zip (map fst selected) col in
    match quality with
    | [(_, x)] => ret x
    | _ =>
        match filter (fun ix => ix.1 = 0) quality with
        | (_, x) :: _ => ret x
        | [] => throw (KeyError "0")
        end
    end.

(** [Series.min()] and [Series.max()], which skip [NaN]. *)
Definition float_min (x y : float) : float :=
  match x, y with
  | Num a, Num b => if Qle_bool a b then x else y
  | NaN, _ => y
  | _, NaN => x
  end.
Definition float_max (x y : float) : float :=
  match x, y with
  | Num a, Num b => if Qle_bool b a then x else y
  | NaN, _ => y
  | _, NaN => x
  end.
Definition series_min (col : list float) : float := foldr float_min NaN col.
Definition series_max (col : list float) : float := foldr float_max NaN col.

Definition _get_best_quality (experiment_id : string)
  : M World (option string * float) :=
  let! m := self in
  let custom_filter := Some ("model_uploaded", "1") in
  let! found := ask (search_runs [experiment_id] custom_filter) in
  let runs := filter (fun r => status r = FINISHED) found in
  if bool_decide (length runs = 0) then
    ret (None, Num 0)
  else
    let! col := lift (column (main_metric m) found runs) in
    let value := if is_loss m then series_min col else series_max col in
    let best := filter (fun r => float_eq (cell (main_metric m) r) value = true)
                       runs in
    match best with
    | r :: _ => ret (Some (run_id r), cell (main_metric m) r)
    | [] => throw (IndexError "list index out of range")
    end.

Definition get_best_quality : M World (option string * float) :=
  let! m := self in
  if is_initial (_tuning_session m) then
    throw (ValueError
             ("No metrics for " +:+ INITIAL_EXPERIMENT_NAME +:+ " experiment"))
  else
    match _tuning_session_id m with
    | Some eid => _get_best_quality eid
    | None => throw (MlflowException "Invalid experiment id")
    end.

(** The upload itself: the model artifact, then the marker. *)
Definition upload (model : EmbeddingsModelInterface) : M World unit :=
  let! _ := mlflow (log_model model "model") in
  mlflow (log_param "model_uploaded" "1").

Definition save_model (model : EmbeddingsModelInterface) (best_only : bool)
  : M World unit :=
  let! m := self in
  if is_initial (_tuning_session m) then
    throw (ValueError ("Can't save not initial model for "
                       +:+ INITIAL_EXPERIMENT_NAME +:+ " experiment"))
  else if bool_decide (_run_id m = None) then
    throw (ValueError "There is no current Run")
  else if negb best_only then
    upload model
  else
    let! current_quality := get_quality in
    let! best := get_best_quality in
    let '(best_run_id, best_quality) := best in
    if bool_decide (best_run_id = None)
       || (if is_loss m then float_le current_quality best_quality
           else float_ge current_quality best_quality)
    then upload model
    else ret tt.

End WithConstants.

(** *** The methods around the initial model and the previous session *)

Definition INITIAL_RUN_NAME : string := "initial_model".

(** [mlflow.end_run(status)] *)
Definition end_run_as (s : RunStatus) : M MLflow unit :=
  fun st =>
    match active_run st with
    | None => (Ok tt, st)
    | Some rid =>
        let st' := update_run rid (with_status s) st in
        (Ok tt, mkMLflow (experiments st') (runs st') (active_experiment st')
                  None (fresh st'))
    end.

(** [with mlflow.start_run(experiment_id=eid, run_name=name) as run: body]:
    a new run is started, and on the way out it is ended as [FINISHED],
    or as [FAILED] when the body raised, the exception going on. *)
Definition with_start_run {A} (eid : option string) (name : string)
  (body : M World A) : M World A :=
  let! _ := mlflow (start_run None eid name) in
  fun w =>
    match body w with
    | (Ok a, w') => (let! _ := mlflow (end_run_as FINISHED) in ret a) w'
    | (Raise e, w') => (let! _ := mlflow (end_run_as FAILED) in throw e) w'
    end.

(** [mlflow.pytorch.load_model(f"runs:/{run_id}/model")]: the model last
    logged at ["model"] in the run. *)
Definition load_model (rid : option string) : M MLflow EmbeddingsModelInterface :=
  fun st =>
    match rid with
    | None => (Raise (MlflowException "Run 'None' not found"), st)
    | Some rid =>
        match find_run rid st with
        | None => (Raise (MlflowException "Run not found"), st)
        | Some r =>
            match head (filter (fun a => a.1 = "model") (artifacts r)) with
            | Some (_, model) => (Ok model, st)
            | None => (Raise (MlflowException "No such artifact"), st)
            end
        end
    end.

(** [e.name.startswith(EXPERIMENT_PREFIX)] *)
Definition startswith (prefix name : string) : bool := String.prefix prefix name.

(** [max(experiments, key=lambda exp: exp.creation_time)]: the store
    keeps its experiments in the order they were created, and creation
    times are taken to grow with it, so the latest is the last. *)
Definition latest_experiment (es : list ExperimentRow) : option ExperimentRow :=
  last es.

Section Lifecycle.
Context {constants : Constants}.

Definition __del__ : M World unit :=
  let! _ := finish_run in
  finish_session.

Definition upload_initial_model (model : EmbeddingsModelInterface)
  : M World unit :=
  let! _ := finish_session in
  let! eid := ask (get_experiment_id_by_name INITIAL_EXPERIMENT_NAME) in
  with_start_run eid INITIAL_RUN_NAME (mlflow (log_model model "model")).

Definition download_initial_model : M World EmbeddingsModelInterface :=
  let! eid := ask (get_experiment_id_by_name INITIAL_EXPERIMENT_NAME) in
  let! rid := ask (get_run_id_by_name eid INITIAL_RUN_NAME) in
  mlflow (load_model rid).

Definition get_previous_session_id : M World (option string) :=
  let! experiments :=
    ask (fun st => filter (fun e => startswith EXPERIMENT_PREFIX (exp_name e)
                                    = true)
                          (experiments st)) in
  if bool_decide (length experiments = 0) then ret None
  else ret (exp_id <$> latest_experiment experiments).

Definition get_last_model : M World EmbeddingsModelInterface :=
  let! initial_id := ask (get_experiment_id_by_name INITIAL_EXPERIMENT_NAME) in
  let! last_session_id := get_previous_session_id in
  if bool_decide (initial_id = last_session_id)
     || bool_decide (last_session_id = None)
  then download_initial_model
  else
    match last_session_id with
    | Some last =>
        let! best := _get_best_quality last in
        match best.1 with
        | None => download_initial_model
        | Some run_id => mlflow (load_model (Some run_id))
        end
    | None => download_initial_model
    end.

(** What [get_top_params] leaves to numpy and to the parameters' class:
    [np.argsort] on the metric column, and the making of a
    [FineTuningParams] from the fields of a row, the ["params."] prefix
    taken off its column names. *)
Variable argsort : list float -> list nat.
Variable FineTuningParams_of_row : RunRow -> result FineTuningParams.

(** [xs[:stop]]: everything when [stop] is [None], and all but the last
    [-stop] when it is negative. *)
Definition slice_upto {A} (stop : option Z) (xs : list A) : list A :=
  match stop with
  | None => xs
  | Some n =>
      if (n <? 0)%Z then take (length xs - Z.to_nat (- n)) xs
      else take (Z.to_nat n) xs
  end.

(** [runs.iloc[indices]] *)
Definition iloc (rows : list RunRow) (indices : list nat)
  : result (list RunRow) :=
  for_each (fun i => match rows !! i with
                     | Some r => Ok r
                     | None => Raise (IndexError "positional indexers are out-of-bounds")
                     end)
           indices.

Definition get_top_params : M World (option (list FineTuningParams)) :=
  let! initial_id := ask (get_experiment_id_by_name INITIAL_EXPERIMENT_NAME) in
  let! last_session_id := get_previous_session_id in
  if bool_decide (initial_id = last_session_id) then ret None
  else
    let! m := self in
    let custom_filter := Some ("model_uploaded", "1") in
    let! found := search_session_runs last_session_id custom_filter in
    let runs := filter (fun r => status r = FINISHED) found in
    if bool_decide (length runs = 0) then ret None
    else
      let! col := lift (column (main_metric m) found runs) in
      let sorted_indices := argsort col in
      let sorted_indices :=
        if negb (is_loss m) then reverse sorted_indices else sorted_indices in
      let! top_n_rows :=
        lift (iloc runs (slice_upto (_n_top_runs m) sorted_indices)) in
      let! params := lift (for_each FineTuningParams_of_row top_n_rows) in
      ret (Some params).

End Lifecycle.

End Tracker.

(** ** finetune_embedding_one_param.py and finetune_embedding.py *)

Module Sweep.
Import Tracker.

(** [float] negation, for [-1 * quality]. *)
Definition float_neg (x : float) : float :=
  match x with Num q => Num (- q) | NaN => NaN end.

(** [try: body except Exception: handler]: only exceptions deriving from
    [Exception] are caught, and what the body did before raising stays
    done. *)
Definition try_except_Exception {S A} (body : M S A) (handler : exn -> M S A)
  : M S A :=
  fun s => match body s with
           | (Raise e, s') =>
               if is_Exception e then handler e s' else (Raise e, s')
           | done => done
           end.

(** What the sweep works on: the tracker, the file [initial_model.pth] in
    the temporary directory (its content when it exists), and, as a
    record for the theorems only, the trials begun so far, oldest first. *)
Record Env : Type := mkEnv {
  tracker : World;
  initial_model_path : option EmbeddingsModelInterface;
  attempted : list FineTuningParams
}.

Definition on_tracker {A} (m : M World A) : M Env A :=
  fun env => let (r, w) := m (tracker env) in
             (r, mkEnv w (initial_model_path env) (attempted env)).

(** [torch.save(model, initial_model_path)] *)
Definition torch_save (model : EmbeddingsModelInterface) : M Env unit :=
  modify (fun env => mkEnv (tracker env) (Some model) (attempted env)).

(** [torch.load(initial_model_path)] *)
Definition torch_load : M Env EmbeddingsModelInterface :=
  fun env => match initial_model_path env with
             | Some model => (Ok model, env)
             | None => (Raise (OSError "No such file or directory"), env)
             end.

(** [os.path.exists(initial_model_path)] and [os.remove(...)] *)
Definition os_path_exists : M Env bool :=
  fun env => (Ok (bool_decide (initial_model_path env <> None)), env).
Definition os_remove : M Env unit :=
  fun env => match initial_model_path env with
             | Some _ => (Ok tt, mkEnv (tracker env) None (attempted env))
             | None => (Raise (OSError "No such file or directory"), env)
             end.

(** [with tempfile.TemporaryDirectory() as tmpdirname: body]: the
    directory is new, so nothing is at [initial_model_path] on entry, and
    it is removed with what it holds on the way out, exception or not. *)
Definition with_TemporaryDirectory {A} (body : M Env A) : M Env A :=
  fun env =>
    let (r, env') := body (mkEnv (tracker env) None (attempted env)) in
    (r, mkEnv (tracker env') None (attempted env')).

Definition begin_trial (params : FineTuningParams) : M Env unit :=
  modify (fun env => mkEnv (tracker env) (initial_model_path env)
                       (attempted env ++ [params])).

Section WithCollaborators.
Context {constants : Constants}.

(** The training of one trial (data loaders, [EmbeddingsFineTuner],
    [Trainer.fit], moving and unfixing the model): whatever it does to the
    tracker, metrics logged included, and however it ends. *)
Variable fit : EmbeddingsModelInterface -> FineTuningParams -> M World unit.

(** [tracker.get_top_params()] and [tracker.get_last_model()], which read
    the store through pandas and download a model. *)
Variable get_top_params : M World (option (list FineTuningParams)).
Variable get_last_model : M World EmbeddingsModelInterface.

(** hyperopt's choice of the next configuration, from the losses seen. *)
Variable suggest : list (FineTuningParams * float) -> FineTuningParams.

Definition fine_tune_embedding_model_one_param
  (initial_model : EmbeddingsModelInterface)
  (fine_tuning_params : FineTuningParams) : M World float :=
  let! _ := set_run fine_tuning_params in
  let! _ := fit initial_model fine_tuning_params in
  let! quality := get_quality in
  let! _ := try_except_Exception (save_model initial_model true)
              (fun _ => ret tt) in
  let! _ := finish_run in
  ret quality.

Definition _finetune_embedding_model_one_step
  (fine_tuning_params : FineTuningParams) : M Env float :=
  let! _ := begin_trial fine_tuning_params in
  let! model := torch_load in
  on_tracker (fine_tune_embedding_model_one_param model fine_tuning_params).

Definition _finetune_embedding_model_one_step_hyperopt
  (hyperopt_params : FineTuningParams) : M Env float :=
  let! quality := _finetune_embedding_model_one_step hyperopt_params in
  let! m := on_tracker self in
  ret (if is_loss m then quality else float_neg quality).

(** [fmin(fn, space, algo, max_evals)]: up to [max_evals] evaluations of
    the objective, an exception of which is passed on to the caller. *)
Fixpoint fmin (fn : FineTuningParams -> M Env float) (max_evals : nat)
  (trials : list (FineTuningParams * float)) : M Env unit :=
  match max_evals with
  | 0 => ret tt
  | S n =>
      let params := suggest trials in
      let! loss := fn params in
      fmin fn n (trials ++ [(params, loss)])
  end.

(** [for finetuning_params in best_params: one_step(...)] *)
Fixpoint replay (best_params : list FineTuningParams) : M Env unit :=
  match best_params with
  | [] => ret tt
  | finetuning_params :: rest =>
      let! _ := _finetune_embedding_model_one_step finetuning_params in
      replay rest
  end.

(** The body of the [try]. *)
Definition trials_block (best_params : option (list FineTuningParams))
  (initial_max_evals : nat) : M Env unit :=
  let! initial_model := on_tracker get_last_model in
  let! _ := torch_save initial_model in
  match best_params with
  | None | Some [] =>
      fmin _finetune_embedding_model_one_step_hyperopt initial_max_evals []
  | Some best_params => replay best_params
  end.

Definition finetune_embedding_model (session : FineTuningSession)
  (initial_max_evals : nat) : M Env unit :=
  let! best_params := on_tracker get_top_params in
  let! _ := on_tracker (set_session session) in
  let! _ := with_TemporaryDirectory
              (let! _ := try_except_Exception
                           (trials_block best_params initial_max_evals)
                           (fun _ => ret tt) in
               let! there := os_path_exists in
               if there then os_remove else ret tt) in
  on_tracker finish_session.

(** *** Notions the properties are stated with *)

(** What the [try] does before the first trial: the last model is
    fetched and saved at [initial_model_path]. *)
Definition prepare : M Env unit :=
  let! initial_model := on_tracker get_last_model in
  torch_save initial_model.

(** The first [k] evaluations of [fmin], giving the trials on record
    after them. *)
Fixpoint evaluations (fn : FineTuningParams -> M Env float) (k : nat)
  (trials : list (FineTuningParams * float))
  : M Env (list (FineTuningParams * float)) :=
  match k with
  | 0 => ret trials
  | S j =>
      let params := suggest trials in
      let! loss := fn params in
      evaluations fn j (trials ++ [(params, loss)])
  end.

End WithCollaborators.

End Sweep.

(** ** storage.py *)

Module Storage.

Section WithCells.
Context {Cell : Type} `{Countable Cell}.

(** A [datasets.Dataset] as the storage uses it: a table with named
    columns, a row giving the cell of each column. *)
Record Dataset : Type := mkDataset {
  column_names : list string;
  table : list (gmap string Cell)
}.

(** Every row has exactly the table's columns. *)
Definition well_formed (d : Dataset) : Prop :=
  Forall (fun row : gmap string Cell =>
            dom row = list_to_set (C := gset string) (column_names d))
         (table d).

Record ItemsStorage : Type := mkItemsStorage {
  dataset : Dataset;
  item_field_name : string;
  id_field_name : string;
  id_to_index : gmap Cell nat
}.

(** [row[field]] *)
Definition getitem_row (row : gmap string Cell) (field : string)
  : result Cell :=
  match row !! field with
  | Some c => Ok c
  | None => Raise (KeyError field)
  end.

(** [{row[id_field]: index for index, row in enumerate(dataset)}], the
    rows from [index] on being added to [acc]: a later row takes the
    place of an earlier one with the same id. *)
Fixpoint index_ids (id_field : string) (rows : list (gmap string Cell))
  (index : nat) (acc : gmap Cell nat) : result (gmap Cell nat) :=
  match rows with
  | [] => Ok acc
  | row :: rest =>
      rbind (getitem_row row id_field) (fun k =>
        index_ids id_field rest (S index) (<[k:=index]> acc))
  end.

Definition __init__ (dataset : Dataset) (item_field_name id_field_name : string)
  : result ItemsStorage :=
  rbind (index_ids id_field_name (table dataset) 0 ∅) (fun m =>
    Ok (mkItemsStorage dataset item_field_name id_field_name m)).

(** [len(self)] *)
Definition len (self : ItemsStorage) : nat := length (table (dataset self)).

(** The bounds check of [Dataset.__getitem__] on one integer key. *)
Definition check_valid_index_key (key : Z) (size : nat) : result unit :=
  if ((key <? 0)%Z && (key + Z.of_nat size <? 0)%Z) || (Z.of_nat size <=? key)%Z
  then Raise (IndexError "Invalid key: out of bounds for size")
  else Ok tt.

Definition max_key (key : list Z) : Z := foldr Z.max (default 0%Z (head key)) key.
Definition min_key (key : list Z) : Z := foldr Z.min (default 0%Z (head key)) key.

(** [self[key]] for a list of integers: the largest and the smallest key
    are checked, and a negative key counts from the end. *)
Definition getitem_indices (self : ItemsStorage) (key : list Z)
  : result (list (gmap string Cell)) :=
  let size := len self in
  match key with
  | [] => Ok []
  | _ =>
      rbind (check_valid_index_key (max_key key) size) (fun _ =>
      rbind (check_valid_index_key (min_key key) size) (fun _ =>
        Ok (omap (fun k => table (dataset self)
                             !! Z.to_nat (k mod Z.of_nat size)) key)))
  end.

(** [slice(start, stop).indices(size)], step 1. *)
Definition slice_bound (i : Z) (size : nat) : nat :=
  if (i <? 0)%Z then Z.to_nat (Z.max 0 (i + Z.of_nat size))
  else Z.to_nat (Z.min i (Z.of_nat size)).

(** [self[start:stop]] *)
Definition getitem_slice (self : ItemsStorage) (start stop : Z)
  : list (gmap string Cell) :=
  let size := len self in
  let a := slice_bound start size in
  let b := slice_bound stop size in
  take (b - a) (drop a (table (dataset self))).

(** [batch[field]] for rows taken from the table. *)
Definition getitem_column (self : ItemsStorage) (field : string)
  (batch : list (gmap string Cell)) : result (list Cell) :=
  if bool_decide (field ∈ column_names (dataset self))
  then Ok (omap (fun row : gmap string Cell => row !! field) batch)
  else Raise (KeyError field).

(** [self.id_to_index[id_]] *)
Definition index_of (self : ItemsStorage) (id_ : Cell) : result nat :=
  match id_to_index self !! id_ with
  | Some i => Ok i
  | None => Raise (KeyError "id")
  end.

Definition rows_by_ids (self : ItemsStorage) (ids : list Cell)
  : result (list (gmap string Cell)) :=
  rbind (for_each (index_of self) ids) (fun indices =>
    getitem_indices self (map Z.of_nat indices)).

Definition items_by_indices (self : ItemsStorage) (indices : list Z)
  : result (list Cell) :=
  rbind (getitem_indices self indices)
        (getitem_column self (item_field_name self)).

Definition items_by_ids (self : ItemsStorage) (ids : list Cell)
  : result (list Cell) :=
  rbind (rows_by_ids self ids) (getitem_column self (item_field_name self)).

Definition items_slice (self : ItemsStorage) (start_idx : Z)
  (end_idx : option Z) : result (list Cell) :=
  let end_idx := match end_idx with
                 | Some e => e
                 | None => Z.of_nat (len self)
                 end in
  getitem_column self (item_field_name self)
    (getitem_slice self start_idx end_idx).

End WithCells.
Arguments Dataset Cell : clear implicits.
Arguments ItemsStorage Cell {_ _}.

End Storage.

(** ** Concrete managers and stores *)

Module Examples.
Import Tracker Sweep.

Definition constants : Constants := {| EXPERIMENT_PREFIX := "iteration" |}.

Definition manager (is_loss : bool) : ExperimentsManager :=
  mkExperimentsManager "quality" is_loss (Some 10%Z)
    [mkMetricsAccumulator "train_loss" [1; 2]%Q]
    None SessionNone None None None None.

Definition empty_store : MLflow := mkMLflow [] [] None None 0.

Definition session1 : FineTuningSession :=
  mkFineTuningSession "iteration / 1" [("batch", PScalar "1")].
Definition session2 : FineTuningSession :=
  mkFineTuningSession "iteration / 2" [("batch", PScalar "2")].

Definition params_of (name : string) : FineTuningParams :=
  mkFineTuningParams name
    [("margin", PScalar name); ("examples_order", PList ["11"; "12"])].

Section Scenarios.
Let consts := constants.
#[local] Existing Instance consts.

(** One finished trial: the run is started, its quality logged, the model
    saved and the run finished. *)
Definition trial (name : string) (quality : Q) (best_only : bool)
  : M World unit :=
  let! _ := set_run (params_of name) in
  let! _ := mlflow (log_metric "quality" quality) in
  let! _ := save_model 7 best_only in
  finish_run.

(** A manager that has just been made. *)
Definition fresh_world (is_loss : bool) : World :=
  mkWorld (manager is_loss) empty_store.

(** ... after [finish_session()], on the reserved initial session. *)
Definition initial_world (is_loss : bool) : World :=
  after (finish_session (fresh_world is_loss)).

(** ... then in [session1], no run yet. *)
Definition session_world (is_loss : bool) : World :=
  after (set_session session1 (initial_world is_loss)).

(** ... then four finished trials with qualities 0.2, 0.5, 0.1, 0.5, all
    uploaded. *)
Definition four_trials : M World unit :=
  let! _ := trial "a" (2 # 10) false in
  let! _ := trial "b" (5 # 10) false in
  let! _ := trial "c" (1 # 10) false in
  trial "d" (5 # 10) false.

Definition four_runs_world (is_loss : bool) : World :=
  after (four_trials (session_world is_loss)).

(** ... then a fifth run, started and with quality [q] logged. *)
Definition running_world (is_loss : bool) (q : Q) : World :=
  after ((let! _ := set_run (params_of "e") in
          mlflow (log_metric "quality" q)) (four_runs_world is_loss)).

(** ... and the first run of a session, with its quality logged. *)
Definition first_run_world (is_loss : bool) : World :=
  after ((let! _ := set_run (params_of "a") in
          mlflow (log_metric "quality" (2 # 10)))
           (session_world is_loss)).


(** A sweep over two configurations kept from an earlier session, in
    which the training of the first fails and that of the second would
    log a quality. *)
Definition flaky_fit (model : EmbeddingsModelInterface)
  (params : FineTuningParams) : M World unit :=
  if bool_decide (id params = "a")
  then throw (RuntimeError "CUDA out of memory")
  else mlflow (log_metric "quality" (9 # 10)).

Definition top_two : M World (option (list FineTuningParams)) :=
  ret (Some [params_of "a"; params_of "b"]).

Definition last_model : M World EmbeddingsModelInterface := ret 7.

Definition suggest_fixed (trials : list (FineTuningParams * float))
  : FineTuningParams :=
  params_of "h".

Definition sweep_env : Env := mkEnv (initial_world false) None [].

Definition flaky_sweep : result unit * Env :=
  finetune_embedding_model flaky_fit top_two last_model suggest_fixed
    session1 100 sweep_env.

(** The same sweep, interrupted from the keyboard during the training
    of the first configuration. *)
Definition interrupted_fit (model : EmbeddingsModelInterface)
  (params : FineTuningParams) : M World unit :=
  throw KeyboardInterrupt.

Definition interrupted_sweep : result unit * Env :=
  finetune_embedding_model interrupted_fit top_two last_model suggest_fixed
    session1 100 sweep_env.

(** A session holding one finished run whose model was uploaded with no
    quality logged, and a training that logs the quality 0.9. *)
Definition unmeasured_world : World :=
  after ((let! _ := set_run (params_of "z") in
          let! _ := save_model 7 false in
          finish_run) (session_world false)).

Definition fit_logging (model : EmbeddingsModelInterface)
  (params : FineTuningParams) : M World unit :=
  mlflow (log_metric "quality" (9 # 10)).

End Scenarios.

(** An [argsort] by insertion, and parameters named after the run they
    are read from. *)
Definition value_at (col : list Tracker.float) (i : nat) : Tracker.float :=
  default Tracker.NaN (col !! i).

Fixpoint insert_by (col : list Tracker.float) (i : nat) (sorted : list nat)
  : list nat :=
  match sorted with
  | [] => [i]
  | j :: rest =>
      if Tracker.float_le (value_at col i) (value_at col j)
      then i :: j :: rest
      else j :: insert_by col i rest
  end.

Definition argsort_by_insertion (col : list Tracker.float) : list nat :=
  foldr (insert_by col) [] (seq 0 (length col)).

Definition params_of_row (r : Tracker.RunRow) : result Tracker.FineTuningParams :=
  Ok (params_of (Tracker.run_name r)).

(** A catalogue of three items, two of them under the same id. *)
Definition catalogue : Storage.Dataset string :=
  Storage.mkDataset ["id"; "item"]
    [ <["id" := "a"]> (<["item" := "apple"]> ∅);
      <["id" := "b"]> (<["item" := "bread"]> ∅);
      <["id" := "a"]> (<["item" := "anise"]> ∅) ].

(** ... and the storage built over it. *)
Definition catalogue_storage : Storage.ItemsStorage string :=
  Storage.mkItemsStorage catalogue "item" "id"
    (<["a" := 2]> (<["b" := 1]> (<["a" := 0]> ∅))).

End Examples.

(** * Properties *)

(** ** SessionFeatures *)

Module FeaturesSpec.
Import Features.

Lemma size_list_to_set_le_1 (ns : list nat) :
  ~ 1 < size (list_to_set ns : gset nat) <->
  (forall x y, x ∈ ns -> y ∈ ns -> x = y).
Proof.
  split.
  - intros Hsz x y Hx Hy.
    destruct (decide (x = y)) as [|Hne]; [done|].
    exfalso. apply Hsz.
    assert (Hsub : ({[x]} ∪ {[y]} : gset nat) ⊆ list_to_set ns).
    { intros z. rewrite elem_of_union, !elem_of_singleton, elem_of_list_to_set.
      intros [->| ->]; done. }
    apply subseteq_size in Hsub.
    rewrite size_union, !size_singleton in Hsub by set_solver. lia.
  - intros Hall.
    destruct ns as [|n ns'] eqn:E.
    + rewrite list_to_set_nil, size_empty. lia.
    + rewrite <- E in *.
      assert (Hsub : (list_to_set ns : gset nat) ⊆ {[n]}).
      { intros z. rewrite elem_of_list_to_set, elem_of_singleton.
        intros Hz. apply Hall; [done|]. rewrite E. left. }
      apply subseteq_size in Hsub. rewrite size_singleton in Hsub. lia.
Qed.

Section WithScalar.
Context {F : Type} `{Scalar F}.
Implicit Types (s : SessionFeatures F) (v : value F) (t : list F).

Lemma check_type_cases name v :
  (check_type name v = Ok tt /\ is_tensor_or_None v) \/
  (exists msg, check_type name v = Raise (TypeError msg)
               /\ ~ is_tensor_or_None v).
Proof.
  destruct v as [|t|o]; unfold check_type; simpl.
  - left. split; [done|]. by left.
  - left. split; [done|]. right. by exists t.
  - right. eexists. split; [done|]. intros [?|[? ?]]; done.
Qed.

Lemma check_types_cases s :
  (_check_types s = Ok tt /\ well_typed s) \/
  (exists msg, _check_types s = Raise (TypeError msg) /\ ~ well_typed s).
Proof.
  unfold _check_types, well_typed, fields.
  destruct (check_type_cases "positive_ranks" (_positive_ranks s))
    as [[-> H1]|(m & -> & H1)]; simpl;
    [|right; exists m; split; [done|]; rewrite !Forall_cons; tauto].
  destruct (check_type_cases "negative_ranks" (_negative_ranks s))
    as [[-> H2]|(m & -> & H2)]; simpl;
    [|right; exists m; split; [done|]; rewrite !Forall_cons; tauto].
  destruct (check_type_cases "target" (_target s))
    as [[-> H3]|(m & -> & H3)]; simpl;
    [|right; exists m; split; [done|]; rewrite !Forall_cons; tauto].
  destruct (check_type_cases "positive_confidences" (_positive_confidences s))
    as [[-> H4]|(m & -> & H4)]; simpl;
    [|right; exists m; split; [done|]; rewrite !Forall_cons; tauto].
  destruct (check_type_cases "negative_confidences" (_negative_confidences s))
    as [[-> H5]|(m & -> & H5)]; simpl;
    [|right; exists m; split; [done|]; rewrite !Forall_cons; tauto].
  left. split; [done|]. rewrite !Forall_cons, Forall_nil. tauto.
Qed.

Lemma lens_well_typed (xs : list (value F)) :
  Forall is_tensor_or_None xs -> lens xs = Ok (tensor_lengths xs).
Proof.
  induction 1 as [|v xs Hv _ IH]; [done|].
  destruct Hv as [->|[t ->]]; simpl; [done|]. by rewrite IH.
Qed.

Lemma elem_of_tensor_lengths (xs : list (value F)) n :
  n ∈ tensor_lengths xs <-> exists t, VTensor t ∈ xs /\ length t = n.
Proof.
  induction xs as [|v xs IH]; simpl.
  - split; [by intros ?%elem_of_nil|]. by intros (t & ?%elem_of_nil & _).
  - destruct v as [|t|o].
    + rewrite IH. split; intros (t & Ht & <-); exists t; split; try done.
      * by right.
      * by apply elem_of_cons in Ht as [?|?].
    + rewrite elem_of_cons, IH. split.
      * intros [->|(t' & Ht' & <-)]; [exists t|exists t']; split; try done.
        -- by left.
        -- by right.
      * intros (t' & Ht' & <-).
        apply elem_of_cons in Ht' as [[= ->]|?]; [by left|]. right. by exists t'.
    + rewrite IH. split; intros (t & Ht & <-); exists t; split; try done.
      * by right.
      * by apply elem_of_cons in Ht as [?|?].
Qed.

Lemma check_lengths_cases s :
  well_typed s ->
  (_check_lengths s = Ok tt /\ same_length s) \/
  (exists msg, _check_lengths s = Raise (ValueError msg) /\ ~ same_length s).
Proof.
  intros Hty. unfold _check_lengths.
  rewrite (lens_well_typed _ Hty). unfold rbind.
  destruct (decide (1 < size (list_to_set (tensor_lengths (fields s)) : gset nat)))
    as [Hgt|Hle].
  - right. eexists. split; [done|]. intros Hsame.
    revert Hgt. apply size_list_to_set_le_1.
    intros x y (t1 & H1 & <-)%elem_of_tensor_lengths
               (t2 & H2 & <-)%elem_of_tensor_lengths.
    by apply Hsame.
  - left. split; [done|]. intros t1 t2 H1 H2.
    apply (proj1 (size_list_to_set_le_1 _) Hle);
      apply elem_of_tensor_lengths; eauto.
Qed.

Lemma recheck_checked s :
  after (recheck s) = s /\ checked (outcome (recheck s)) s.
Proof.
  unfold recheck, bind, get, lift, after, outcome. simpl.
  destruct (check_types_cases s) as [[-> Hty]|(m & -> & Hty)]; simpl.
  - destruct (_check_lengths s) as [[]|e] eqn:E; simpl; (split; [done|]);
      destruct (check_lengths_cases s Hty) as [[E' Hs]|(m & E' & Hs)];
      rewrite E in E'; try done.
    injection E' as ->. right. done.
  - split; [done|]. by left.
Qed.

Lemma setter_checked
  (assign : value F -> SessionFeatures F -> SessionFeatures F) v s0 :
  let r := (let! _ := modify (assign v) in recheck) s0 in
  after r = assign v s0 /\ checked (outcome r) (assign v s0).
Proof. unfold bind, modify. simpl. apply recheck_checked. Qed.

(** C4, as the code has it.  The constructor hands out an object only
    when it is valid, and raises [TypeError] for a present field that is
    not a tensor and [ValueError] for tensors of differing lengths.  Each
    of the five setters stores the value first and checks afterwards: the
    object is left holding the assigned value whatever the outcome, and
    the outcome is [Ok] exactly for a valid object, [TypeError] and
    [ValueError] as for the constructor. *)
Theorem checked_construction_and_assignment
  (a b c d e v : value F) (s0 : SessionFeatures F) :
  match __init__ a b c d e with
  | Ok s => s = mkSessionFeatures a b c d e /\ valid s
  | Raise ex => checked (Raise ex) (mkSessionFeatures a b c d e)
  end
  /\ (after (set_positive_ranks v s0) = assign_positive_ranks v s0
      /\ checked (outcome (set_positive_ranks v s0))
                 (assign_positive_ranks v s0))
  /\ (after (set_negative_ranks v s0) = assign_negative_ranks v s0
      /\ checked (outcome (set_negative_ranks v s0))
                 (assign_negative_ranks v s0))
  /\ (after (set_target v s0) = assign_target v s0
      /\ checked (outcome (set_target v s0)) (assign_target v s0))
  /\ (after (set_positive_confidences v s0) = assign_positive_confidences v s0
      /\ checked (outcome (set_positive_confidences v s0))
                 (assign_positive_confidences v s0))
  /\ (after (set_negative_confidences v s0) = assign_negative_confidences v s0
      /\ checked (outcome (set_negative_confidences v s0))
                 (assign_negative_confidences v s0)).
Proof.
  split.
  - unfold __init__.
    set (s := mkSessionFeatures a b c d e).
    destruct (recheck_checked s) as [_ Hc].
    unfold recheck, bind, get, lift, outcome in Hc. simpl in Hc.
    destruct (_check_types s) as [[]|ex]; simpl in *; [|exact Hc].
    destruct (_check_lengths s) as [[]|ex]; simpl in *; [|exact Hc].
    done.
  - repeat split;
      first [ apply (setter_checked assign_positive_ranks)
            | apply (setter_checked assign_negative_ranks)
            | apply (setter_checked assign_target)
            | apply (setter_checked assign_positive_confidences)
            | apply (setter_checked assign_negative_confidences) ].
Qed.

(** *** [clamp_diff_in] *)

Lemma valid_five (pr nr tg pc nc : list F) :
  length nr = length pr -> length tg = length pr ->
  length pc = length pr -> length nc = length pr ->
  valid (mkSessionFeatures (VTensor pr) (VTensor nr) (VTensor tg)
           (VTensor pc) (VTensor nc)).
Proof.
  intros Hn Ht Hp Hc. split.
  - unfold well_typed, fields; simpl.
    repeat (apply Forall_cons; split; [right; eauto|]). constructor.
  - intros t1 t2. unfold fields; simpl.
    rewrite !elem_of_cons, !elem_of_nil.
    intros [E1|[E1|[E1|[E1|[E1|[]]]]]] [E2|[E2|[E2|[E2|[E2|[]]]]]];
      injection E1 as ->; injection E2 as ->; congruence.
Qed.

Lemma check_lengths_valid s : valid s -> _check_lengths s = Ok tt.
Proof.
  intros [Hty Hs].
  destruct (check_lengths_cases s Hty) as [[E _]|(m & _ & Hn)]; done.
Qed.

Lemma mask_in_range (min max : F) (pr nr : list F) :
  zip_with andb (map (fun x => gt (abs x) min) (zip_with sub pr nr))
                (map (fun x => lt (abs x) max) (zip_with sub pr nr))
  = zip_with (in_range min max) pr nr.
Proof.
  revert nr. induction pr as [|p pr IH]; intros [|n nr]; simpl; try done.
  by rewrite IH.
Qed.

Lemma length_masked (m : list bool) t :
  length t = length m ->
  length (masked m t) = length (filter (fun b => b = true) m).
Proof.
  revert t. induction m as [|b m IH]; intros [|x t] Hl; simpl in *; try done.
  rewrite filter_cons.
  destruct b; simpl; rewrite IH by lia; done.
Qed.

Lemma masked_again (min max : F) (pr nr : list F) t :
  length nr = length pr -> length t = length pr ->
  masked (zip_with (in_range min max)
            (masked (zip_with (in_range min max) pr nr) pr)
            (masked (zip_with (in_range min max) pr nr) nr))
         (masked (zip_with (in_range min max) pr nr) t)
  = masked (zip_with (in_range min max) pr nr) t.
Proof.
  revert nr t. induction pr as [|p pr IH]; intros [|n nr] [|x t] Hn Ht;
    simpl in *; try done.
  destruct (in_range min max p n) eqn:E; simpl.
  - rewrite E. f_equal. apply IH; lia.
  - apply IH; lia.
Qed.

Lemma at_indices_shift (l : list nat) x t :
  at_indices (S <$> l) (x :: t) = at_indices l t.
Proof.
  unfold at_indices. induction l as [|i l IH]; csimpl; [done|].
  rewrite IH. done.
Qed.

Lemma retained_cons (min max p n : F) (pr nr : list F) :
  retained min max (p :: pr) (n :: nr)
  = ((if in_range min max p n then [0] else [])
     ++ (S <$> retained min max pr nr))%list.
Proof.
  unfold retained. simpl length. rewrite <- cons_seq.
  rewrite filter_cons. rewrite <- fmap_S_seq.
  assert (Hshift : forall l : list nat,
    filter (fun i => in_range_at min max (p :: pr) (n :: nr) i = true) (S <$> l)
    = S <$> filter (fun i => in_range_at min max pr nr i = true) l).
  { induction l as [|i l IH]; [done|].
    rewrite fmap_cons, !filter_cons, IH.
    change (in_range_at min max (p :: pr) (n :: nr) (S i))
      with (in_range_at min max pr nr i).
    by destruct (decide (in_range_at min max pr nr i = true)). }
  rewrite Hshift.
  change (in_range_at min max (p :: pr) (n :: nr) 0) with (in_range min max p n).
  destruct (in_range min max p n); done.
Qed.

Lemma masked_at_indices (min max : F) (pr nr : list F) t :
  length nr = length pr -> length t = length pr ->
  masked (zip_with (in_range min max) pr nr) t
  = at_indices (retained min max pr nr) t.
Proof.
  revert nr t. induction pr as [|p pr IH]; intros [|n nr] [|x t] Hn Ht;
    simpl in *; try done.
  rewrite retained_cons.
  destruct (in_range min max p n); simpl.
  - unfold at_indices at 1. simpl. fold (at_indices (S <$> retained min max pr nr) (x :: t)).
    rewrite at_indices_shift, IH by lia. done.
  - rewrite at_indices_shift, IH by lia. done.
Qed.

Lemma elem_of_retained (min max : F) (pr nr : list F) i :
  i ∈ retained min max pr nr <->
  exists p n, pr !! i = Some p /\ nr !! i = Some n
              /\ gt (abs (sub p n)) min = true
              /\ lt (abs (sub p n)) max = true.
Proof.
  unfold retained. rewrite list_elem_of_filter, elem_of_seq.
  unfold in_range_at, in_range. split.
  - intros [Hr _].
    destruct (pr !! i) as [p|]; [|done]. destruct (nr !! i) as [n|]; [|done].
    apply andb_true_iff in Hr as [? ?]. by exists p, n.
  - intros (p & n & Hp & Hn & Hg & Hl). rewrite Hp, Hn, Hg, Hl.
    split; [done|]. apply lookup_lt_Some in Hp. lia.
Qed.

(** [clamp_diff_in] on five tensors of one length, by the mask. *)
Lemma clamp_diff_in_masked (min max : F) (pr nr tg pc nc : list F) :
  length nr = length pr -> length tg = length pr ->
  length pc = length pr -> length nc = length pr ->
  let m := zip_with (in_range min max) pr nr in
  clamp_diff_in min max
    (mkSessionFeatures (VTensor pr) (VTensor nr) (VTensor tg)
       (VTensor pc) (VTensor nc))
  = (Ok tt,
     mkSessionFeatures (VTensor (masked m pr)) (VTensor (masked m nr))
       (VTensor (masked m tg)) (VTensor (masked m pc))
       (VTensor (masked m nc))).
Proof.
  intros Hn Ht Hp Hc m.
  assert (Hm : length m = length pr).
  { unfold m. rewrite length_zip_with. lia. }
  unfold clamp_diff_in, bind, get, lift, modify, tensor_sub, broadcast2,
    getitem_mask. simpl.
  rewrite decide_True by done. simpl.
  rewrite mask_in_range. fold m.
  rewrite !decide_True by lia. simpl.
  rewrite check_lengths_valid; [done|].
  apply valid_five; rewrite !length_masked by lia; done.
Qed.

(** C5.  On an object whose five fields are tensors of one length,
    [clamp_diff_in min max] returns and leaves in every field the
    elements at exactly the indices [i] with
    [min < |positive_ranks[i] - negative_ranks[i]| < max], both
    comparisons strict, in their order; the object stays valid, and a
    second call with the same bounds changes nothing. *)
Theorem clamp_diff_in_retains (min max : F) (pr nr tg pc nc : list F) :
  length nr = length pr -> length tg = length pr ->
  length pc = length pr -> length nc = length pr ->
  let s := mkSessionFeatures (VTensor pr) (VTensor nr) (VTensor tg)
             (VTensor pc) (VTensor nc) in
  let keep := retained min max pr nr in
  let s' := mkSessionFeatures (VTensor (at_indices keep pr))
              (VTensor (at_indices keep nr)) (VTensor (at_indices keep tg))
              (VTensor (at_indices keep pc)) (VTensor (at_indices keep nc)) in
  (forall i, i ∈ keep <->
     exists p n, pr !! i = Some p /\ nr !! i = Some n
                 /\ gt (abs (sub p n)) min = true
                 /\ lt (abs (sub p n)) max = true)
  /\ clamp_diff_in min max s = (Ok tt, s')
  /\ valid s'
  /\ clamp_diff_in min max s' = (Ok tt, s').
Proof.
  intros Hn Ht Hp Hc s keep s'.
  set (m := zip_with (in_range min max) pr nr).
  assert (Hm : length m = length pr).
  { unfold m. rewrite length_zip_with. lia. }
  assert (Es' : s' = mkSessionFeatures (VTensor (masked m pr))
                       (VTensor (masked m nr)) (VTensor (masked m tg))
                       (VTensor (masked m pc)) (VTensor (masked m nc))).
  { unfold s', keep, m. rewrite <- !masked_at_indices by lia. done. }
  split; [intros i; apply elem_of_retained|].
  split; [rewrite Es'; apply clamp_diff_in_masked; done|].
  split.
  - rewrite Es'. apply valid_five; rewrite !length_masked by lia; done.
  - rewrite Es'.
    rewrite clamp_diff_in_masked by (rewrite !length_masked by lia; done).
    unfold m. rewrite !masked_again by lia. done.
Qed.

(** C10.  On a valid object whose two rank fields are tensors while
    [target], [positive_confidences] or [negative_confidences] is [None],
    [clamp_diff_in] raises [TypeError]: the absent field is subscripted
    with the mask. *)
Theorem clamp_diff_in_absent_field (min max : F) s (pr nr : list F) :
  valid s ->
  _positive_ranks s = VTensor pr ->
  _negative_ranks s = VTensor nr ->
  _target s = VNone \/ _positive_confidences s = VNone
    \/ _negative_confidences s = VNone ->
  raises (outcome (clamp_diff_in min max s)) is_TypeError.
Proof.
  intros [Hty Hsame] Epr Enr Habsent.
  destruct s as [a b tg pc nc]; simpl in *; subst a b.
  assert (Hn : length nr = length pr).
  { apply Hsame; unfold fields; simpl; rewrite !elem_of_cons; tauto. }
  assert (Hlen : forall t, VTensor t ∈ [tg; pc; nc] -> length t = length pr).
  { intros t Ht. apply Hsame; unfold fields; simpl;
      rewrite !elem_of_cons in *; tauto. }
  set (m := zip_with (in_range min max) pr nr).
  assert (Hm : length m = length pr).
  { unfold m. rewrite length_zip_with. lia. }
  unfold well_typed, fields in Hty; simpl in Hty.
  rewrite !Forall_cons in Hty.
  destruct Hty as (_ & _ & Htg & Hpc & Hnc & _).
  unfold clamp_diff_in, bind, get, lift, modify, tensor_sub, broadcast2,
    getitem_mask, outcome. simpl.
  rewrite decide_True by done. simpl.
  rewrite mask_in_range. fold m.
  rewrite !decide_True by lia. simpl.
  destruct Htg as [->|[t ->]]; simpl; [done|].
  rewrite decide_True
    by (rewrite Hm; symmetry; apply Hlen; rewrite !elem_of_cons; tauto).
  simpl.
  destruct Hpc as [->|[t' ->]]; simpl; [done|].
  rewrite decide_True
    by (rewrite Hm; symmetry; apply Hlen; rewrite !elem_of_cons; tauto).
  simpl.
  destruct Hnc as [->|[t'' ->]]; simpl; [done|].
  destruct Habsent as [?|[?|?]]; done.
Qed.

(** *** [__iadd__] and [use_positive_from] *)

Lemma check_types_valid s : well_typed s -> _check_types s = Ok tt.
Proof.
  intros Hty. destruct (check_types_cases s) as [[E _]|(m & _ & Hn)]; done.
Qed.

Lemma recheck_valid s : valid s -> recheck s = (Ok tt, s).
Proof.
  intros Hv. unfold recheck, bind, get, lift.
  rewrite (check_types_valid s) by apply Hv. simpl.
  by rewrite check_lengths_valid.
Qed.

(** Where [other] has the field, accumulation appends or adopts it. *)
Lemma _accumulate_present (v : value F) (b : list F) :
  is_tensor_or_None v ->
  _accumulate v (VTensor b)
  = Ok (VTensor (match v with VTensor a => a ++ b | _ => b end)%list).
Proof. intros [->|[a ->]]; done. Qed.

(** Where [other] lacks the field, the result is [None], whatever [self]
    held. *)
Lemma _accumulate_absent (v : value F) : _accumulate v VNone = Ok VNone.
Proof. by destruct v. Qed.

(** Where both objects hold all five fields, [+=] appends field by
    field, and into an empty object it adopts [other]'s fields. *)
Lemma iadd_all_present (a1 a2 a3 a4 a5 b1 b2 b3 b4 b5 : list F) :
  valid (mkSessionFeatures (VTensor a1) (VTensor a2) (VTensor a3)
           (VTensor a4) (VTensor a5)) ->
  valid (mkSessionFeatures (VTensor b1) (VTensor b2) (VTensor b3)
           (VTensor b4) (VTensor b5)) ->
  __iadd__ (mkSessionFeatures (VTensor b1) (VTensor b2) (VTensor b3)
              (VTensor b4) (VTensor b5))
    (mkSessionFeatures (VTensor a1) (VTensor a2) (VTensor a3)
       (VTensor a4) (VTensor a5))
  = (Ok tt,
     mkSessionFeatures (VTensor (a1 ++ b1)) (VTensor (a2 ++ b2))
       (VTensor (a3 ++ b3)) (VTensor (a4 ++ b4)) (VTensor (a5 ++ b5))).
Proof.
  intros [_ Ha] [_ Hb].
  assert (Hla : forall t, VTensor t ∈ [VTensor a1; VTensor a2; VTensor a3;
                                        VTensor a4; VTensor a5] ->
                          length t = length a1).
  { intros t Ht. apply Ha; unfold fields; simpl; [done|]. left. }
  assert (Hlb : forall t, VTensor t ∈ [VTensor b1; VTensor b2; VTensor b3;
                                        VTensor b4; VTensor b5] ->
                          length t = length b1).
  { intros t Ht. apply Hb; unfold fields; simpl; [done|]. left. }
  unfold __iadd__, bind, get, lift, modify. simpl.
  apply recheck_valid, valid_five; rewrite !length_app;
    repeat match goal with
    | |- context [length ?t] =>
        lazymatch t with
        | a1 => fail | b1 => fail
        | _ => first [ rewrite (Hla t) by (rewrite !elem_of_cons; tauto)
                     | rewrite (Hlb t) by (rewrite !elem_of_cons; tauto) ]
        end
    end; done.
Qed.

Lemma iadd_into_empty (other : SessionFeatures F) :
  valid other ->
  __iadd__ other (mkSessionFeatures VNone VNone VNone VNone VNone)
  = (Ok tt, other).
Proof.
  intros Hv. destruct other as [b1 b2 b3 b4 b5].
  unfold __iadd__, bind, get, lift, modify, _accumulate. simpl.
  assert (Hres : forall b : value F,
            (if is_not_None b then Ok b else Ok VNone) = Ok b).
  { by intros [| |]. }
  rewrite !Hres. simpl. by apply recheck_valid.
Qed.

(** When [self]'s negatives are at least as many as [other]'s positives,
    [use_positive_from] cuts [self] down to that number and returns. *)
Lemma use_positive_from_longer_self (other : SessionFeatures F)
  (a c : value F) (sn st sc op : list F) :
  valid other -> _positive_ranks other = VTensor op ->
  length st = length sn -> length sc = length sn ->
  length op <= length sn ->
  use_positive_from other
    (mkSessionFeatures a (VTensor sn) (VTensor st) c (VTensor sc))
  = (Ok tt,
     mkSessionFeatures (VTensor op) (VTensor (take (length op) sn))
       (VTensor (take (length op) st)) (VTensor op)
       (VTensor (take (length op) sc))).
Proof.
  intros [Hty Hsame] Eop Ht Hc Hle.
  unfold use_positive_from, bind, get, lift, modify, ret.
  rewrite (check_types_valid other Hty). simpl.
  rewrite (check_lengths_valid other (conj Hty Hsame)). simpl.
  rewrite Eop. simpl.
  destruct (Nat.ltb_spec (length sn) (length op)) as [?|_]; [lia|].
  destruct (Nat.ltb_spec (length op) (length sn)) as [Hlt|Hge]; simpl.
  - apply recheck_valid, valid_five; rewrite ?length_take; lia.
  - rewrite !take_ge by lia.
    apply recheck_valid, valid_five; lia.
Qed.

(** When [self]'s negatives are fewer than [other]'s positives, the
    positive ranks are cut to [self]'s number but the uncut tensor goes
    into [positive_confidences]: the final check always raises
    [ValueError]. *)
Lemma use_positive_from_shorter_self (other : SessionFeatures F)
  (a c : value F) (sn st sc op : list F) :
  valid other -> _positive_ranks other = VTensor op ->
  length sn < length op ->
  let r := use_positive_from other
             (mkSessionFeatures a (VTensor sn) (VTensor st) c (VTensor sc)) in
  raises (outcome r) is_ValueError
  /\ after r = mkSessionFeatures (VTensor (take (length sn) op)) (VTensor sn)
                 (VTensor st) (VTensor op) (VTensor sc).
Proof.
  intros [Hty Hsame] Eop Hlt.
  unfold use_positive_from, bind, get, lift, modify, ret.
  rewrite (check_types_valid other Hty). simpl.
  rewrite (check_lengths_valid other (conj Hty Hsame)). simpl.
  rewrite Eop. simpl.
  destruct (Nat.ltb_spec (length sn) (length op)) as [_|?]; [|lia]. simpl.
  split; [|done].
  set (s' := assign_positive_ranks _ _).
  assert (Hty' : well_typed s').
  { unfold well_typed, fields; simpl.
    repeat (apply Forall_cons; split; [right; eauto|]). constructor. }
  assert (Hns : ~ same_length s').
  { intros Hs. specialize (Hs (take (length sn) op) op).
    rewrite length_take in Hs.
    assert (length sn `min` length op = length op); [|lia].
    apply Hs; unfold fields; simpl; rewrite !elem_of_cons; tauto. }
  destruct (check_lengths_cases s' Hty') as [[_ Hs]|(m & -> & _)]; done.
Qed.

End WithScalar.

(** C4, as the claim has it, fails: a setter that raises has already
    stored the value.  An object holding two positive ranks, assigned
    three negative ranks, raises [ValueError] and is left with fields of
    lengths two and three. *)
Lemma failed_assignment_leaves_invalid_state :
  let s0 : SessionFeatures Q :=
    mkSessionFeatures (VTensor [1; 2]%Q) VNone VNone VNone VNone in
  let r := set_negative_ranks (VTensor [1; 2; 3]%Q) s0 in
  __init__ (VTensor [1; 2]%Q) VNone VNone VNone VNone = Ok s0
  /\ raises (outcome r) is_ValueError
  /\ after r = mkSessionFeatures (VTensor [1; 2]%Q) (VTensor [1; 2; 3]%Q)
                 VNone VNone VNone
  /\ ~ same_length (after r).
Proof.
  repeat split; try reflexivity.
  intros Hsame.
  specialize (Hsame [1; 2]%Q [1; 2; 3]%Q).
  simpl in Hsame.
  assert (2 = 3) as Habs; [|lia].
  apply Hsame; unfold fields; simpl; rewrite !elem_of_cons; tauto.
Qed.


Lemma clamp_diff_in_retains_witness :
  clamp_diff_in (1 # 2)%Q 2%Q
    (mkSessionFeatures (VTensor [1; 5; 3]%Q) (VTensor [2; 2; 2]%Q)
       (VTensor [1; 1; 1]%Q) (VTensor [7; 8; 9]%Q) (VTensor [4; 5; 6]%Q))
  = (Ok tt,
     mkSessionFeatures (VTensor [1; 3]%Q) (VTensor [2; 2]%Q)
       (VTensor [1; 1]%Q) (VTensor [7; 9]%Q) (VTensor [4; 6]%Q)).
Proof.
  destruct (clamp_diff_in_retains (1 # 2)%Q 2%Q
              [1; 5; 3]%Q [2; 2; 2]%Q [1; 1; 1]%Q [7; 8; 9]%Q [4; 5; 6]%Q
              eq_refl eq_refl eq_refl eq_refl) as (_ & E & _).
  exact E.
Defined.

Lemma clamp_diff_in_absent_field_witness :
  raises
    (outcome
       (clamp_diff_in (1 # 2)%Q 2%Q
          (mkSessionFeatures (VTensor [1; 5; 3]%Q) (VTensor [2; 2; 2]%Q)
             (VTensor [1; 1; 1]%Q) VNone (VTensor [4; 5; 6]%Q))))
    is_TypeError.
Proof.
  apply (clamp_diff_in_absent_field (1 # 2)%Q 2%Q _ [1; 5; 3]%Q [2; 2; 2]%Q).
  - split.
    + unfold well_typed, fields; simpl.
      repeat (apply Forall_cons; split; [first [by left|right; eauto]|]).
      constructor.
    + intros t1 t2. unfold fields; simpl.
      rewrite !elem_of_cons, !elem_of_nil.
      intros [E1|[E1|[E1|[E1|[E1|[]]]]]] [E2|[E2|[E2|[E2|[E2|[]]]]]];
        try discriminate; injection E1 as ->; injection E2 as ->; reflexivity.
  - reflexivity.
  - reflexivity.
  - right. left. reflexivity.
Defined.

(** C3 at its failing input.  [A] holds one example in its rank and
    target fields; [B] is the empty [SessionFeatures()].  [A += B] should
    leave [A]'s values, of length [len(A) + 0]; the code returns and
    leaves every field of [A] absent, since [_accumulate] answers [None]
    whenever [other]'s field is [None]. *)
Theorem iadd_empty_other_drops_fields :
  let A : SessionFeatures Q :=
    mkSessionFeatures (VTensor [1]%Q) (VTensor [2]%Q) (VTensor [1]%Q)
      VNone VNone in
  let B : SessionFeatures Q :=
    mkSessionFeatures VNone VNone VNone VNone VNone in
  __init__ VNone VNone VNone VNone VNone = Ok B
  /\ __iadd__ B A = (Ok tt, B).
Proof. split; reflexivity. Qed.

(** C6 at its failing input.  [self] has one negative example and no
    positives, [other] two positive examples.  The borrowed ranks are cut
    to one element, but the uncut two-element tensor is stored in
    [positive_confidences], so the closing check raises [ValueError]. *)
Theorem use_positive_from_shorter_self_fails :
  let self : SessionFeatures Q :=
    mkSessionFeatures VNone (VTensor [1]%Q) (VTensor [1]%Q) VNone
      (VTensor [1]%Q) in
  let other : SessionFeatures Q :=
    mkSessionFeatures (VTensor [1; 2]%Q) (VTensor [1; 2]%Q)
      (VTensor [1; 1]%Q) (VTensor [1; 2]%Q) (VTensor [1; 1]%Q) in
  use_positive_from other self
  = (Raise (ValueError "All non-None parameters must have the same length"),
     mkSessionFeatures (VTensor [1]%Q) (VTensor [1]%Q) (VTensor [1]%Q)
       (VTensor [1; 2]%Q) (VTensor [1]%Q)).
Proof. reflexivity. Qed.

End FeaturesSpec.

(** ** ExperimentsManager *)

Module TrackerSpec.
Import Tracker.

Lemma experiment_by_name_Some name st eid :
  experiment_by_name name st = Some eid ->
  eid ∈ map exp_id (experiments st).
Proof.
  unfold experiment_by_name. intros Hh.
  apply fmap_Some in Hh as (e & Hh & ->).
  apply head_Some_elem_of, list_elem_of_filter in Hh as [_ He].
  apply list_elem_of_fmap. eauto.
Qed.

Lemma experiment_by_name_None name st :
  experiment_by_name name st = None ->
  name ∉ map exp_name (experiments st).
Proof.
  unfold experiment_by_name. intros Hh.
  apply fmap_None, head_None in Hh.
  intros (e & -> & He)%list_elem_of_fmap.
  by apply (filter_nil_not_elem_of _ _ e Hh).
Qed.

Lemma ensure_experiment_resolves name st :
  experiment_by_name name (ensure_experiment name st).2
  = Some (ensure_experiment name st).1.
Proof.
  unfold ensure_experiment.
  destruct (experiment_by_name name st) as [eid|] eqn:E; simpl; [done|].
  unfold experiment_by_name in *. simpl.
  apply fmap_None, head_None in E.
  rewrite filter_app, E. simpl.
  rewrite filter_cons_True by done. done.
Qed.

Lemma qualifying_search eid st :
  filter (fun r => status r = FINISHED)
    (search_runs [eid] (Some ("model_uploaded", "1")) st)
  = qualifying eid st.
Proof.
  unfold search_runs, qualifying. rewrite list_filter_filter.
  apply list_filter_iff. intros r. unfold matches_filter.
  rewrite andb_true_iff, !bool_decide_eq_true, list_elem_of_singleton.
  tauto.
Qed.


(** [Series.min()] is [NaN] on a column without numbers, and otherwise a
    least number of the column; likewise [Series.max()]. *)
Lemma series_min_cases (col : list float) :
  (series_min col = NaN /\ forall v, Num v ∉ col) \/
  (exists v, series_min col = Num v /\ Num v ∈ col
             /\ forall v', Num v' ∈ col -> (v <= v')%Q).
Proof.
  induction col as [|x col IH]; simpl.
  - left. split; [done|]. intros v. apply not_elem_of_nil.
  - destruct x as [a|];
      destruct IH as [[-> Hnone]|(b & -> & Hin & Hle)]; simpl.
    + right. exists a. split; [done|]. split; [left|].
      intros v' [[= ->]|Hv]%elem_of_cons; [apply Qle_refl|].
      by apply Hnone in Hv.
    + destruct (Qle_bool a b) eqn:E; right.
      * apply Qle_bool_iff in E.
        exists a. split; [done|]. split; [left|].
        intros v' [[= ->]|Hv]%elem_of_cons; [apply Qle_refl|].
        eapply Qle_trans; [exact E|by apply Hle].
      * assert (b <= a)%Q.
        { apply Qlt_le_weak, Qnot_le_lt. intros Hab.
          apply Qle_bool_iff in Hab. congruence. }
        exists b. split; [done|]. split; [by right|].
        intros v' [[= ->]|Hv]%elem_of_cons; [done|by apply Hle].
    + left. split; [done|]. intros v [?|Hv]%elem_of_cons; [done|].
      by apply Hnone in Hv.
    + right. exists b. split; [done|]. split; [by right|].
      intros v' [?|Hv]%elem_of_cons; [done|by apply Hle].
Qed.

Lemma series_max_cases (col : list float) :
  (series_max col = NaN /\ forall v, Num v ∉ col) \/
  (exists v, series_max col = Num v /\ Num v ∈ col
             /\ forall v', Num v' ∈ col -> (v' <= v)%Q).
Proof.
  induction col as [|x col IH]; simpl.
  - left. split; [done|]. intros v. apply not_elem_of_nil.
  - destruct x as [a|];
      destruct IH as [[-> Hnone]|(b & -> & Hin & Hle)]; simpl.
    + right. exists a. split; [done|]. split; [left|].
      intros v' [[= ->]|Hv]%elem_of_cons; [apply Qle_refl|].
      by apply Hnone in Hv.
    + destruct (Qle_bool b a) eqn:E; right.
      * apply Qle_bool_iff in E.
        exists a. split; [done|]. split; [left|].
        intros v' [[= ->]|Hv]%elem_of_cons; [apply Qle_refl|].
        eapply Qle_trans; [by apply Hle|exact E].
      * assert (a <= b)%Q.
        { apply Qlt_le_weak, Qnot_le_lt. intros Hab.
          apply Qle_bool_iff in Hab. congruence. }
        exists b. split; [done|]. split; [by right|].
        intros v' [[= ->]|Hv]%elem_of_cons; [done|by apply Hle].
    + left. split; [done|]. intros v [?|Hv]%elem_of_cons; [done|].
      by apply Hnone in Hv.
    + right. exists b. split; [done|]. split; [by right|].
      intros v' [?|Hv]%elem_of_cons; [done|by apply Hle].
Qed.

Lemma elem_of_column metric (rows : list RunRow) v :
  Num v ∈ map (cell metric) rows <->
  exists r, r ∈ rows /\ metrics r !! metric = Some v.
Proof.
  rewrite list_elem_of_fmap. unfold cell. split.
  - intros (r & E & Hr). exists r. split; [done|].
    destruct (metrics r !! metric); by inversion E.
  - intros (r & Hr & E). exists r. by rewrite E.
Qed.

Lemma filter_keeps_none {A} (P : A -> Prop) `{!forall x, Decision (P x)}
  (l : list A) :
  (forall x, x ∈ l -> ~ P x) -> filter P l = [].
Proof.
  induction l as [|a l IH]; intros Hall; [done|].
  rewrite filter_cons_False by (apply Hall; left).
  apply IH. intros x Hx. apply Hall. by right.
Qed.

Lemma find_run_update rid (f : RunRow -> RunRow) st :
  (forall r, run_id (f r) = run_id r) ->
  find_run rid (update_run rid f st) = f <$> find_run rid st.
Proof.
  intros Hid. unfold find_run, update_run. simpl.
  induction (runs st) as [|a l IH]; [done|].
  simpl. rewrite !filter_cons.
  destruct (decide (run_id a = rid)) as [Ha|Ha].
  - rewrite decide_True by (by rewrite Hid). done.
  - rewrite decide_False by done. apply IH.
Qed.

Section WithConstants.
Context {constants : Constants}.
Implicit Types (w : World) (st : MLflow).

(** *** [finish_session] and [set_session] *)

Lemma finish_session_enter w :
  finish_session w = (Ok tt, enter SessionInitial INITIAL_EXPERIMENT_NAME w).
Proof.
  unfold finish_session, enter, ensure_experiment, bind, assign, ask, self,
    mlflow, get_experiment_id_by_name. simpl.
  destruct (experiment_by_name INITIAL_EXPERIMENT_NAME (store w))
    as [eid|] eqn:E; simpl.
  - unfold set_experiment_by_id.
    rewrite decide_True by (by eapply experiment_by_name_Some). done.
  - unfold set_experiment_by_name, bind, create_experiment. rewrite E.
    rewrite decide_False by (by apply experiment_by_name_None).
    unfold set_experiment_by_id. simpl.
    rewrite decide_True; [done|].
    rewrite map_app, elem_of_app. right. simpl. left.
Qed.

Lemma set_session_enter session w :
  set_session session w
  = (Ok tt,
     enter (SessionOf session) (session_str session)
       (if is_initial (_tuning_session (mgr w))
        then enter SessionInitial INITIAL_EXPERIMENT_NAME w else w)).
Proof.
  unfold set_session. unfold bind at 1. unfold self at 1.
  unfold bind at 1.
  assert (Hpre :
    (if is_initial (_tuning_session (mgr w)) then finish_session else ret tt) w
    = (Ok tt, if is_initial (_tuning_session (mgr w))
              then enter SessionInitial INITIAL_EXPERIMENT_NAME w else w)).
  { destruct (is_initial _); [apply finish_session_enter|done]. }
  rewrite Hpre. clear Hpre.
  set (w0 := if is_initial _ then _ else w).
  unfold enter at 1, ensure_experiment, bind, assign, ask, self, mlflow,
    get_experiment_id_by_name, ret. simpl.
  destruct (experiment_by_name (session_str session) (store w0))
    as [eid|] eqn:E; simpl.
  - unfold set_experiment_by_id.
    rewrite decide_True by (by eapply experiment_by_name_Some). done.
  - unfold create_experiment.
    rewrite decide_False by (by apply experiment_by_name_None).
    unfold set_experiment_by_id. simpl.
    rewrite decide_True; [done|].
    rewrite map_app, elem_of_app. right. simpl. left.
Qed.

Lemma enter_run_state session name w :
  let w' := enter session name w in
  _run (mgr w') = _run (mgr w)
  /\ _run_params (mgr w') = _run_params (mgr w)
  /\ _run_id (mgr w') = _run_id (mgr w)
  /\ _accumulators (mgr w') = _accumulators (mgr w)
  /\ runs (store w') = runs (store w)
  /\ active_run (store w') = active_run (store w).
Proof.
  unfold enter, ensure_experiment.
  destruct (experiment_by_name name (store w)); simpl; done.
Qed.

(** C7, as the code has it.  [set_session] returns and does not finish
    a run: the manager's run, run parameters, run identifier and
    accumulators, and the store's runs and active run, are as before.  It
    calls [finish_session] first exactly when the current session is the
    reserved initial one, and then points the manager at the experiment
    named after the given session, created if it did not exist. *)
Theorem set_session_keeps_run session w :
  let r := set_session session w in
  outcome r = Ok tt
  /\ _run (mgr (after r)) = _run (mgr w)
  /\ _run_params (mgr (after r)) = _run_params (mgr w)
  /\ _run_id (mgr (after r)) = _run_id (mgr w)
  /\ _accumulators (mgr (after r)) = _accumulators (mgr w)
  /\ runs (store (after r)) = runs (store w)
  /\ active_run (store (after r)) = active_run (store w)
  /\ _tuning_session (mgr (after r)) = SessionOf session
  /\ (exists eid,
        _tuning_session_id (mgr (after r)) = Some eid
        /\ active_experiment (store (after r)) = Some eid
        /\ experiment_by_name (session_str session) (store (after r))
           = Some eid)
  /\ after r
     = enter (SessionOf session) (session_str session)
         (if is_initial (_tuning_session (mgr w))
          then after (finish_session w) else w).
Proof.
  intros r. unfold r. rewrite set_session_enter, finish_session_enter.
  unfold outcome, after. simpl.
  set (w0 := if is_initial _ then _ else w).
  assert (H0 : _run (mgr w0) = _run (mgr w)
               /\ _run_params (mgr w0) = _run_params (mgr w)
               /\ _run_id (mgr w0) = _run_id (mgr w)
               /\ _accumulators (mgr w0) = _accumulators (mgr w)
               /\ runs (store w0) = runs (store w)
               /\ active_run (store w0) = active_run (store w)).
  { unfold w0. destruct (is_initial _); [apply enter_run_state|done]. }
  destruct H0 as (E1 & E2 & E3 & E4 & E5 & E6).
  destruct (enter_run_state (SessionOf session) (session_str session) w0)
    as (F1 & F2 & F3 & F4 & F5 & F6).
  split; [done|].
  rewrite F1, F2, F3, F4, F5, F6.
  do 6 (split; [done|]).
  pose proof (ensure_experiment_resolves (session_str session) (store w0)) as Hr.
  unfold enter.
  destruct (ensure_experiment (session_str session) (store w0)) as [eid st1].
  simpl in *. split; [done|]. split; [|done].
  exists eid. done.
Qed.


(** C8.  On the reserved initial session [set_run] raises [ValueError];
    with no active run [get_quality] and [save_model] raise [ValueError];
    in each case the manager and the store are left as they were. *)
Theorem invalid_transitions_raise w :
  (is_initial (_tuning_session (mgr w)) = true ->
   forall params,
     raises (outcome (set_run params w)) is_ValueError
     /\ after (set_run params w) = w)
  /\ (_run_id (mgr w) = None ->
      (raises (outcome (get_quality w)) is_ValueError
       /\ after (get_quality w) = w)
      /\ forall model best_only,
          raises (outcome (save_model model best_only w)) is_ValueError
          /\ after (save_model model best_only w) = w).
Proof.
  split.
  - intros Hinit params.
    unfold set_run, bind, self, throw. simpl. rewrite Hinit. done.
  - intros Hrun. split; [|intros model best_only].
    + unfold get_quality, bind, self, throw. simpl. rewrite Hrun.
      by destruct (is_initial _).
    + unfold save_model, bind, self, throw. simpl. rewrite Hrun.
      by destruct (is_initial _).
Qed.

Lemma finish_run_eval w :
  finish_run w
  = (Ok tt,
     mkWorld
       (set__run_id None
          (set__run_params None
             (set__run None
                (set__accumulators (map clear (_accumulators (mgr w)))
                   (mgr w)))))
       (after (end_run (store w)))).
Proof.
  unfold finish_run, bind, self, assign, mlflow, end_run, after. simpl.
  by destruct (active_run (store w)).
Qed.

(** The run [set_session] left active is finished by the next
    [set_run], before the new run is started. *)
Lemma set_run_finishes_stale_run params w :
  is_initial (_tuning_session (mgr w)) = false ->
  _run (mgr w) <> None ->
  set_run params w = set_run params (after (finish_run w))
  /\ _run_id (mgr (after (finish_run w))) = None
  /\ Forall (fun a => acc_values a = [])
       (_accumulators (mgr (after (finish_run w)))).
Proof.
  intros Hinit Hrun. rewrite finish_run_eval. unfold after. simpl.
  split; [|split; [done|]].
  - unfold set_run, bind, self. cbv beta iota.
    change (_tuning_session (mgr {| mgr := _; store := _ |}))
      with (_tuning_session (mgr w)).
    rewrite Hinit. rewrite (bool_decide_eq_true_2 (_run (mgr w) <> None)) by done.
    rewrite finish_run_eval. unfold after. done.
  - apply Forall_forall. by intros a (a0 & -> & _)%list_elem_of_fmap.
Qed.

(** *** Best-run selection *)

Lemma get_best_quality_delegates w eid :
  is_initial (_tuning_session (mgr w)) = false ->
  _tuning_session_id (mgr w) = Some eid ->
  get_best_quality w = _get_best_quality eid w.
Proof.
  intros Hi Hid. unfold get_best_quality, bind, self. simpl.
  by rewrite Hi, Hid.
Qed.

Lemma best_quality_of_none w eid :
  qualifying eid (store w) = [] ->
  _get_best_quality eid w = (Ok (None, Num 0), w).
Proof.
  intros Hnil.
  unfold _get_best_quality, bind, self, ask, lift, ret. simpl.
  by rewrite qualifying_search, Hnil.
Qed.



(** Where runs qualify and none has a recorded main metric, the lookup
    of the metric column fails when no run bearing the marker recorded
    it, and otherwise no row equals the [NaN] that [min] and [max]
    give. *)
Lemma best_quality_none_recorded w eid :
  qualifying eid (store w) <> [] ->
  (forall r, r ∈ qualifying eid (store w) ->
             metrics r !! main_metric (mgr w) = None) ->
  _get_best_quality eid w
  = (Raise (if has_column (main_metric (mgr w))
                 (search_runs [eid] (Some ("model_uploaded", "1")) (store w))
            then IndexError "list index out of range"
            else KeyError ("metrics." +:+ main_metric (mgr w))), w).
Proof.
  intros Hsome Hnone.
  unfold _get_best_quality, bind, self, ask, lift, ret, throw.
  cbv beta iota. rewrite qualifying_search.
  destruct (qualifying eid (store w)) as [|q0 qs] eqn:Eq; [done|].
  rewrite bool_decide_eq_false_2 by done.
  unfold column.
  destruct (has_column _ _); cbv beta iota; [|done].
  set (col := map (cell (main_metric (mgr w))) (q0 :: qs)).
  assert (Hnan : forall v, Num v ∉ col).
  { intros v (r & Hr & Hv)%elem_of_column. by rewrite (Hnone r Hr) in Hv. }
  assert (Hvalue : (if is_loss (mgr w) then series_min col
                    else series_max col) = NaN).
  { destruct (is_loss (mgr w)).
    - destruct (series_min_cases col) as [[-> _]|(v & _ & Hin & _)]; [done|].
      by apply Hnan in Hin.
    - destruct (series_max_cases col) as [[-> _]|(v & _ & Hin & _)]; [done|].
      by apply Hnan in Hin. }
  rewrite Hvalue.
  rewrite filter_keeps_none; [done|].
  intros r _. unfold float_eq. by destruct (cell _ r).
Qed.


(** *** [save_model] *)

Lemma get_quality_reads w : after (get_quality w) = w.
Proof.
  unfold get_quality, search_session_runs, bind, self, throw, ask, lift, ret,
    after.
  simpl. repeat case_match; simplify_eq; done.
Qed.




End WithConstants.

Lemma invalid_transitions_raise_witness :
  let w := Examples.initial_world false in
  raises (outcome (set_run (Examples.params_of "a") w)) is_ValueError
  /\ raises (outcome (get_quality (constants := Examples.constants) w))
       is_ValueError
  /\ raises (outcome (save_model (constants := Examples.constants) 7 true w))
       is_ValueError.
Proof.
  destruct (invalid_transitions_raise (constants := Examples.constants)
              (Examples.initial_world false)) as [Hset Hrun].
  destruct (Hset eq_refl (Examples.params_of "a")) as [H1 _].
  destruct (Hrun eq_refl) as [[H2 _] Hsave].
  destruct (Hsave 7 true) as [H3 _].
  exact (conj H1 (conj H2 H3)).
Defined.

(** The runs of the example session, with qualities 0.2, 0.5, 0.1 and
    0.5, are listed newest first: the best is the newer of the two 0.5
    runs when the metric is not a loss, and the 0.1 run when it is. *)
Lemma best_of_four_not_loss :
  outcome (get_best_quality (constants := Examples.constants)
             (Examples.four_runs_world false))
  = Ok (Some "run-5", Num (5 # 10)).
Proof. vm_compute. reflexivity. Qed.

Lemma best_of_four_loss :
  outcome (get_best_quality (constants := Examples.constants)
             (Examples.four_runs_world true))
  = Ok (Some "run-4", Num (1 # 10)).
Proof. vm_compute. reflexivity. Qed.



(** C7, as the claim has it, fails.  With the first run of a session
    active, [set_session] for another session returns and leaves the run
    active: the manager keeps the run identifier, the accumulator keeps
    its values, and the store still has the run [RUNNING] and active. *)
Lemma set_session_does_not_finish_run :
  let w := Examples.first_run_world false in
  let r := set_session (constants := Examples.constants) Examples.session2 w in
  _run_id (mgr w) = Some "run-2"
  /\ outcome r = Ok tt
  /\ _tuning_session (mgr (after r)) = SessionOf Examples.session2
  /\ _run_id (mgr (after r)) = Some "run-2"
  /\ map acc_values (_accumulators (mgr (after r))) = [[1; 2]%Q]
  /\ active_run (store (after r)) = Some "run-2"
  /\ status <$> find_run "run-2" (store (after r)) = Some RUNNING
  /\ _run_id (mgr (after (finish_run w))) = None
  /\ map acc_values (_accumulators (mgr (after (finish_run w)))) = [[]].
Proof. vm_compute. repeat split; reflexivity. Qed.


(** The three cases of [best_only=True]: the first run of a session
    uploads; after runs with qualities up to 0.5, a run with quality 0.4
    does not upload and a run with quality 0.5 does. *)
Lemma first_run_uploads :
  let w := Examples.first_run_world false in
  let r := save_model (constants := Examples.constants) 7 true w in
  qualifying "1" (store w) = []
  /\ outcome r = Ok tt
  /\ (params <$> find_run "run-2" (store (after r))) ≫= (.!! "model_uploaded")
     = Some "1".
Proof. vm_compute. repeat split; reflexivity. Qed.

Lemma worse_run_does_not_upload :
  let w := Examples.running_world false (4 # 10) in
  save_model (constants := Examples.constants) 7 true w = (Ok tt, w).
Proof. vm_compute. reflexivity. Qed.

Lemma equal_run_uploads :
  let w := Examples.running_world false (5 # 10) in
  let r := save_model (constants := Examples.constants) 7 true w in
  outcome r = Ok tt
  /\ (params <$> find_run "run-6" (store (after r))) ≫= (.!! "model_uploaded")
     = Some "1".
Proof. vm_compute. repeat split; reflexivity. Qed.


End TrackerSpec.

(** ** The sweep *)

Module SweepSpec.
Import Tracker Sweep.

Lemma try_except_swallows {S} (body : M S unit) (s : S) :
  (forall e, outcome (body s) = Raise e -> is_Exception e = true) ->
  try_except_Exception body (fun _ => ret tt) s = (Ok tt, after (body s)).
Proof.
  unfold try_except_Exception, outcome, after.
  destruct (body s) as [[[]|e] s']; simpl; [done|].
  intros He. by rewrite (He e eq_refl).
Qed.

Lemma on_tracker_attempted {A} (m : M World A) env :
  attempted (after (on_tracker m env)) = attempted env
  /\ initial_model_path (after (on_tracker m env)) = initial_model_path env.
Proof. unfold on_tracker, after. by destruct (m (tracker env)). Qed.

Section WithCollaborators.
Context {constants : Constants}.
Variable fit : EmbeddingsModelInterface -> FineTuningParams -> M World unit.
Variable get_top_params : M World (option (list FineTuningParams)).
Variable get_last_model : M World EmbeddingsModelInterface.
Variable suggest : list (FineTuningParams * float) -> FineTuningParams.

Abbreviation one_step := (_finetune_embedding_model_one_step fit).
Abbreviation replay := (Sweep.replay fit).
Abbreviation trials_block := (Sweep.trials_block fit get_last_model suggest).
Abbreviation finetune_embedding_model :=
  (Sweep.finetune_embedding_model fit get_top_params get_last_model suggest).
Abbreviation hyperopt := (_finetune_embedding_model_one_step_hyperopt fit).
Abbreviation prepare := (Sweep.prepare get_last_model).
Abbreviation evaluations := (Sweep.evaluations suggest).

(** A trial is recorded as begun, whatever becomes of it. *)
Lemma one_step_attempted params env :
  attempted (after (one_step params env)) = (attempted env ++ [params])%list.
Proof.
  unfold _finetune_embedding_model_one_step, bind, begin_trial, modify,
    torch_load, after. simpl.
  destruct (initial_model_path env) as [model|]; simpl; [|done].
  unfold on_tracker. simpl.
  by destruct (fine_tune_embedding_model_one_param fit model params _).
Qed.

(** A trial that raises ends the loop: the exception leaves [replay]
    from the state the trial left, and no later trial is begun. *)
Lemma replay_stops params rest env e :
  outcome (one_step params env) = Raise e ->
  replay (params :: rest) env = (Raise e, after (one_step params env)).
Proof.
  unfold outcome, after. simpl. unfold bind.
  destruct (one_step params env) as [r env']. simpl. by intros ->.
Qed.

(** The trials begun are an initial part of the list, and all of it when
    the loop returns. *)
Lemma replay_attempted ps env :
  exists k, k <= length ps
            /\ attempted (after (replay ps env))
               = (attempted env ++ take k ps)%list
            /\ (outcome (replay ps env) = Ok tt -> k = length ps)
            /\ (forall e, outcome (replay ps env) = Raise e -> 0 < k).
Proof.
  revert env. induction ps as [|p ps IH]; intros env.
  - exists 0. simpl. rewrite app_nil_r. repeat split; done.
  - simpl. unfold bind.
    pose proof (one_step_attempted p env) as Hp.
    destruct (one_step p env) as [[q|e] env'] eqn:E; unfold after in Hp;
      simpl in Hp.
    + destruct (IH env') as (k & Hk & Hatt & Hok & Hraise).
      exists (S k). split; [simpl; lia|]. split.
      * rewrite Hatt, Hp, <- app_assoc. done.
      * split; [intros Ho; by rewrite (Hok Ho)|intros; lia].
    + exists 1. split; [simpl; lia|]. split.
      * unfold after. simpl. by rewrite take_0.
      * split; [done|intros; lia].
Qed.

Lemma fmin_stops (fn : FineTuningParams -> M Env float) m trials env e :
  outcome (fn (suggest trials) env) = Raise e ->
  fmin suggest fn (S m) trials env = (Raise e, after (fn (suggest trials) env)).
Proof.
  unfold outcome, after. simpl. unfold bind.
  destruct (fn (suggest trials) env) as [r env']. simpl. by intros ->.
Qed.

Lemma hyperopt_attempted params env :
  attempted (after (hyperopt params env)) = (attempted env ++ [params])%list.
Proof.
  pose proof (one_step_attempted params env) as Hp.
  unfold _finetune_embedding_model_one_step_hyperopt, bind, after in *.
  destruct (one_step params env) as [[q|e] env']; simpl in *; done.
Qed.

Lemma replay_cons p ps env :
  replay (p :: ps) env
  = match one_step p env with
    | (Ok _, env') => replay ps env'
    | (Raise e, env') => (Raise e, env')
    end.
Proof. simpl. unfold bind. by destruct (one_step p env) as [[?|?] ?]. Qed.

(** The loop over a list that begins with trials that all return goes on
    with the rest from where they left. *)
Lemma replay_app ps rest env :
  outcome (replay ps env) = Ok tt ->
  replay (ps ++ rest) env = replay rest (after (replay ps env)).
Proof.
  revert env. induction ps as [|p ps IH]; intros env; [done|].
  change ((p :: ps) ++ rest)%list with (p :: (ps ++ rest))%list.
  rewrite !replay_cons.
  destruct (one_step p env) as [[q|e] env']; [apply IH|done].
Qed.

Lemma replay_returns_attempted ps env :
  outcome (replay ps env) = Ok tt ->
  attempted (after (replay ps env)) = (attempted env ++ ps)%list.
Proof.
  intros Hok. destruct (replay_attempted ps env) as (k & _ & Hatt & Hk & _).
  rewrite Hatt, (Hk Hok). by rewrite firstn_all.
Qed.

Lemma prepare_attempted env :
  attempted (after (prepare env)) = attempted env.
Proof.
  unfold Sweep.prepare, bind, torch_save, modify, after.
  destruct (on_tracker_attempted get_last_model env) as [Ha _].
  unfold after in Ha. by destruct (on_tracker get_last_model env) as [[?|?] ?].
Qed.

Lemma trials_block_prepare best_params n env :
  trials_block best_params n env
  = match prepare env with
    | (Ok _, env') =>
        match best_params with
        | None | Some [] => fmin suggest hyperopt n [] env'
        | Some best_params => replay best_params env'
        end
    | (Raise e, env') => (Raise e, env')
    end.
Proof.
  unfold Sweep.trials_block, Sweep.prepare, bind, torch_save, modify.
  destruct (on_tracker get_last_model env) as [[?|?] ?]; [|done].
  by destruct best_params as [[|? ?]|].
Qed.

(** After [k] evaluations that return, [fmin] has the rest of its
    budget to go, from the state and with the trials they left. *)
Lemma fmin_evaluations (fn : FineTuningParams -> M Env float) k m trials env
  trials' :
  outcome (evaluations fn k trials env) = Ok trials' ->
  fmin suggest fn (k + m) trials env
  = fmin suggest fn m trials' (after (evaluations fn k trials env)).
Proof.
  revert trials env. induction k as [|k IH]; intros trials env; simpl.
  - unfold ret, outcome. simpl. by intros [= <-].
  - unfold bind.
    destruct (fn (suggest trials) env) as [[loss|e] env']; [apply IH|done].
Qed.

Lemma evaluations_attempted k trials env trials' :
  outcome (evaluations hyperopt k trials env) = Ok trials' ->
  exists new,
    trials' = (trials ++ new)%list
    /\ attempted (after (evaluations hyperopt k trials env))
       = (attempted env ++ map fst new)%list.
Proof.
  revert trials env. induction k as [|k IH]; intros trials env; simpl.
  - unfold ret, outcome, after. simpl. intros [= <-].
    exists []. by rewrite !app_nil_r.
  - unfold bind.
    pose proof (hyperopt_attempted (suggest trials) env) as Hp.
    destruct (hyperopt (suggest trials) env) as [[loss|e] env']; [|done].
    unfold after in Hp. simpl in Hp.
    intros (new & -> & Hatt)%IH.
    exists ((suggest trials, loss) :: new).
    split; [by rewrite <- app_assoc|].
    rewrite Hatt, Hp, <- app_assoc. done.
Qed.

#[local] Arguments Sweep.replay : simpl never.

(** C9, as the code has it.  With the configurations read and the
    session entered, an exception deriving from [Exception] that leaves
    the block of trials is swallowed: [finetune_embedding_model] returns,
    the initial-model file is gone, and [finish_session] has run on what
    the trials left.  The sweep does not go on to the next trial.  Of
    the configurations to replay an initial part is begun, all of it only
    when the loop returns; when the trials before one have returned and
    that one raises, the sweep has begun those and that one and no
    other, and ends on the state the failed trial left, with the session
    finished.  The same holds of the search: when [k] evaluations have
    returned and the next raises, the sweep has begun those [k + 1]
    trials and no other, whatever budget was left. *)
Theorem sweep_swallows_and_stops session n env best_params :
  outcome (on_tracker get_top_params env) = Ok best_params ->
  let env0 :=
    after (on_tracker (set_session session)
             (after (on_tracker get_top_params env))) in
  let env1 := mkEnv (tracker env0) None (attempted env0) in
  (forall e, outcome (trials_block best_params n env1) = Raise e ->
             is_Exception e = true) ->
  let r := finetune_embedding_model session n env in
  outcome r = Ok tt
  /\ initial_model_path (after r) = None
  /\ tracker (after r)
     = enter SessionInitial INITIAL_EXPERIMENT_NAME
         (tracker (after (trials_block best_params n env1)))
  /\ attempted (after r) = attempted (after (trials_block best_params n env1))
  /\ (forall p ps, best_params = Some (p :: ps) ->
        exists k, k <= length (p :: ps)
          /\ attempted (after r) = (attempted env ++ take k (p :: ps))%list
          /\ (k < length (p :: ps) ->
              exists e, outcome (trials_block best_params n env1) = Raise e))
  /\ (forall ps p rest e,
        best_params = Some (ps ++ p :: rest)%list ->
        outcome (prepare env1) = Ok tt ->
        let env2 := after (replay ps (after (prepare env1))) in
        outcome (replay ps (after (prepare env1))) = Ok tt ->
        outcome (one_step p env2) = Raise e ->
        attempted (after r) = (attempted env ++ ps ++ [p])%list
        /\ tracker (after r)
           = enter SessionInitial INITIAL_EXPERIMENT_NAME
               (tracker (after (one_step p env2))))
  /\ (forall k m trials e,
        best_params = None \/ best_params = Some [] ->
        n = k + S m ->
        outcome (prepare env1) = Ok tt ->
        let env2 := after (evaluations hyperopt k [] (after (prepare env1))) in
        outcome (evaluations hyperopt k [] (after (prepare env1))) = Ok trials ->
        outcome (hyperopt (suggest trials) env2) = Raise e ->
        attempted (after r)
        = (attempted env ++ map fst trials ++ [suggest trials])%list
        /\ tracker (after r)
           = enter SessionInitial INITIAL_EXPERIMENT_NAME
               (tracker (after (hyperopt (suggest trials) env2))))
  /\ (forall p ps env' e, outcome (one_step p env') = Raise e ->
        replay (p :: ps) env' = (Raise e, after (one_step p env')))
  /\ (forall fn m trials env' e,
        outcome (fn (suggest trials) env') = Raise e ->
        fmin suggest fn (S m) trials env'
        = (Raise e, after (fn (suggest trials) env'))).
Proof.
  intros Htop env0 env1 Hexc r.
  set (block := trials_block best_params n env1) in *.
  assert (Er : r = (Ok tt, mkEnv
                     (enter SessionInitial INITIAL_EXPERIMENT_NAME
                        (tracker (after block)))
                     None (attempted (after block)))).
  { unfold r, Sweep.finetune_embedding_model. unfold bind at 1.
    unfold outcome in Htop.
    destruct (on_tracker get_top_params env) as [rt envt] eqn:E0.
    simpl in Htop. subst rt. unfold bind at 1.
    assert (E1 : on_tracker (set_session session) envt = (Ok tt, env0)).
    { unfold env0, after. simpl. unfold on_tracker.
      rewrite TrackerSpec.set_session_enter. done. }
    rewrite E1. unfold bind at 1.
    unfold with_TemporaryDirectory. fold env1. unfold bind at 1.
    rewrite (try_except_swallows _ env1 Hexc). fold block.
    unfold bind, os_path_exists, os_remove, on_tracker.
    destruct (after block) as [w2 f2 a2]. simpl.
    destruct f2; simpl; rewrite TrackerSpec.finish_session_enter; done. }
  assert (Hatt1 : attempted env1 = attempted env).
  { unfold env1, env0. simpl.
    destruct (on_tracker_attempted (set_session session)
                (after (on_tracker get_top_params env))) as [-> _].
    by destruct (on_tracker_attempted get_top_params env) as [-> _]. }
  assert (Hreplay : forall ps p rest e,
            best_params = Some (ps ++ p :: rest)%list ->
            outcome (prepare env1) = Ok tt ->
            let env2 := after (replay ps (after (prepare env1))) in
            outcome (replay ps (after (prepare env1))) = Ok tt ->
            outcome (one_step p env2) = Raise e ->
            attempted (after r) = (attempted env ++ ps ++ [p])%list
            /\ tracker (after r)
               = enter SessionInitial INITIAL_EXPERIMENT_NAME
                   (tracker (after (one_step p env2)))).
  { intros ps p rest e Hbest Hprep env2 Hps Hfail.
    assert (Eb : block = (Raise e, after (one_step p env2))).
    { unfold block. rewrite trials_block_prepare, Hbest.
      pose proof (replay_app ps (p :: rest) (after (prepare env1)) Hps) as Happ.
      fold env2 in Happ. rewrite replay_cons in Happ.
      unfold outcome, after in *.
      destruct (prepare env1) as [[[]|?] env'] eqn:Ep; simpl in Hprep; [|done].
      simpl in *.
      assert (Ecase : match (ps ++ p :: rest)%list with
                      | [] => fmin suggest hyperopt n [] env'
                      | _ :: _ => Sweep.replay fit (ps ++ p :: rest) env'
                      end = Sweep.replay fit (ps ++ p :: rest) env')
        by (by destruct ps).
      rewrite Ecase, Happ.
      destruct (one_step p env2) as [ro envo]. simpl in Hfail. by subst ro. }
    rewrite Er, Eb. unfold after. simpl.
    split; [|done].
    pose proof (one_step_attempted p env2) as Hp. unfold after in Hp.
    rewrite Hp. unfold env2.
    rewrite (replay_returns_attempted _ _ Hps), prepare_attempted, Hatt1.
    by rewrite <- app_assoc. }
  assert (Hsearch : forall k m trials e,
            best_params = None \/ best_params = Some [] ->
            n = k + S m ->
            outcome (prepare env1) = Ok tt ->
            let env2 :=
              after (evaluations hyperopt k [] (after (prepare env1))) in
            outcome (evaluations hyperopt k [] (after (prepare env1)))
            = Ok trials ->
            outcome (hyperopt (suggest trials) env2) = Raise e ->
            attempted (after r)
            = (attempted env ++ map fst trials ++ [suggest trials])%list
            /\ tracker (after r)
               = enter SessionInitial INITIAL_EXPERIMENT_NAME
                   (tracker (after (hyperopt (suggest trials) env2)))).
  { intros k m trials e Hbest Hn Hprep env2 Hk Hfail.
    assert (Eb : block = (Raise e, after (hyperopt (suggest trials) env2))).
    { unfold block. rewrite trials_block_prepare.
      pose proof (fmin_evaluations hyperopt k (S m) [] (after (prepare env1))
                    trials Hk) as Hf.
      fold env2 in Hf. rewrite <- Hn in Hf.
      rewrite (fmin_stops hyperopt m trials env2 e Hfail) in Hf.
      unfold outcome, after in *.
      destruct (prepare env1) as [[[]|?] env'] eqn:Ep; simpl in Hprep; [|done].
      simpl in *. by destruct Hbest as [->| ->]. }
    rewrite Er, Eb. unfold after. simpl.
    split; [|done].
    pose proof (hyperopt_attempted (suggest trials) env2) as Hp.
    unfold after in Hp. rewrite Hp. unfold env2.
    destruct (evaluations_attempted k [] (after (prepare env1)) trials Hk)
      as (new & Hnew & Hatt).
    simpl in Hnew. subst new.
    rewrite Hatt, prepare_attempted, Hatt1.
    by rewrite <- app_assoc. }
  revert Hreplay Hsearch. rewrite Er. unfold outcome, after. simpl.
  intros Hreplay Hsearch.
  do 4 (split; [done|]).
  split; [|split; [exact Hreplay|split; [exact Hsearch|
    split; [intros; by apply replay_stops|intros; by apply fmin_stops]]]].
  intros p ps ->.
  unfold block, Sweep.trials_block, bind, torch_save, modify, after, outcome.
  destruct (on_tracker_attempted get_last_model env1) as [Ha _].
  unfold after in Ha.
  destruct (on_tracker get_last_model env1) as [[model|e] env2]; simpl in *.
  - destruct (replay_attempted (p :: ps)
                (mkEnv (tracker env2) (Some model) (attempted env2)))
      as (k & Hk & Hatt & Hok & _).
    unfold after, outcome in *. simpl in Hatt.
    exists k. split; [done|]. split; [by rewrite Hatt, Ha, Hatt1|].
    intros Hlt.
    destruct (Sweep.replay fit (p :: ps) _) as [[[]|e] env3]; simpl in *.
    + specialize (Hok eq_refl). lia.
    + by exists e.
  - exists 0. split; [lia|]. rewrite take_0, app_nil_r.
    split; [by rewrite Ha, Hatt1|]. intros _. by exists e.
Qed.

End WithCollaborators.

Lemma sweep_swallows_and_stops_witness :
  outcome Examples.flaky_sweep = Ok tt
  /\ initial_model_path (after Examples.flaky_sweep) = None
  /\ attempted (after Examples.flaky_sweep) = [Examples.params_of "a"].
Proof.
  assert (Htop : outcome (on_tracker Examples.top_two Examples.sweep_env)
                 = Ok (Some [Examples.params_of "a"; Examples.params_of "b"]))
    by reflexivity.
  destruct (sweep_swallows_and_stops (constants := Examples.constants)
              Examples.flaky_fit Examples.top_two Examples.last_model
              Examples.suggest_fixed Examples.session1 100 Examples.sweep_env
              _ Htop) as (H1 & H2 & _ & _ & _ & Hstop & _).
  - intros e. vm_compute. intros [= <-]. reflexivity.
  - split; [exact H1|]. split; [exact H2|].
    refine (proj1 (Hstop [] (Examples.params_of "a") [Examples.params_of "b"]
                     (RuntimeError "CUDA out of memory") eq_refl _ _ _)).
    + vm_compute. reflexivity.
    + vm_compute. reflexivity.
    + vm_compute. reflexivity.
Defined.

(** C9, as the claim has it, fails.  Two configurations are to be
    replayed and the training of the first raises: the exception is
    swallowed and the sweep returns, but the second configuration is
    never begun, and the failed run is left active on the reserved
    initial session. *)
Lemma failed_trial_ends_sweep :
  outcome Examples.flaky_sweep = Ok tt
  /\ attempted (after Examples.flaky_sweep) = [Examples.params_of "a"]
  /\ (Examples.params_of "b" ∉ attempted (after Examples.flaky_sweep))
  /\ _run_id (mgr (tracker (after Examples.flaky_sweep))) = Some "run-2"
  /\ _tuning_session (mgr (tracker (after Examples.flaky_sweep)))
     = SessionInitial.
Proof.
  split; [vm_compute; reflexivity|].
  split; [vm_compute; reflexivity|].
  split; [|split; vm_compute; reflexivity].
  assert (E : attempted (after Examples.flaky_sweep) = [Examples.params_of "a"])
    by (vm_compute; reflexivity).
  rewrite E. intros Hin%list_elem_of_singleton. discriminate Hin.
Qed.

End SweepSpec.

(** * Further properties *)

(** ** SessionFeatures: how the operations compose and fail *)

Module FeaturesMore.
Import Features FeaturesSpec.

Section WithScalar.
Context {F : Type} `{Scalar F}.
Implicit Types (s other : SessionFeatures F) (v : value F) (t : list F).

Lemma full_valid_lengths (pr nr tg pc nc : list F) :
  valid (mkSessionFeatures (VTensor pr) (VTensor nr) (VTensor tg)
           (VTensor pc) (VTensor nc)) ->
  length nr = length pr /\ length tg = length pr
  /\ length pc = length pr /\ length nc = length pr.
Proof.
  intros [_ Hs].
  repeat split; apply Hs; unfold fields; simpl; rewrite !elem_of_cons; tauto.
Qed.

(** X1.  Accumulating, into an empty [SessionFeatures()], a list of valid
    objects that hold all five fields returns and leaves in each field the
    fields of the list appended in order; with nothing to accumulate the
    object stays empty. *)
Theorem iadd_each_concatenates (others : list (SessionFeatures F)) :
  Forall (fun o => full o /\ valid o) others ->
  iadd_each others (mkSessionFeatures VNone VNone VNone VNone VNone)
  = (Ok tt,
     match others with
     | [] => mkSessionFeatures VNone VNone VNone VNone VNone
     | _ :: _ =>
         mkSessionFeatures
           (VTensor (concat (map (fun o => tensor_of (_positive_ranks o)) others)))
           (VTensor (concat (map (fun o => tensor_of (_negative_ranks o)) others)))
           (VTensor (concat (map (fun o => tensor_of (_target o)) others)))
           (VTensor (concat (map (fun o => tensor_of (_positive_confidences o)) others)))
           (VTensor (concat (map (fun o => tensor_of (_negative_confidences o)) others)))
     end).
Proof.
  intros Hall. destruct others as [|o rest]; [done|].
  apply Forall_cons in Hall as [[Hfull Hvalid] Hrest].
  simpl iadd_each. unfold bind.
  rewrite (iadd_into_empty o Hvalid).
  destruct Hfull as (a1 & a2 & a3 & a4 & a5 & ->). simpl.
  revert a1 a2 a3 a4 a5 Hvalid.
  induction rest as [|o' rest IH]; intros a1 a2 a3 a4 a5 Hvalid.
  - simpl. by rewrite !app_nil_r.
  - apply Forall_cons in Hrest as [[Hfull' Hvalid'] Hrest].
    destruct Hfull' as (b1 & b2 & b3 & b4 & b5 & ->).
    simpl iadd_each. unfold bind.
    rewrite (iadd_all_present _ _ _ _ _ _ _ _ _ _ Hvalid Hvalid').
    rewrite IH; [simpl; by rewrite !app_assoc|done|].
    destruct (full_valid_lengths _ _ _ _ _ Hvalid) as (? & ? & ? & ?).
    destruct (full_valid_lengths _ _ _ _ _ Hvalid') as (? & ? & ? & ?).
    apply valid_five; rewrite !length_app; lia.
Qed.

(** X2.  On valid objects holding all five fields, accumulation is
    associative: adding [B] and then [C] to [A] leaves in [A] what adding
    to [A] the object [B] that [C] was added to leaves. *)
Theorem iadd_associative (A B C : SessionFeatures F) :
  full A /\ valid A -> full B /\ valid B -> full C /\ valid C ->
  outcome (__iadd__ C B) = Ok tt
  /\ (let! _ := __iadd__ B in __iadd__ C) A
     = __iadd__ (after (__iadd__ C B)) A
  /\ outcome (__iadd__ (after (__iadd__ C B)) A) = Ok tt.
Proof.
  intros [(a1 & a2 & a3 & a4 & a5 & ->) HA] [(b1 & b2 & b3 & b4 & b5 & ->) HB]
         [(c1 & c2 & c3 & c4 & c5 & ->) HC].
  destruct (full_valid_lengths _ _ _ _ _ HA) as (? & ? & ? & ?).
  destruct (full_valid_lengths _ _ _ _ _ HB) as (? & ? & ? & ?).
  destruct (full_valid_lengths _ _ _ _ _ HC) as (? & ? & ? & ?).
  assert (HAB : valid (mkSessionFeatures (VTensor (a1 ++ b1)) (VTensor (a2 ++ b2))
                         (VTensor (a3 ++ b3)) (VTensor (a4 ++ b4))
                         (VTensor (a5 ++ b5))))
    by (apply valid_five; rewrite !length_app; lia).
  assert (HBC : valid (mkSessionFeatures (VTensor (b1 ++ c1)) (VTensor (b2 ++ c2))
                         (VTensor (b3 ++ c3)) (VTensor (b4 ++ c4))
                         (VTensor (b5 ++ c5))))
    by (apply valid_five; rewrite !length_app; lia).
  unfold bind.
  rewrite (iadd_all_present _ _ _ _ _ _ _ _ _ _ HB HC).
  rewrite (iadd_all_present _ _ _ _ _ _ _ _ _ _ HA HB).
  rewrite (iadd_all_present _ _ _ _ _ _ _ _ _ _ HAB HC).
  unfold after at 1 2. unfold snd.
  rewrite (iadd_all_present _ _ _ _ _ _ _ _ _ _ HA HBC).
  unfold outcome. simpl. by rewrite !app_assoc.
Qed.

(** X3.  A mutating method that returns leaves a valid object.
    [__iadd__] and [use_positive_from] end with both checks, so this
    holds whatever they started from.  [clamp_diff_in] ends with the
    length check only: on an object whose fields are tensors or [None]
    it leaves a valid object, unless it left the object untouched (a
    rank field being absent, it checks nothing). *)
Theorem mutators_return_valid (min max : F) s other :
  match outcome (__iadd__ other s) with
  | Ok _ => valid (after (__iadd__ other s))
  | Raise _ => True
  end
  /\ match outcome (use_positive_from other s) with
     | Ok _ => valid (after (use_positive_from other s))
     | Raise _ => True
     end
  /\ (well_typed s ->
      match outcome (clamp_diff_in min max s) with
      | Ok _ => valid (after (clamp_diff_in min max s))
                \/ after (clamp_diff_in min max s) = s
      | Raise _ => True
      end).
Proof.
  assert (Hre : forall s0, match outcome (recheck s0) with
                           | Ok _ => valid (after (recheck s0))
                           | Raise _ => True
                           end).
  { intros s0. destruct (recheck_checked s0) as [Ea Hc].
    destruct (recheck s0) as [[[]|e] s1]; unfold after, outcome in *;
      simpl in *; [by subst|done]. }
  split; [|split].
  - unfold __iadd__, bind, get, lift, modify.
    repeat (match goal with
            | |- context [_accumulate ?a ?b] =>
                destruct (_accumulate a b) as [?|?]; [|done]
            end).
    apply Hre.
  - unfold use_positive_from, bind, get, lift, modify, ret.
    destruct (_check_types other) as [[]|?]; [|done].
    destruct (_check_lengths other) as [[]|?]; [|done].
    destruct (shape0 (_negative_ranks s)) as [n_self|?]; [|done].
    destruct (shape0 (_positive_ranks other)) as [n_other|?]; [|done].
    destruct (n_self <? n_other)%nat.
    + destruct (slice_to _ _) as [?|?]; [|done]. apply Hre.
    + destruct (n_other <? n_self)%nat; [|apply Hre].
      repeat (match goal with
              | |- context [slice_to ?a ?b] =>
                  destruct (slice_to a b) as [?|?]; [|done]
              end).
      apply Hre.
  - intros Hwt.
    assert (Hf : forall v, v ∈ fields s -> is_tensor_or_None v).
    { intros v Hv. unfold well_typed in Hwt. rewrite Forall_forall in Hwt.
      by apply Hwt. }
    unfold fields in Hf.
    unfold clamp_diff_in, bind, get, lift, modify, ret.
    destruct (is_not_None (_positive_ranks s) && is_not_None (_negative_ranks s));
      [|by right].
    destruct (tensor_sub _ _) as [d|?]; [|done]. cbv beta iota.
    set (examples := zip_with andb _ _).
    destruct (getitem_mask (_positive_ranks s) examples) as [v1|?] eqn:E1; [|done].
    cbv beta iota. simpl.
    destruct (getitem_mask (_negative_ranks s) examples) as [v2|?] eqn:E2; [|done].
    cbv beta iota. simpl.
    destruct (getitem_mask (_target s) examples) as [v3|?] eqn:E3; [|done].
    cbv beta iota. simpl.
    destruct (getitem_mask (_positive_confidences s) examples) as [v4|?] eqn:E4;
      [|done].
    cbv beta iota. simpl.
    destruct (getitem_mask (_negative_confidences s) examples) as [v5|?] eqn:E5;
      [|done].
    cbv beta iota. simpl.
    set (s' := assign_negative_confidences _ _).
    assert (Hty : well_typed s').
    { assert (Hg : forall v e w, is_tensor_or_None v ->
                                 getitem_mask v e = Ok w -> is_tensor_or_None w).
      { intros v e w [->|[t ->]]; simpl; [done|].
        destruct (decide _); [|done]. intros [= <-]. right. eauto. }
      unfold well_typed, fields, s'. simpl.
      repeat (apply Forall_cons;
              split; [eapply Hg; [|eassumption]; apply Hf;
                      rewrite !elem_of_cons; tauto|]).
      constructor. }
    destruct (check_lengths_cases s' Hty) as [[-> Hs]|(m & -> & _)]; [|done].
    by left.
Qed.

(** X4.  [use_positive_from] raises, and leaves [self] as it was, when
    [other] is not valid (its checks come first), and, [other] being
    valid, when [self] has no negative ranks or [other] no positive ranks
    (an [AttributeError], from reading [.shape] of [None]). *)
Theorem use_positive_from_rejects s other :
  (~ valid other ->
   (raises (outcome (use_positive_from other s)) is_TypeError
    \/ raises (outcome (use_positive_from other s)) is_ValueError)
   /\ after (use_positive_from other s) = s)
  /\ (valid other ->
      _negative_ranks s = VNone \/ _positive_ranks other = VNone ->
      raises (outcome (use_positive_from other s))
        (fun e => match e with AttributeError _ => true | _ => false end)
      /\ after (use_positive_from other s) = s).
Proof.
  split.
  - intros Hinv.
    unfold use_positive_from, bind, lift, outcome, after.
    destruct (check_types_cases other) as [[-> Hty]|(m & -> & _)]; simpl;
      [|by split; [left|]].
    destruct (check_lengths_cases other Hty) as [[_ Hs]|(m & -> & _)]; simpl;
      [|by split; [right|]].
    destruct Hinv. by split.
  - intros [Hty Hs] Habsent.
    unfold use_positive_from, bind, lift, get, outcome, after.
    rewrite (check_types_valid other Hty). simpl.
    rewrite (check_lengths_valid other (conj Hty Hs)). simpl.
    destruct Habsent as [-> | Hop]; simpl; [done|].
    rewrite Hop.
    destruct (_negative_ranks s) as [|t|o]; simpl; done.
Qed.

Lemma valid_cleared s (f : value F -> SessionFeatures F -> SessionFeatures F) :
  (forall v, v ∈ fields (f VNone s) -> v = VNone \/ v ∈ fields s) ->
  valid s -> valid (f VNone s).
Proof.
  intros Hsub [Hty Hs]. split.
  - unfold well_typed in *. rewrite Forall_forall in *.
    intros v [->|Hv]%Hsub; [by left|by apply Hty].
  - intros t1 t2 [?|H1]%Hsub [?|H2]%Hsub; try done. by apply Hs.
Qed.

(** X5.  Clearing a field never fails: assigning [None] to any field of
    a valid object returns and leaves a valid object. *)
Theorem clearing_a_field_returns s :
  valid s ->
  (outcome (set_positive_ranks VNone s) = Ok tt
   /\ valid (after (set_positive_ranks VNone s)))
  /\ (outcome (set_negative_ranks VNone s) = Ok tt
      /\ valid (after (set_negative_ranks VNone s)))
  /\ (outcome (set_target VNone s) = Ok tt
      /\ valid (after (set_target VNone s)))
  /\ (outcome (set_positive_confidences VNone s) = Ok tt
      /\ valid (after (set_positive_confidences VNone s)))
  /\ (outcome (set_negative_confidences VNone s) = Ok tt
      /\ valid (after (set_negative_confidences VNone s))).
Proof.
  intros Hv.
  assert (Hset : forall f : value F -> SessionFeatures F -> SessionFeatures F,
            valid (f VNone s) ->
            outcome ((let! _ := modify (f VNone) in recheck) s) = Ok tt
            /\ valid (after ((let! _ := modify (f VNone) in recheck) s))).
  { intros f Hf. unfold bind, modify. rewrite (recheck_valid _ Hf). done. }
  repeat split;
    first [ apply (Hset assign_positive_ranks)
          | apply (Hset assign_negative_ranks)
          | apply (Hset assign_target)
          | apply (Hset assign_positive_confidences)
          | apply (Hset assign_negative_confidences) ];
    (apply valid_cleared; [|done]);
    intros v; destruct s; unfold fields; simpl;
    rewrite !elem_of_cons; tauto.
Qed.

(** The mask of two ranges together. *)
Lemma masked_twice (min1 max1 min2 max2 : F) (pr nr : list F) t :
  length nr = length pr -> length t = length pr ->
  masked (zip_with (in_range min2 max2)
            (masked (zip_with (in_range min1 max1) pr nr) pr)
            (masked (zip_with (in_range min1 max1) pr nr) nr))
         (masked (zip_with (in_range min1 max1) pr nr) t)
  = masked (zip_with (fun p n => in_range min1 max1 p n
                                 && in_range min2 max2 p n) pr nr) t.
Proof.
  revert nr t. induction pr as [|p pr IH]; intros [|n nr] [|x t] Hn Ht;
    simpl in *; try done.
  destruct (in_range min1 max1 p n); simpl.
  - destruct (in_range min2 max2 p n); simpl; [f_equal|]; apply IH; lia.
  - apply IH; lia.
Qed.

(** X6.  Two clamps compose to one pass: on five tensors of one length,
    [clamp_diff_in min1 max1] followed by [clamp_diff_in min2 max2]
    returns and keeps the elements at the positions whose difference lies
    in both ranges, and so does the other order. *)
Theorem clamp_diff_in_commutes (min1 max1 min2 max2 : F)
  (pr nr tg pc nc : list F) :
  length nr = length pr -> length tg = length pr ->
  length pc = length pr -> length nc = length pr ->
  let s := mkSessionFeatures (VTensor pr) (VTensor nr) (VTensor tg)
             (VTensor pc) (VTensor nc) in
  let both := zip_with (fun p n => in_range min1 max1 p n
                                   && in_range min2 max2 p n) pr nr in
  let s' := mkSessionFeatures (VTensor (masked both pr))
              (VTensor (masked both nr)) (VTensor (masked both tg))
              (VTensor (masked both pc)) (VTensor (masked both nc)) in
  (let! _ := clamp_diff_in min1 max1 in clamp_diff_in min2 max2) s = (Ok tt, s')
  /\ (let! _ := clamp_diff_in min2 max2 in clamp_diff_in min1 max1) s
     = (Ok tt, s').
Proof.
  intros Hn Ht Hp Hc s both s'.
  assert (Hlen : forall (a b : F) (t : list F), length t = length pr ->
            length (masked (zip_with (in_range a b) pr nr) t)
            = length (masked (zip_with (in_range a b) pr nr) pr)).
  { intros a b t Hl. rewrite !length_masked; [done| |];
      rewrite length_zip_with; lia. }
  assert (Hswap : both = zip_with (fun p n => in_range min2 max2 p n
                                              && in_range min1 max1 p n) pr nr).
  { unfold both. clear. revert nr.
    induction pr as [|p pr IH]; intros [|n nr]; simpl; try done.
    by rewrite IH, andb_comm. }
  split; unfold bind, s.
  - rewrite clamp_diff_in_masked by done. cbv beta iota.
    rewrite clamp_diff_in_masked by (by apply Hlen).
    rewrite !masked_twice by done. done.
  - rewrite clamp_diff_in_masked by done. cbv beta iota.
    rewrite clamp_diff_in_masked by (by apply Hlen).
    rewrite !masked_twice by done. unfold s'. by rewrite Hswap.
Qed.

(** X7.  When [self] has at least as many negatives as [other] has
    positives, [use_positive_from] returns and leaves a valid object in
    which every field has the number of [other]'s positives: [self]'s
    negative ranks, target and negative confidences cut to that number,
    and [other]'s positive ranks both as positive ranks and as positive
    confidences. *)
Theorem use_positive_from_borrows (other : SessionFeatures F)
  (a c : value F) (sn st sc op : list F) :
  valid other -> _positive_ranks other = VTensor op ->
  length st = length sn -> length sc = length sn ->
  length op <= length sn ->
  let r := use_positive_from other
             (mkSessionFeatures a (VTensor sn) (VTensor st) c (VTensor sc)) in
  outcome r = Ok tt
  /\ valid (after r)
  /\ _positive_ranks (after r) = VTensor op
  /\ _positive_confidences (after r) = VTensor op
  /\ _negative_ranks (after r) = VTensor (take (length op) sn)
  /\ _target (after r) = VTensor (take (length op) st)
  /\ _negative_confidences (after r) = VTensor (take (length op) sc)
  /\ Forall (fun v => length (tensor_of v) = length op) (fields (after r)).
Proof.
  intros Hv Hop Ht Hc Hle r. unfold r.
  rewrite (use_positive_from_longer_self other a c sn st sc op Hv Hop Ht Hc Hle).
  unfold outcome, after. simpl.
  split; [done|]. split; [apply valid_five; rewrite ?length_take; lia|].
  do 5 (split; [done|]).
  unfold fields. simpl.
  repeat (apply Forall_cons; split; [simpl; rewrite ?length_take; lia|]).
  constructor.
Qed.

End WithScalar.

Lemma iadd_each_concatenates_witness :
  iadd_each
    [mkSessionFeatures (VTensor [1]%Q) (VTensor [2]%Q) (VTensor [1]%Q)
       (VTensor [3]%Q) (VTensor [4]%Q);
     mkSessionFeatures (VTensor [5; 6]%Q) (VTensor [7; 8]%Q) (VTensor [1; 1]%Q)
       (VTensor [9; 9]%Q) (VTensor [0; 0]%Q)]
    (mkSessionFeatures VNone VNone VNone VNone VNone)
  = (Ok tt,
     mkSessionFeatures (VTensor [1; 5; 6]%Q) (VTensor [2; 7; 8]%Q)
       (VTensor [1; 1; 1]%Q) (VTensor [3; 9; 9]%Q) (VTensor [4; 0; 0]%Q)).
Proof.
  apply (iadd_each_concatenates
           [mkSessionFeatures (VTensor [1]%Q) (VTensor [2]%Q) (VTensor [1]%Q)
              (VTensor [3]%Q) (VTensor [4]%Q);
            mkSessionFeatures (VTensor [5; 6]%Q) (VTensor [7; 8]%Q)
              (VTensor [1; 1]%Q) (VTensor [9; 9]%Q) (VTensor [0; 0]%Q)]).
  repeat (apply Forall_cons; split;
          [split; [unfold full; eauto 10|by apply valid_five]|]).
  constructor.
Defined.

Lemma iadd_associative_witness :
  let A : SessionFeatures Q :=
    mkSessionFeatures (VTensor [1]%Q) (VTensor [2]%Q) (VTensor [1]%Q)
      (VTensor [3]%Q) (VTensor [4]%Q) in
  let B : SessionFeatures Q :=
    mkSessionFeatures (VTensor [5; 6]%Q) (VTensor [7; 8]%Q) (VTensor [1; 1]%Q)
      (VTensor [9; 9]%Q) (VTensor [0; 0]%Q) in
  (let! _ := __iadd__ B in __iadd__ A) A = __iadd__ (after (__iadd__ A B)) A.
Proof.
  intros A B.
  assert (HA : full A /\ valid A)
    by (split; [unfold full, A; eauto 10|by apply valid_five]).
  assert (HB : full B /\ valid B)
    by (split; [unfold full, B; eauto 10|by apply valid_five]).
  destruct (iadd_associative A B A HA HB HA) as (_ & E & _).
  exact E.
Defined.

Lemma mutators_return_valid_witness :
  let s : SessionFeatures Q :=
    mkSessionFeatures (VTensor [1; 5; 3]%Q) (VTensor [2; 2; 2]%Q)
      (VTensor [1; 1; 1]%Q) (VTensor [7; 8; 9]%Q) (VTensor [4; 5; 6]%Q) in
  outcome (clamp_diff_in 0%Q 2%Q s) = Ok tt
  /\ valid (after (clamp_diff_in 0%Q 2%Q s)).
Proof.
  intros s.
  assert (Hwt : well_typed s).
  { unfold well_typed, fields; simpl.
    repeat (apply Forall_cons; split; [right; eauto|]). constructor. }
  pose proof (proj2 (proj2 (mutators_return_valid 0%Q 2%Q s s)) Hwt) as Hc.
  assert (Eo : outcome (clamp_diff_in 0%Q 2%Q s) = Ok tt)
    by (vm_compute; reflexivity).
  rewrite Eo in Hc. split; [exact Eo|].
  destruct Hc as [Hv|Hsame]; [exact Hv|].
  exfalso. revert Hsame. vm_compute. discriminate.
Defined.

Lemma use_positive_from_rejects_witness :
  let empty : SessionFeatures Q :=
    mkSessionFeatures VNone VNone VNone VNone VNone in
  let broken : SessionFeatures Q :=
    mkSessionFeatures (VTensor [1]%Q) (VTensor [1; 2]%Q) VNone VNone VNone in
  after (use_positive_from broken empty) = empty
  /\ after (use_positive_from empty empty) = empty.
Proof.
  intros empty broken.
  destruct (use_positive_from_rejects empty broken) as [Hinv _].
  destruct (use_positive_from_rejects empty empty) as [_ Habs].
  split.
  - apply Hinv. intros [_ Hs].
    specialize (Hs [1]%Q [1; 2]%Q). simpl in Hs.
    assert (1 = 2) as Habsurd; [|lia].
    apply Hs; unfold fields; simpl; rewrite !elem_of_cons; tauto.
  - apply Habs; [|by left].
    split.
    + unfold well_typed, fields; simpl.
      repeat (apply Forall_cons; split; [by left|]). constructor.
    + intros t1 t2. unfold fields; simpl. rewrite !elem_of_cons, !elem_of_nil.
      intros [E|[E|[E|[E|[E|[]]]]]]; discriminate E.
Defined.

Lemma clearing_a_field_returns_witness :
  outcome (set_target VNone
             (mkSessionFeatures (VTensor [1; 5]%Q) (VTensor [2; 2]%Q)
                (VTensor [1; 1]%Q) VNone VNone))
  = Ok tt.
Proof.
  destruct (clearing_a_field_returns
              (mkSessionFeatures (VTensor [1; 5]%Q) (VTensor [2; 2]%Q)
                 (VTensor [1; 1]%Q) VNone VNone)) as (_ & _ & [E _] & _).
  - split.
    + unfold well_typed, fields; simpl.
      repeat (apply Forall_cons; split; [first [by left|right; eauto]|]).
      constructor.
    + intros t1 t2. unfold fields; simpl. rewrite !elem_of_cons, !elem_of_nil.
      intros [E1|[E1|[E1|[E1|[E1|[]]]]]] [E2|[E2|[E2|[E2|[E2|[]]]]]];
        try discriminate; injection E1 as ->; injection E2 as ->; reflexivity.
  - exact E.
Defined.

Lemma clamp_diff_in_commutes_witness :
  let s : SessionFeatures Q :=
    mkSessionFeatures (VTensor [1; 5; 3]%Q) (VTensor [2; 2; 2]%Q)
      (VTensor [1; 1; 1]%Q) (VTensor [7; 8; 9]%Q) (VTensor [4; 5; 6]%Q) in
  (let! _ := clamp_diff_in 0%Q 2%Q in clamp_diff_in (1 # 2)%Q 4%Q) s
  = (let! _ := clamp_diff_in (1 # 2)%Q 4%Q in clamp_diff_in 0%Q 2%Q) s.
Proof.
  intros s.
  destruct (clamp_diff_in_commutes 0%Q 2%Q (1 # 2)%Q 4%Q
              [1; 5; 3]%Q [2; 2; 2]%Q [1; 1; 1]%Q [7; 8; 9]%Q [4; 5; 6]%Q
              eq_refl eq_refl eq_refl eq_refl) as [E1 E2].
  exact (eq_trans E1 (eq_sym E2)).
Defined.

Lemma use_positive_from_borrows_witness :
  let other : SessionFeatures Q :=
    mkSessionFeatures (VTensor [8]%Q) (VTensor [1]%Q) (VTensor [1]%Q)
      (VTensor [1]%Q) (VTensor [1]%Q) in
  let self : SessionFeatures Q :=
    mkSessionFeatures VNone (VTensor [1; 2]%Q) (VTensor [1; 1]%Q) VNone
      (VTensor [3; 4]%Q) in
  use_positive_from other self
  = (Ok tt,
     mkSessionFeatures (VTensor [8]%Q) (VTensor [1]%Q) (VTensor [1]%Q)
       (VTensor [8]%Q) (VTensor [3]%Q)).
Proof.
  intros other self.
  assert (Hv : valid other) by (by apply valid_five).
  destruct (use_positive_from_borrows other VNone VNone
              [1; 2]%Q [1; 1]%Q [3; 4]%Q [8]%Q Hv eq_refl eq_refl eq_refl)
    as (E0 & _ & E1 & E2 & E3 & E4 & E5 & _); [simpl; lia|].
  fold self in E0, E1, E2, E3, E4, E5.
  destruct (use_positive_from other self) as [r s'].
  unfold outcome, after in *. simpl in *. subst r.
  destruct s'. simpl in *. by subst.
Defined.

End FeaturesMore.

(** ** ExperimentsManager: the life cycle *)

Module TrackerMore.
Import Tracker TrackerSpec.

Lemma enter_idempotent session name w :
  enter session name (enter session name w) = enter session name w.
Proof.
  unfold enter at 2 3.
  pose proof (ensure_experiment_resolves name (store w)) as Hr.
  destruct (ensure_experiment name (store w)) as [eid st1]. simpl in Hr.
  unfold enter, ensure_experiment. simpl.
  change (experiment_by_name name (activate eid st1))
    with (experiment_by_name name st1).
  rewrite Hr. done.
Qed.

Lemma ensure_experiment_NoDup name st :
  NoDup (map exp_name (experiments st)) ->
  NoDup (map exp_name (experiments (ensure_experiment name st).2)).
Proof.
  intros Hnd. unfold ensure_experiment.
  destruct (experiment_by_name name st) eqn:E; simpl; [done|].
  rewrite map_app. simpl. apply NoDup_app. split; [done|].
  split; [|apply NoDup_singleton].
  intros x Hx ->%list_elem_of_singleton.
  by apply experiment_by_name_None in E.
Qed.

Lemma enter_NoDup session name w :
  NoDup (map exp_name (experiments (store w))) ->
  NoDup (map exp_name (experiments (store (enter session name w)))).
Proof.
  intros Hnd. unfold enter.
  pose proof (ensure_experiment_NoDup name (store w) Hnd) as Hn.
  by destruct (ensure_experiment name (store w)).
Qed.

Lemma filter_labelled (found : list RunRow) rid k :
  map snd (filter (fun ir : nat * RunRow => Some (run_id (ir.2)) = Some rid)
             (zip (seq k (length found)) found))
  = filter (fun r => run_id r = rid) found.
Proof.
  revert k. induction found as [|r found IH]; intros k; [done|].
  simpl. rewrite !filter_cons. simpl.
  destruct (decide (run_id r = rid)) as [E|E].
  - rewrite decide_True by (by rewrite E). simpl. by rewrite IH.
  - rewrite decide_False by (intros [= ?]; done). apply IH.
Qed.

(** What logging a list of parameters does to the active run's row. *)
Lemma log_params_fresh items m st rid r :
  active_run st = Some rid ->
  find_run rid st = Some r ->
  NoDup (map fst items) ->
  (forall k, k ∈ map fst items -> params r !! k = None) ->
  exists st' r',
    log_params items (mkWorld m st) = (Ok tt, mkWorld m st')
    /\ active_run st' = Some rid
    /\ find_run rid st' = Some r'
    /\ experiment_id r' = experiment_id r /\ run_name r' = run_name r
    /\ status r' = status r /\ metrics r' = metrics r
    /\ (forall k v, (k, v) ∈ items -> params r' !! k = Some (convert_value v))
    /\ (forall k, k ∉ map fst items -> params r' !! k = params r !! k).
Proof.
  revert st r. induction items as [|[k v] items IH]; intros st r Hact Hfind Hnd Hfree.
  - exists st, r. simpl. repeat split; try done.
    intros k v Hin. by apply elem_of_nil in Hin.
  - simpl in Hnd. apply NoDup_cons in Hnd as [Hk Hnd].
    simpl. unfold bind, mlflow, log_param, bind, get_or_start_run. simpl.
    rewrite Hact, Hfind. rewrite (Hfree k) by (simpl; left). simpl.
    set (st1 := update_run rid (with_param k (convert_value v)) st).
    destruct (IH st1 (with_param k (convert_value v) r))
      as (st' & r' & Hlog & Ha & Hf & He & Hn & Hs & Hm & Hin & Hout).
    + done.
    + unfold st1. by rewrite find_run_update, Hfind.
    + done.
    + intros k' Hk'. simpl. rewrite lookup_insert_ne.
      * apply Hfree. simpl. by right.
      * intros ->. done.
    + exists st', r'. rewrite Hlog. repeat split; try done.
      * intros k' v' [[= -> ->]|Hin']%elem_of_cons.
        -- rewrite Hout by done. simpl. by rewrite lookup_insert_eq.
        -- by apply Hin.
      * intros k' Hk'. simpl in Hk'. apply not_elem_of_cons in Hk' as [Hne Hk'].
        rewrite Hout by done. simpl. by rewrite lookup_insert_ne.
Qed.

Lemma prefix_app (p s : string) : String.prefix p (p +:+ s) = true.
Proof.
  induction p as [|a p IH]; simpl; [by destruct s|].
  by destruct (Ascii.ascii_dec a a).
Qed.

Lemma ensure_experiment_consistent name st :
  consistent st -> consistent (ensure_experiment name st).2.
Proof.
  intros [Hruns Hfresh]. unfold ensure_experiment.
  destruct (experiment_by_name name st); simpl; [done|].
  split; simpl.
  - intros r Hr. rewrite map_app, elem_of_app. left. by apply Hruns.
  - intros n Hn. rewrite map_app. apply not_elem_of_app. split.
    + apply Hfresh. lia.
    + simpl. intros Hin%list_elem_of_singleton.
      apply (inj pretty) in Hin. lia.
Qed.

Lemma enter_consistent session name w :
  consistent (store w) -> consistent (store (enter session name w)).
Proof.
  intros Hc. unfold enter.
  pose proof (ensure_experiment_consistent name (store w) Hc) as Hn.
  destruct (ensure_experiment name (store w)) as [eid st1]. exact Hn.
Qed.

Lemma ensure_experiment_other name other st :
  name <> other ->
  experiment_by_name name (ensure_experiment other st).2
  = experiment_by_name name st.
Proof.
  intros Hne. unfold ensure_experiment.
  destruct (experiment_by_name other st); simpl; [done|].
  unfold experiment_by_name. simpl. rewrite filter_app.
  rewrite (filter_cons_False _ _ []) by (simpl; congruence).
  rewrite filter_nil. by rewrite app_nil_r.
Qed.

Lemma for_each_Forall2 {A B} (f : A -> result B) (xs : list A) ys :
  for_each f xs = Ok ys -> Forall2 (fun x y => f x = Ok y) xs ys.
Proof.
  revert ys. induction xs as [|x xs IH]; intros ys; simpl.
  - intros [= <-]. constructor.
  - destruct (f x) as [y|e] eqn:Ex; simpl; [|done].
    destruct (for_each f xs) as [ys'|e]; simpl; [|done].
    intros [= <-]. constructor; [done|]. by apply IH.
Qed.

Lemma for_each_length {A B} (f : A -> result B) (xs : list A) ys :
  for_each f xs = Ok ys -> length ys = length xs.
Proof.
  revert ys. induction xs as [|x xs IH]; intros ys; simpl.
  - by intros [= <-].
  - destruct (f x) as [y|e]; simpl; [|done].
    destruct (for_each f xs) as [ys'|e]; simpl; [|done].
    intros [= <-]. simpl. by rewrite (IH ys').
Qed.

Section WithConstants.
Context {constants : Constants}.
Implicit Types (w : World) (st : MLflow).

Lemma get_previous_session_id_eval w :
  get_previous_session_id w
  = (Ok (exp_id <$>
           last (filter (fun e => startswith EXPERIMENT_PREFIX (exp_name e) = true)
                        (experiments (store w)))), w).
Proof.
  unfold get_previous_session_id, bind, ask, ret, latest_experiment.
  cbv beta iota.
  destruct (filter _ (experiments (store w))) as [|e es] eqn:E; [done|].
  rewrite bool_decide_eq_false_2 by done. done.
Qed.

Lemma startswith_initial :
  startswith EXPERIMENT_PREFIX INITIAL_EXPERIMENT_NAME = true.
Proof. apply prefix_app. Qed.

(** X8.  [finish_run] returns from any state and leaves no run: the
    manager's run, run parameters and run identifier are absent, every
    accumulator is cleared and keeps its name, the session is as it was,
    the tracking service has no active run, and the run that was active
    there is [FINISHED] (with none active the store is untouched).
    Calling it again changes nothing. *)
Theorem finish_run_finishes w :
  let r := finish_run w in
  outcome r = Ok tt
  /\ _run (mgr (after r)) = None
  /\ _run_params (mgr (after r)) = None
  /\ _run_id (mgr (after r)) = None
  /\ Forall (fun a => acc_values a = []) (_accumulators (mgr (after r)))
  /\ map acc_name (_accumulators (mgr (after r)))
     = map acc_name (_accumulators (mgr w))
  /\ _tuning_session (mgr (after r)) = _tuning_session (mgr w)
  /\ _tuning_session_id (mgr (after r)) = _tuning_session_id (mgr w)
  /\ active_run (store (after r)) = None
  /\ match active_run (store w) with
     | Some rid => find_run rid (store (after r))
                   = with_status FINISHED <$> find_run rid (store w)
     | None => store (after r) = store w
     end
  /\ finish_run (after r) = (Ok tt, after r).
Proof.
  intros r. unfold r. rewrite !finish_run_eval. unfold outcome, after. simpl.
  split; [done|]. do 3 (split; [done|]).
  split; [apply Forall_forall; by intros a (a0 & -> & _)%list_elem_of_fmap|].
  split; [rewrite map_map; done|]. do 2 (split; [done|]).
  unfold end_run.
  destruct (active_run (store w)) as [rid|] eqn:Ea; simpl.
  - split; [done|]. split.
    + change (find_run rid (update_run rid (with_status FINISHED) (store w))
              = with_status FINISHED <$> find_run rid (store w)).
      by apply find_run_update.
    + rewrite map_map. simpl. done.
  - rewrite Ea. simpl. split; [done|]. split; [done|]. by rewrite map_map.
Qed.

(** X9.  [finish_session] returns from any state with the manager on the
    reserved initial session, whose experiment exists afterwards and is
    the active one; it touches neither runs nor run state, and calling it
    again changes nothing. *)
Theorem finish_session_settles w :
  let r := finish_session w in
  outcome r = Ok tt
  /\ _tuning_session (mgr (after r)) = SessionInitial
  /\ (exists eid,
        _tuning_session_id (mgr (after r)) = Some eid
        /\ active_experiment (store (after r)) = Some eid
        /\ experiment_by_name INITIAL_EXPERIMENT_NAME (store (after r))
           = Some eid)
  /\ _run_id (mgr (after r)) = _run_id (mgr w)
  /\ _accumulators (mgr (after r)) = _accumulators (mgr w)
  /\ runs (store (after r)) = runs (store w)
  /\ active_run (store (after r)) = active_run (store w)
  /\ finish_session (after r) = (Ok tt, after r).
Proof.
  intros r. unfold r. rewrite !finish_session_enter. unfold outcome, after.
  simpl. rewrite enter_idempotent.
  destruct (enter_run_state SessionInitial INITIAL_EXPERIMENT_NAME w)
    as (_ & _ & F3 & F4 & F5 & F6).
  split; [done|].
  pose proof (ensure_experiment_resolves INITIAL_EXPERIMENT_NAME (store w)) as Hr.
  unfold enter in *.
  destruct (ensure_experiment INITIAL_EXPERIMENT_NAME (store w)) as [eid st1].
  simpl in *. split; [done|]. split; [by exists eid|]. done.
Qed.

(** X10.  [set_session] resolves a session rather than duplicating it:
    where no two experiments share a name none do afterwards, and a
    second call with the same session changes nothing. *)
Theorem set_session_resolves session w :
  NoDup (map exp_name (experiments (store w))) ->
  let r := set_session session w in
  NoDup (map exp_name (experiments (store (after r))))
  /\ set_session session (after r) = (Ok tt, after r).
Proof.
  intros Hnd r. unfold r. rewrite !set_session_enter. unfold after. simpl.
  split.
  - apply enter_NoDup. destruct (is_initial _); [by apply enter_NoDup|done].
  - set (w0 := if is_initial (_tuning_session (mgr w)) then _ else w).
    assert (Hs : is_initial (_tuning_session
                   (mgr (enter (SessionOf session) (session_str session) w0)))
                 = false).
    { unfold enter. by destruct (ensure_experiment _ _). }
    rewrite Hs. by rewrite enter_idempotent.
Qed.

(** X11.  Where the session has finished runs with an uploaded model
    but none of them recorded the main metric, there is no best run to
    find: [get_best_quality] raises, [KeyError] when no run bearing the
    marker recorded the metric and [IndexError] otherwise, and
    [save_model] with [best_only] raises the same once the quality of
    the current run is read; neither changes anything, so the model is
    not uploaded. *)
Theorem best_quality_needs_a_recorded_metric w eid :
  is_initial (_tuning_session (mgr w)) = false ->
  _tuning_session_id (mgr w) = Some eid ->
  qualifying eid (store w) <> [] ->
  (forall r, r ∈ qualifying eid (store w) ->
             metrics r !! main_metric (mgr w) = None) ->
  let e :=
    if has_column (main_metric (mgr w))
         (search_runs [eid] (Some ("model_uploaded", "1")) (store w))
    then IndexError "list index out of range"
    else KeyError ("metrics." +:+ main_metric (mgr w)) in
  get_best_quality w = (Raise e, w)
  /\ forall model q,
      _run_id (mgr w) <> None ->
      outcome (get_quality w) = Ok q ->
      save_model model true w = (Raise e, w).
Proof.
  intros Hinit Hid Hsome Hnone e.
  assert (Hbest : get_best_quality w = (Raise e, w)).
  { rewrite (get_best_quality_delegates w eid Hinit Hid).
    by apply best_quality_none_recorded. }
  split; [exact Hbest|].
  intros model q Hrun Hq.
  pose proof (get_quality_reads w) as Hreads.
  unfold save_model, bind, self. cbv beta iota. rewrite Hinit.
  rewrite bool_decide_eq_false_2 by done.
  change (negb true) with false. cbv beta iota.
  unfold outcome, after in Hq, Hreads.
  destruct (get_quality w) as [rq wq]. simpl in Hq, Hreads. subst rq wq.
  by rewrite Hbest.
Qed.

(** X12.  Teardown: [__del__] returns from any state and leaves the
    manager on the reserved initial session with no run, its
    accumulators cleared, and the tracking service with no active
    run. *)
Theorem teardown_leaves_nothing_open w :
  let r := __del__ w in
  outcome r = Ok tt
  /\ _tuning_session (mgr (after r)) = SessionInitial
  /\ _run (mgr (after r)) = None
  /\ _run_id (mgr (after r)) = None
  /\ Forall (fun a => acc_values a = []) (_accumulators (mgr (after r)))
  /\ active_run (store (after r)) = None.
Proof.
  intros r. unfold r, __del__, bind.
  rewrite finish_run_eval, finish_session_enter. unfold outcome, after.
  set (w1 := mkWorld _ _).
  destruct (enter_run_state SessionInitial INITIAL_EXPERIMENT_NAME w1)
    as (F1 & _ & F3 & F4 & _ & F6).
  simpl. rewrite F1, F3, F4, F6.
  split; [done|].
  split; [unfold enter; by destruct (ensure_experiment _ _)|].
  do 2 (split; [done|]).
  split; [apply Forall_forall; by intros a (a0 & -> & _)%list_elem_of_fmap|].
  unfold w1, end_run. simpl.
  by destruct (active_run (store w)) eqn:E.
Qed.

(** X13.  With a run active in a session and exactly one row for it
    among the session's runs, [get_quality] changes nothing and returns
    the value of the main metric recorded for that run; when the run has
    none it returns [NaN] if another run of the session has one, and
    raises [KeyError] if no run of the session has. *)
Theorem get_quality_reads_current_run w rid eid r :
  is_initial (_tuning_session (mgr w)) = false ->
  _run_id (mgr w) = Some rid ->
  _tuning_session_id (mgr w) = Some eid ->
  filter (fun r => run_id r = rid) (search_runs [eid] None (store w)) = [r] ->
  get_quality w
  = (match metrics r !! main_metric (mgr w) with
     | Some v => Ok (Num v)
     | None =>
         if has_column (main_metric (mgr w)) (search_runs [eid] None (store w))
         then Ok NaN
         else Raise (KeyError ("metrics." +:+ main_metric (mgr w)))
     end, w).
Proof.
  intros Hinit Hrun Hid Hone.
  unfold get_quality, bind, self, search_session_runs, ask, lift, ret, throw.
  cbv beta iota. rewrite Hinit, Hrun, Hid.
  rewrite (bool_decide_eq_false_2 (Some rid = None)) by done.
  cbv beta iota.
  set (found := search_runs [eid] None (store w)) in *.
  pose proof (filter_labelled found rid 0) as Hsel. rewrite Hone in Hsel.
  destruct (filter _ (zip (seq 0 (length found)) found)) as [|[i r1] [|? ?]]
    eqn:Ef; try done.
  simpl in Hsel. injection Hsel as ->.
  unfold column. simpl.
  assert (Hin : r ∈ found).
  { assert (Hr : r ∈ filter (fun r => run_id r = rid) found)
      by (rewrite Hone; left).
    by apply list_elem_of_filter in Hr as [_ ?]. }
  destruct (has_column (main_metric (mgr w)) found) eqn:Hcol; simpl.
  - unfold cell. by destruct (metrics r !! main_metric (mgr w)).
  - destruct (metrics r !! main_metric (mgr w)) as [v|] eqn:Em; [|done].
    exfalso. apply bool_decide_eq_false in Hcol. apply Hcol.
    apply Exists_exists. exists r. by rewrite Em.
Qed.

(** X14.  In a session with no run active, [set_run] with parameters
    whose name no run of the session bears, the parameter names of
    session and run being distinct, returns with a new run started: the
    manager holds its identifier and the parameters, the tracking service
    has it active, and its row is [RUNNING], in the session's experiment,
    named after the parameters, with every session and run parameter
    recorded (a list joined by commas) and nothing else. *)
Theorem set_run_starts_a_run w session eid ps :
  _tuning_session (mgr w) = SessionOf session ->
  _tuning_session_id (mgr w) = Some eid ->
  _run (mgr w) = None ->
  active_run (store w) = None ->
  get_run_id_by_name (Some eid) (id ps) (store w) = None ->
  NoDup (map fst (session_items session ++ params_items ps)%list) ->
  let r := set_run ps w in
  let rid := "run-" +:+ pretty (fresh (store w)) in
  outcome r = Ok tt
  /\ _run_id (mgr (after r)) = Some rid
  /\ _run_params (mgr (after r)) = Some ps
  /\ _tuning_session (mgr (after r)) = SessionOf session
  /\ active_run (store (after r)) = Some rid
  /\ exists row,
      find_run rid (store (after r)) = Some row
      /\ experiment_id row = eid /\ run_name row = id ps
      /\ status row = RUNNING /\ metrics row = ∅
      /\ (forall k v, (k, v) ∈ (session_items session ++ params_items ps)%list ->
                      params row !! k = Some (convert_value v))
      /\ (forall k, k ∉ map fst (session_items session ++ params_items ps)%list ->
                    params row !! k = None).
Proof.
  intros Hs Hid Hrun Hact Hname Hnd r rid.
  rewrite map_app in Hnd. apply NoDup_app in Hnd as (Hnd1 & Hdisj & Hnd2).
  set (row0 := mkRunRow rid eid (id ps) RUNNING ∅ ∅ []).
  set (st1 := mkMLflow (experiments (store w)) (row0 :: runs (store w))
                (active_experiment (store w)) (Some rid) (S (fresh (store w)))).
  set (m1 := set__run_id (Some rid)
               (set__run (Some rid)
                  (set__run_id None (set__run_params (Some ps) (mgr w))))).
  assert (Hf1 : find_run rid st1 = Some row0).
  { unfold find_run, st1. simpl. by rewrite filter_cons_True. }
  destruct (log_params_fresh (session_items session) m1 st1 rid row0)
    as (st2 & row2 & Hlog2 & Ha2 & Hf2 & He2 & Hn2 & Hs2 & Hm2 & Hin2 & Hout2);
    [done|done|done|done|].
  destruct (log_params_fresh (params_items ps) m1 st2 rid row2)
    as (st3 & row3 & Hlog3 & Ha3 & Hf3 & He3 & Hn3 & Hs3 & Hm3 & Hin3 & Hout3);
    [done|done|done| |].
  { intros k Hk. rewrite Hout2; [done|]. intros Hk1. by apply (Hdisj k). }
  assert (Er : r = (Ok tt, mkWorld m1 st3)).
  { unfold r, set_run, bind, self, assign, ask, mlflow, ret. cbv beta iota.
    rewrite Hs. simpl is_initial. cbv beta iota.
    rewrite (bool_decide_eq_false_2 (_run (mgr w) <> None))
      by (rewrite Hrun; intros Hne; by apply Hne).
    cbv beta iota. simpl. rewrite Hid, Hname. unfold start_run.
    rewrite Hact. simpl. rewrite Hs.
    fold rid. fold row0. fold st1. fold m1.
    rewrite Hlog2. fold m1. rewrite Hlog3. done. }
  rewrite Er. unfold outcome, after. simpl.
  split; [done|]. do 3 (split; [done|]). split; [done|].
  exists row3. split; [done|].
  split; [by rewrite He3, He2|]. split; [by rewrite Hn3, Hn2|].
  split; [by rewrite Hs3, Hs2|]. split; [by rewrite Hm3, Hm2|]. split.
  - intros k v [Hin|Hin]%elem_of_app.
    + rewrite Hout3.
      * by apply Hin2.
      * intros Hk. apply (Hdisj k); [|done].
        apply list_elem_of_fmap. by exists (k, v).
    + by apply Hin3.
  - intros k Hk. rewrite map_app in Hk.
    apply not_elem_of_app in Hk as [Hk1 Hk2].
    rewrite Hout3, Hout2 by done. done.
Qed.

(** X15.  With no run active and no run yet named [initial_model],
    [upload_initial_model] returns having put the manager on the
    reserved initial session and stored the model in a new, finished run
    of the initial experiment, the only run of that name, no run staying
    active; [download_initial_model] then gives that model back and
    changes nothing. *)
Theorem initial_model_round_trip w model :
  active_run (store w) = None ->
  Forall (fun r => run_name r <> INITIAL_RUN_NAME) (runs (store w)) ->
  let r := upload_initial_model model w in
  let rid := "run-" +:+ pretty (fresh (store (after (finish_session w)))) in
  outcome r = Ok tt
  /\ _tuning_session (mgr (after r)) = SessionInitial
  /\ active_run (store (after r)) = None
  /\ (exists row, find_run rid (store (after r)) = Some row
                  /\ status row = FINISHED
                  /\ run_name row = INITIAL_RUN_NAME
                  /\ experiment_by_name INITIAL_EXPERIMENT_NAME (store (after r))
                     = Some (experiment_id row)
                  /\ filter (fun r => run_name r = INITIAL_RUN_NAME)
                        (runs (store (after r))) = [row])
  /\ download_initial_model (after r) = (Ok model, after r).
Proof.
  intros Hact Hfirst r rid. unfold r, rid. clear r rid.
  unfold upload_initial_model, bind. rewrite finish_session_enter.
  unfold after at 1. unfold snd.
  destruct (enter_run_state SessionInitial INITIAL_EXPERIMENT_NAME w)
    as (_ & _ & _ & _ & F5 & F6).
  pose proof (ensure_experiment_resolves INITIAL_EXPERIMENT_NAME (store w)) as Hr.
  assert (Hs : _tuning_session
                 (mgr (enter SessionInitial INITIAL_EXPERIMENT_NAME w))
               = SessionInitial).
  { unfold enter. by destruct (ensure_experiment _ _). }
  assert (He : exists eid,
             experiment_by_name INITIAL_EXPERIMENT_NAME
               (store (enter SessionInitial INITIAL_EXPERIMENT_NAME w))
             = Some eid).
  { unfold enter. destruct (ensure_experiment _ _) as [eid st1].
    exists eid. exact Hr. }
  destruct He as [eid He].
  set (w1 := enter SessionInitial INITIAL_EXPERIMENT_NAME w) in *.
  rewrite Hact in F6. rewrite <- F5 in Hfirst.
  unfold ask, get_experiment_id_by_name, with_start_run, bind, mlflow,
    start_run, log_model, get_or_start_run, modify, end_run_as, ret, bind.
  cbv beta iota. rewrite He, F6. simpl.
  set (rid := "run-" +:+ pretty (fresh (store w1))).
  destruct (decide (rid = rid)) as [_|?]; [|done]. simpl.
  destruct (decide (rid = rid)) as [_|?]; [|done]. simpl.
  unfold outcome, after. simpl.
  split; [done|]. split; [done|]. split; [done|]. split.
  - eexists. unfold find_run. simpl. rewrite filter_cons_True by done.
    simpl. split; [reflexivity|]. simpl.
    split; [done|]. split; [done|]. split; [done|].
    rewrite filter_cons_True by done. f_equal.
    apply filter_keeps_none. intros r0 Hin.
    apply list_elem_of_fmap in Hin as (r1 & -> & Hin).
    apply list_elem_of_fmap in Hin as (r2 & -> & Hin).
    rewrite Forall_forall in Hfirst. specialize (Hfirst r2 Hin).
    destruct (decide (run_id r2 = rid)); simpl;
      destruct (decide _); simpl; done.
  - unfold download_initial_model, bind, ask, get_experiment_id_by_name,
      get_run_id_by_name, mlflow, load_model. simpl.
    change (experiment_by_name INITIAL_EXPERIMENT_NAME
              {| experiments := experiments (store w1) |})
      with (experiment_by_name INITIAL_EXPERIMENT_NAME (store w1)).
    rewrite He. cbv beta iota. rewrite filter_cons_True by done. simpl.
    unfold find_run. simpl. rewrite filter_cons_True by done. done.
Qed.

(** X16.  While a run is active, [upload_initial_model] raises and
    uploads nothing: no run is added, the active run stays active with
    its row as it was, and the manager has been moved to the reserved
    initial session all the same. *)
Theorem upload_initial_model_needs_no_active_run w model rid :
  active_run (store w) = Some rid ->
  let r := upload_initial_model model w in
  raises (outcome r) is_Exception
  /\ runs (store (after r)) = runs (store w)
  /\ active_run (store (after r)) = Some rid
  /\ _tuning_session (mgr (after r)) = SessionInitial.
Proof.
  intros Hact r. unfold r. clear r.
  unfold upload_initial_model, bind. rewrite finish_session_enter.
  destruct (enter_run_state SessionInitial INITIAL_EXPERIMENT_NAME w)
    as (_ & _ & _ & _ & F5 & F6).
  assert (Hs : _tuning_session
                 (mgr (enter SessionInitial INITIAL_EXPERIMENT_NAME w))
               = SessionInitial).
  { unfold enter. by destruct (ensure_experiment _ _). }
  set (w1 := enter SessionInitial INITIAL_EXPERIMENT_NAME w) in *.
  rewrite Hact in F6.
  unfold ask, with_start_run, bind, mlflow, start_run.
  cbv beta iota. rewrite F6. unfold outcome, after. simpl.
  by rewrite F5, F6, Hs.
Qed.

(** X17.  A session just entered is its own previous session.  In a
    store whose bookkeeping is in order, after [set_session] has created
    the experiment of a session whose name begins with the prefix,
    [get_previous_session_id] returns the identifier of that very
    session, and [get_last_model] is [download_initial_model]: it gives
    the initial model, whatever models earlier sessions uploaded. *)
Theorem new_session_is_its_own_previous session w :
  consistent (store w) ->
  startswith EXPERIMENT_PREFIX (session_str session) = true ->
  experiment_by_name (session_str session) (store w) = None ->
  session_str session <> INITIAL_EXPERIMENT_NAME ->
  let w' := after (set_session session w) in
  outcome (get_previous_session_id w') = Ok (_tuning_session_id (mgr w'))
  /\ is_Some (_tuning_session_id (mgr w'))
  /\ get_last_model w' = download_initial_model w'.
Proof.
  intros Hc Hpre Hnew Hne w'. unfold w'. clear w'.
  rewrite set_session_enter. unfold after, snd.
  set (w0 := if is_initial (_tuning_session (mgr w)) then _ else w).
  assert (Hc0 : consistent (store w0)).
  { unfold w0. destruct (is_initial _); [by apply enter_consistent|done]. }
  assert (Hnew0 : experiment_by_name (session_str session) (store w0) = None).
  { unfold w0. destruct (is_initial _); [|done].
    unfold enter.
    pose proof (ensure_experiment_other (session_str session)
                  INITIAL_EXPERIMENT_NAME (store w) Hne) as Ho.
    destruct (ensure_experiment INITIAL_EXPERIMENT_NAME (store w)).
    simpl in *. by rewrite <- Hnew, <- Ho. }
  clearbody w0. clear Hc Hnew w.
  unfold enter, ensure_experiment. rewrite Hnew0.
  set (eid := pretty (fresh (store w0))).
  set (w' := mkWorld _ _).
  assert (Hprev : get_previous_session_id w' = (Ok (Some eid), w')).
  { rewrite get_previous_session_id_eval. unfold w'. simpl.
    rewrite filter_app, (filter_cons_True _ _ []) by done.
    rewrite filter_nil, last_snoc. done. }
  split; [by rewrite Hprev|]. split; [by eexists|].
  unfold get_last_model, bind, ask. cbv beta iota. rewrite Hprev.
  destruct (bool_decide _ || bool_decide _); [done|].
  rewrite best_quality_of_none; [done|].
  unfold qualifying, w'. simpl.
  destruct Hc0 as [Hruns Hfresh].
  apply filter_keeps_none. intros r Hr [He _].
  apply (Hfresh (fresh (store w0))); [lia|].
  fold eid. rewrite <- He. by apply Hruns.
Qed.

(** X18.  [get_top_params] only reads.  It returns [None] when no
    experiment bears the prefix, and when the latest that does has no
    finished run with an uploaded model.  A list it returns is read off
    that latest experiment, which is then not the initial one: its
    entries are the parameters made of the finished runs with an
    uploaded model that stand at the positions [argsort] gives for their
    main-metric column, taken in that order when [is_loss] and in the
    opposite order otherwise, and cut by [[: n_top_runs]]; with
    [n_top_runs] a number that is not negative there are at most that
    many. *)
Theorem get_top_params_reads_top_runs
  (argsort : list float -> list nat)
  (FineTuningParams_of_row : RunRow -> result FineTuningParams) w :
  let r := get_top_params argsort FineTuningParams_of_row w in
  after r = w
  /\ (forall l, outcome r = Ok (Some l) ->
        exists e rows,
          outcome (get_previous_session_id w) = Ok (Some e)
          /\ experiment_by_name INITIAL_EXPERIMENT_NAME (store w) <> Some e
          /\ (let q := qualifying e (store w) in
              let order := argsort (map (cell (main_metric (mgr w))) q) in
              let positions :=
                slice_upto (_n_top_runs (mgr w))
                  (if is_loss (mgr w) then order else reverse order) in
              Forall2 (fun i row => q !! i = Some row) positions rows)
          /\ Forall (fun row => row ∈ qualifying e (store w)) rows
          /\ Forall2 (fun row p => FineTuningParams_of_row row = Ok p) rows l
          /\ (forall n, _n_top_runs (mgr w) = Some n -> (0 <= n)%Z ->
                        length l <= Z.to_nat n))
  /\ (forall e, outcome (get_previous_session_id w) = Ok (Some e) ->
        qualifying e (store w) = [] -> outcome r = Ok None)
  /\ (outcome (get_previous_session_id w) = Ok None -> outcome r = Ok None).
Proof.
  intros r. unfold r. clear r.
  unfold get_top_params, bind, ask, self, get_experiment_id_by_name.
  cbv beta iota. rewrite get_previous_session_id_eval.
  unfold outcome at 2 4, fst.
  set (pre := filter _ (experiments (store w))).
  assert (Hinit : forall i,
            experiment_by_name INITIAL_EXPERIMENT_NAME (store w) = Some i ->
            last pre <> None).
  { intros i Hi. unfold experiment_by_name in Hi.
    apply fmap_Some in Hi as (e & Hh & _).
    apply head_Some_elem_of, list_elem_of_filter in Hh as [Hn He].
    assert (Hin : e ∈ pre).
    { apply list_elem_of_filter. split; [|done].
      rewrite Hn. apply startswith_initial. }
    intros Hl. apply last_None in Hl. rewrite Hl in Hin.
    by apply not_elem_of_nil in Hin. }
  destruct (bool_decide_reflect
              (experiment_by_name INITIAL_EXPERIMENT_NAME (store w)
               = exp_id <$> last pre)) as [Heq|Hneq].
  { unfold ret, outcome, after. simpl.
    split; [done|]. split; [done|]. split; done. }
  destruct (last pre) as [e|] eqn:El; simpl in *.
  2:{ destruct (experiment_by_name INITIAL_EXPERIMENT_NAME (store w)) as [i|]
        eqn:Ei; [|done].
      by destruct (Hinit i eq_refl). }
  unfold search_session_runs, ask. cbv beta iota.
  rewrite qualifying_search.
  destruct (qualifying (exp_id e) (store w)) as [|q0 qs] eqn:Eq.
  { unfold ret, outcome, after. simpl.
    split; [done|]. split; [done|]. split; [done|done]. }
  rewrite bool_decide_eq_false_2 by done.
  unfold lift, column. cbv beta iota.
  destruct (has_column _ _); cbv beta iota.
  2:{ unfold outcome, after. simpl. split; [done|]. split; [done|].
      split; [|done]. intros e' [= <-]. by rewrite Eq. }
  change (negb (is_loss (mgr w))) with (negb (_is_loss (mgr w))).
  set (positions := slice_upto _ _).
  assert (Hpos : positions
                 = slice_upto (_n_top_runs (mgr w))
                     (if is_loss (mgr w)
                      then argsort (map (cell (main_metric (mgr w))) (q0 :: qs))
                      else reverse
                             (argsort (map (cell (main_metric (mgr w)))
                                         (q0 :: qs))))).
  { unfold positions, is_loss. by destruct (_is_loss (mgr w)). }
  destruct (iloc (q0 :: qs) positions) as [rows|x] eqn:Erows; cbv beta iota.
  2:{ unfold outcome, after. simpl. split; [done|]. split; [done|].
      split; [|done]. intros e' [= <-]. by rewrite Eq. }
  pose proof (for_each_length _ _ _ Erows) as Hlrows.
  apply for_each_Forall2 in Erows.
  assert (Hrows : Forall2 (fun i row => (q0 :: qs) !! i = Some row)
                    positions rows).
  { eapply Forall2_impl; [exact Erows|]. intros i row Hi. simpl in Hi.
    destruct ((q0 :: qs) !! i); by inversion Hi. }
  destruct (for_each FineTuningParams_of_row rows) as [ps|x] eqn:Eps;
    cbv beta iota.
  2:{ unfold outcome, after. simpl. split; [done|]. split; [done|].
      split; [|done]. intros e' [= <-]. by rewrite Eq. }
  pose proof (for_each_length _ _ _ Eps) as Hlps.
  apply for_each_Forall2 in Eps.
  unfold ret, outcome, after. simpl. split; [done|]. split.
  - intros l [= <-]. exists (exp_id e), rows.
    split; [done|]. split; [done|]. rewrite Eq.
    split; [by rewrite <- Hpos|].
    split.
    { apply Forall_forall. intros row Hin.
      apply list_elem_of_lookup in Hin as [k Hk].
      destruct (Forall2_lookup_r _ _ _ _ _ Hrows Hk) as (i & _ & Hi).
      by eapply list_elem_of_lookup_2. }
    split; [done|].
    intros n Hn Hn0. rewrite Hlps, Hlrows, Hpos, Hn. unfold slice_upto.
    assert (E : (n <? 0)%Z = false) by (apply Z.ltb_ge; lia).
    rewrite E, length_take. lia.
  - split; [|done]. intros e' [= <-]. by rewrite Eq.
Qed.

End WithConstants.

Lemma set_session_resolves_witness :
  set_session (constants := Examples.constants) Examples.session1
    (Examples.session_world false)
  = (Ok tt, Examples.session_world false).
Proof.
  assert (Hnd : NoDup (map exp_name
                         (experiments (store (Examples.initial_world false))))).
  { apply (bool_decide_unpack _). vm_compute. exact I. }
  exact (proj2 (set_session_resolves (constants := Examples.constants)
                  Examples.session1 (Examples.initial_world false) Hnd)).
Defined.

Lemma best_quality_needs_a_recorded_metric_witness :
  let w := after (Examples.fit_logging 7 (Examples.params_of "b")
                    (after (set_run (Examples.params_of "b")
                              Examples.unmeasured_world))) in
  get_best_quality (constants := Examples.constants) w
  = (Raise (KeyError "metrics.quality"), w).
Proof.
  intros w.
  assert (Hq : exists r, qualifying "1" (store w) = [r]
                         /\ metrics r !! main_metric (mgr w) = None).
  { eexists. split; vm_compute; reflexivity. }
  destruct Hq as (r & Hq & Hr).
  refine (proj1 (best_quality_needs_a_recorded_metric
                   (constants := Examples.constants) w "1"
                   eq_refl eq_refl _ _)).
  - rewrite Hq. discriminate.
  - intros r' Hin. rewrite Hq in Hin.
    apply list_elem_of_singleton in Hin. by rewrite Hin.
Defined.

Lemma get_quality_reads_current_run_witness :
  get_quality (constants := Examples.constants) (Examples.first_run_world false)
  = (Ok (Num (2 # 10)), Examples.first_run_world false).
Proof.
  set (w := Examples.first_run_world false).
  assert (E : exists r,
             filter (fun r => run_id r = "run-2")
               (search_runs ["1"] None (store w)) = [r]
             /\ metrics r !! main_metric (mgr w) = Some (2 # 10)%Q).
  { eexists. split; vm_compute; reflexivity. }
  destruct E as (r & E1 & E2).
  pose proof (get_quality_reads_current_run (constants := Examples.constants)
                w "run-2" "1" r eq_refl eq_refl eq_refl E1) as Hq.
  rewrite E2 in Hq. exact Hq.
Defined.

Lemma set_run_starts_a_run_witness :
  outcome (set_run (Examples.params_of "a") (Examples.session_world false))
  = Ok tt
  /\ active_run (store (after (set_run (Examples.params_of "a")
                                 (Examples.session_world false))))
     = Some "run-2".
Proof.
  assert (Hnd : NoDup (map fst (session_items Examples.session1
                                ++ params_items (Examples.params_of "a"))%list)).
  { apply (bool_decide_unpack _). vm_compute. exact I. }
  destruct (set_run_starts_a_run
              (Examples.session_world false) Examples.session1 "1"
              (Examples.params_of "a") eq_refl eq_refl eq_refl eq_refl eq_refl
              Hnd) as (H1 & _ & _ & _ & H5 & _).
  exact (conj H1 H5).
Defined.

Lemma initial_model_round_trip_witness :
  let w := Examples.four_runs_world false in
  download_initial_model (constants := Examples.constants)
    (after (upload_initial_model (constants := Examples.constants) 7 w))
  = (Ok 7, after (upload_initial_model (constants := Examples.constants) 7 w)).
Proof.
  intros w.
  assert (Hact : active_run (store w) = None) by (vm_compute; reflexivity).
  assert (Hfirst : Forall (fun r => run_name r <> INITIAL_RUN_NAME)
                     (runs (store w))).
  { apply (bool_decide_unpack _). vm_compute. exact I. }
  exact (proj2 (proj2 (proj2 (proj2
           (initial_model_round_trip (constants := Examples.constants)
              w 7 Hact Hfirst))))).
Defined.

Lemma upload_initial_model_needs_no_active_run_witness :
  raises (outcome (upload_initial_model (constants := Examples.constants) 7
                     (Examples.first_run_world false))) is_Exception
  /\ active_run (store (after (upload_initial_model
                                 (constants := Examples.constants) 7
                                 (Examples.first_run_world false))))
     = Some "run-2".
Proof.
  destruct (upload_initial_model_needs_no_active_run
              (constants := Examples.constants)
              (Examples.first_run_world false) 7 "run-2" eq_refl)
    as (H1 & _ & H3 & _).
  exact (conj H1 H3).
Defined.

(** The four runs of the first session, best first when the quality is
    not a loss. *)
Lemma get_top_params_reads_top_runs_witness :
  let w := after (finish_session (constants := Examples.constants)
                    (Examples.four_runs_world false)) in
  let r := get_top_params (constants := Examples.constants)
             Examples.argsort_by_insertion Examples.params_of_row w in
  after r = w
  /\ match outcome r with
     | Ok (Some l) => map id l = ["b"; "d"; "a"; "c"]
     | _ => False
     end.
Proof.
  intros w r. split.
  - exact (proj1 (get_top_params_reads_top_runs
                    (constants := Examples.constants)
                    Examples.argsort_by_insertion Examples.params_of_row w)).
  - vm_compute. reflexivity.
Defined.

(** Four models were uploaded in the first session; the second, once
    entered, starts from the initial model all the same. *)
Lemma new_session_is_its_own_previous_witness :
  let w' := after (set_session (constants := Examples.constants)
                     Examples.session2 (Examples.four_runs_world false)) in
  length (qualifying "1" (store w')) = 4
  /\ outcome (get_previous_session_id (constants := Examples.constants) w')
     = Ok (Some "6")
  /\ get_last_model (constants := Examples.constants) w'
     = download_initial_model (constants := Examples.constants) w'.
Proof.
  intros w'.
  assert (Hc : consistent (store (Examples.four_runs_world false))).
  { split.
    - apply Forall_forall. apply (bool_decide_unpack _). vm_compute. exact I.
    - intros n Hn. assert (Hf : 6 <= n) by exact Hn. clear Hn.
      assert (E : map exp_id (experiments (store (Examples.four_runs_world false)))
                  = [pretty 0; pretty 1]) by (vm_compute; reflexivity).
      rewrite E, !elem_of_cons.
      intros [Hin|[Hin|Hin]]; [apply (inj pretty) in Hin; lia
                              |apply (inj pretty) in Hin; lia
                              |by apply elem_of_nil in Hin]. }
  assert (Hne : session_str Examples.session2
                <> INITIAL_EXPERIMENT_NAME (constants := Examples.constants))
    by (vm_compute; discriminate).
  destruct (new_session_is_its_own_previous (constants := Examples.constants)
              Examples.session2 (Examples.four_runs_world false)
              Hc eq_refl eq_refl Hne) as (H1 & _ & H3).
  split; [vm_compute; reflexivity|]. split; [|exact H3].
  unfold w'. rewrite H1. vm_compute. reflexivity.
Defined.

End TrackerMore.

Module SweepMore.
Import Tracker Sweep.

Section WithCollaborators.
Context {constants : Constants}.
Variable fit : EmbeddingsModelInterface -> FineTuningParams -> M World unit.
Variable get_top_params : M World (option (list FineTuningParams)).
Variable get_last_model : M World EmbeddingsModelInterface.
Variable suggest : list (FineTuningParams * float) -> FineTuningParams.

Abbreviation one_param := (fine_tune_embedding_model_one_param fit).
Abbreviation trials_block := (Sweep.trials_block fit get_last_model suggest).
Abbreviation finetune_embedding_model :=
  (Sweep.finetune_embedding_model fit get_top_params get_last_model suggest).


(** X20.  An interrupt from the keyboard is not swallowed: when the
    block of trials raises [KeyboardInterrupt], so does
    [finetune_embedding_model]; the temporary directory is gone with the
    initial-model file, and [finish_session] is not run, the tracker
    staying as the trials left it. *)
Theorem interrupt_escapes_the_sweep session n env best_params :
  outcome (on_tracker get_top_params env) = Ok best_params ->
  let env0 :=
    after (on_tracker (set_session session)
             (after (on_tracker get_top_params env))) in
  let env1 := mkEnv (tracker env0) None (attempted env0) in
  outcome (trials_block best_params n env1) = Raise KeyboardInterrupt ->
  let r := finetune_embedding_model session n env in
  outcome r = Raise KeyboardInterrupt
  /\ initial_model_path (after r) = None
  /\ tracker (after r) = tracker (after (trials_block best_params n env1))
  /\ attempted (after r) = attempted (after (trials_block best_params n env1)).
Proof.
  intros Htop env0 env1 Hint r.
  set (block := trials_block best_params n env1) in *.
  assert (Er : r = (Raise KeyboardInterrupt,
                    mkEnv (tracker (after block)) None
                      (attempted (after block)))).
  { unfold r, Sweep.finetune_embedding_model. unfold bind at 1.
    unfold outcome in Htop.
    destruct (on_tracker get_top_params env) as [rt envt] eqn:E0.
    simpl in Htop. subst rt. unfold bind at 1.
    assert (E1 : on_tracker (set_session session) envt = (Ok tt, env0)).
    { unfold env0, after. simpl. unfold on_tracker.
      rewrite TrackerSpec.set_session_enter. done. }
    rewrite E1. unfold bind at 1.
    unfold with_TemporaryDirectory. fold env1. unfold bind at 1.
    unfold try_except_Exception. fold block.
    unfold outcome, after in *.
    destruct block as [rb envb]. simpl in Hint. subst rb. done. }
  rewrite Er. done.
Qed.

End WithCollaborators.


Lemma interrupt_escapes_the_sweep_witness :
  outcome Examples.interrupted_sweep = Raise KeyboardInterrupt
  /\ _tuning_session (mgr (tracker (after Examples.interrupted_sweep)))
     = SessionOf Examples.session1.
Proof.
  assert (Htop : outcome (on_tracker Examples.top_two Examples.sweep_env)
                 = Ok (Some [Examples.params_of "a"; Examples.params_of "b"]))
    by reflexivity.
  split; [|vm_compute; reflexivity].
  refine (proj1 (interrupt_escapes_the_sweep (constants := Examples.constants)
                   Examples.interrupted_fit Examples.top_two
                   Examples.last_model Examples.suggest_fixed
                   Examples.session1 100 Examples.sweep_env _ Htop _)).
  vm_compute. reflexivity.
Defined.

End SweepMore.

Module StorageMore.
Import Storage.

Lemma foldr_max_range (lo hi d : Z) (l : list Z) :
  (lo <= d < hi)%Z -> Forall (fun k => (lo <= k < hi)%Z) l ->
  (lo <= foldr Z.max d l < hi)%Z /\ (lo <= foldr Z.min d l < hi)%Z.
Proof.
  intros Hd Hl. induction Hl as [|k l Hk Hl IH]; simpl; [done|]. lia.
Qed.

Lemma keys_in_range (lo hi : Z) (key : list Z) :
  key <> [] -> Forall (fun k => (lo <= k < hi)%Z) key ->
  (lo <= max_key key < hi)%Z /\ (lo <= min_key key < hi)%Z.
Proof.
  destruct key as [|k key]; [done|]. intros _ Hall.
  apply foldr_max_range; [|done]. simpl. by inversion Hall.
Qed.

Lemma check_valid_index_key_ok (k : Z) (size : nat) :
  (0 <= k < Z.of_nat size)%Z -> check_valid_index_key k size = Ok tt.
Proof.
  intros Hk. unfold check_valid_index_key.
  assert (E1 : (k <? 0)%Z = false) by (apply Z.ltb_ge; lia).
  assert (E2 : (Z.of_nat size <=? k)%Z = false) by (apply Z.leb_gt; lia).
  by rewrite E1, E2.
Qed.

Lemma omap_of_nat {A} (t : list A) (size : nat) (indices : list nat) :
  Forall (fun i => i < size) indices ->
  omap (fun k => t !! Z.to_nat (k mod Z.of_nat size)) (map Z.of_nat indices)
  = omap (fun i => t !! i) indices.
Proof.
  induction 1 as [|i indices Hi _ IH]; [done|]. csimpl.
  rewrite Z.mod_small by lia. rewrite Nat2Z.id. by rewrite IH.
Qed.

Lemma omap_lookup_seq {A} (t : list A) (a n : nat) :
  a + n <= length t ->
  omap (fun i => t !! i) (seq a n) = take n (drop a t).
Proof.
  revert a. induction n as [|n IH]; intros a Hle; [done|]. csimpl.
  destruct (lookup_lt_is_Some_2 t a) as [x Hx]; [lia|].
  rewrite Hx. simpl. rewrite (drop_S _ _ _ Hx). simpl.
  rewrite IH by lia. done.
Qed.

Section WithCells.
Context {Cell : Type} `{Countable Cell}.
Implicit Types (d : Dataset Cell) (s : ItemsStorage Cell).
Implicit Types (row : gmap string Cell).

Lemma well_formed_lookup d row (c : string) :
  well_formed d -> row ∈ table d ->
  (is_Some (row !! c) <-> c ∈ column_names d).
Proof.
  intros Hwf Hrow. unfold well_formed in Hwf.
  rewrite Forall_forall in Hwf. specialize (Hwf row Hrow).
  rewrite <- elem_of_dom, Hwf, elem_of_list_to_set. done.
Qed.

Lemma index_ids_spec idf (rows : list (gmap string Cell)) :
  forall k acc m,
    index_ids idf rows k acc = Ok m ->
    forall c i,
      m !! c = Some i <->
      (k <= i
       /\ (exists row, rows !! (i - k) = Some row /\ row !! idf = Some c)
       /\ forall j row, i - k < j -> rows !! j = Some row ->
                        row !! idf <> Some c)
      \/ (acc !! c = Some i
          /\ forall j row, rows !! j = Some row -> row !! idf <> Some c).
Proof.
  induction rows as [|row0 rows IH]; intros k acc m.
  - simpl. intros [= <-] c i. split.
    + intros Hm. right. split; [done|]. intros j row Hj. done.
    + intros [(_ & (row & Hrow & _) & _)|[Hm _]]; [done|done].
  - simpl. unfold getitem_row.
    destruct (row0 !! idf) as [c0|] eqn:E0; simpl; [|done].
    intros Hm c i. rewrite (IH _ _ _ Hm c i). clear IH Hm. split.
    + intros [(Hk & (row & Hrow & Hc) & Hlater)|[Hacc Hnone]].
      * left. split; [lia|]. split.
        -- exists row. split; [|done].
           replace (i - k) with (S (i - S k)) by lia. done.
        -- intros [|j] row' Hj Hrow'; [lia|]. simpl in Hrow'.
           apply (Hlater j); [lia|done].
      * destruct (decide (c = c0)) as [->|Hne].
        -- rewrite lookup_insert_eq in Hacc. injection Hacc as <-.
           left. split; [lia|]. split.
           ++ exists row0. rewrite Nat.sub_diag. done.
           ++ intros [|j] row' Hj Hrow'; [lia|]. simpl in Hrow'.
              by apply (Hnone j).
        -- rewrite lookup_insert_ne in Hacc by done.
           right. split; [done|].
           intros [|j] row' Hrow'; simpl in Hrow'.
           ++ injection Hrow' as <-. rewrite E0. congruence.
           ++ by apply (Hnone j).
    + intros [(Hk & (row & Hrow & Hc) & Hlater)|[Hacc Hnone]].
      * destruct (decide (i = k)) as [->|Hik].
        -- rewrite Nat.sub_diag in Hrow. simpl in Hrow. injection Hrow as <-.
           assert (c0 = c) as -> by congruence.
           right. split; [by rewrite lookup_insert_eq|].
           intros j row' Hrow'. apply (Hlater (S j)); [lia|done].
        -- left. split; [lia|]. split.
           ++ exists row. split; [|done].
              replace (i - k) with (S (i - S k)) in Hrow by lia. done.
           ++ intros j row' Hj Hrow'. apply (Hlater (S j)); [lia|done].
      * right. split.
        -- rewrite lookup_insert_ne; [done|]. intros ->.
           by apply (Hnone 0 row0).
        -- intros j row' Hrow'. by apply (Hnone (S j)).
Qed.

Lemma index_ids_cases idf (rows : list (gmap string Cell)) k acc :
  match index_ids idf rows k acc with
  | Ok _ => Forall (fun row => is_Some (row !! idf)) rows
  | Raise e => e = KeyError idf /\ Exists (fun row => row !! idf = None) rows
  end.
Proof.
  revert k acc. induction rows as [|row0 rows IH]; intros k acc; simpl.
  - constructor.
  - unfold getitem_row. destruct (row0 !! idf) as [c0|] eqn:E0; simpl.
    + specialize (IH (S k) (<[c0:=k]> acc)).
      destruct (index_ids idf rows (S k) (<[c0:=k]> acc)).
      * constructor; [by rewrite E0|done].
      * destruct IH as [-> IH]. split; [done|]. by right.
    + split; [done|]. by left.
Qed.

Lemma init_fields d item idf s :
  __init__ d item idf = Ok s ->
  dataset s = d /\ item_field_name s = item /\ id_field_name s = idf
  /\ index_ids idf (table d) 0 ∅ = Ok (id_to_index s).
Proof.
  unfold __init__. destruct (index_ids idf (table d) 0 ∅); simpl; [|done].
  by intros [= <-].
Qed.

Lemma index_is_last_occurrence d item idf s :
  __init__ d item idf = Ok s ->
  forall c i,
    id_to_index s !! c = Some i <->
    (exists row, table d !! i = Some row /\ row !! idf = Some c)
    /\ forall j row, i < j -> table d !! j = Some row -> row !! idf <> Some c.
Proof.
  intros (_ & _ & _ & Hm)%init_fields c i.
  rewrite (index_ids_spec _ _ _ _ _ Hm c i).
  rewrite Nat.sub_0_r. split.
  - intros [(_ & Hrow & Hlater)|[Hacc _]]; [done|].
    by rewrite lookup_empty in Hacc.
  - intros [Hrow Hlater]. left. split; [lia|done].
Qed.

(** X21.  The index a storage is built with sends an id to the position
    of the last row that bears it, and knows no other id; the positions
    it gives are positions of the dataset. *)
Theorem id_to_index_is_last_occurrence d item idf s :
  __init__ d item idf = Ok s ->
  forall c i,
    (id_to_index s !! c = Some i <->
     (exists row, table d !! i = Some row /\ row !! idf = Some c)
     /\ forall j row, i < j -> table d !! j = Some row ->
                      row !! idf <> Some c)
    /\ (id_to_index s !! c = Some i -> i < len s).
Proof.
  intros Hinit c i.
  split; [by apply (index_is_last_occurrence d item idf)|].
  intros Hc. apply (index_is_last_occurrence d item idf s Hinit) in Hc.
  destruct Hc as [(row & Hrow & _) _].
  destruct (init_fields _ _ _ _ Hinit) as (Hd & _).
  unfold len. rewrite Hd. by eapply lookup_lt_Some.
Qed.

(** X22.  Building a storage over a well-formed dataset fails, with
    [KeyError] on the id field, exactly when the dataset has rows and no
    such column; a dataset without rows is accepted whatever its
    columns.  The storage built keeps the dataset and the field names. *)
Theorem init_needs_id_column d item idf :
  well_formed d ->
  match __init__ d item idf with
  | Ok s => dataset s = d /\ item_field_name s = item /\ id_field_name s = idf
            /\ (idf ∈ column_names d \/ table d = [])
  | Raise e => e = KeyError idf /\ (idf ∉ column_names d) /\ table d <> []
  end.
Proof.
  intros Hwf. unfold __init__.
  pose proof (index_ids_cases idf (table d) 0 ∅) as Hc.
  destruct (index_ids idf (table d) 0 ∅) as [m|e]; simpl.
  - do 3 (split; [done|]).
    destruct (table d) as [|row rows] eqn:Et; [by right|]. left.
    apply Forall_cons in Hc as [Hrow _].
    apply (well_formed_lookup d row idf Hwf); [|done]. rewrite Et. left.
  - destruct Hc as [-> Hex]. split; [done|].
    apply Exists_exists in Hex as (row & Hrow & Hnone). split.
    + intros Hin. apply (well_formed_lookup d row idf Hwf Hrow) in Hin.
      rewrite Hnone in Hin. by destruct Hin.
    + intros Et. rewrite Et in Hrow. by apply elem_of_nil in Hrow.
Qed.

Lemma getitem_indices_nat s (indices : list nat) :
  Forall (fun i => i < len s) indices ->
  getitem_indices s (map Z.of_nat indices)
  = Ok (omap (fun i => table (dataset s) !! i) indices).
Proof.
  intros Hall. destruct indices as [|i0 indices]; [done|].
  unfold getitem_indices.
  assert (Hz : Forall (fun k => (0 <= k < Z.of_nat (len s))%Z)
                 (map Z.of_nat (i0 :: indices))).
  { apply Forall_fmap. eapply Forall_impl; [exact Hall|].
    intros i Hi. simpl in *. lia. }
  assert (Hne : map Z.of_nat (i0 :: indices) <> []) by (simpl; congruence).
  destruct (keys_in_range 0 (Z.of_nat (len s)) _ Hne Hz) as [Hmax Hmin].
  clear Hne.
  change (map Z.of_nat (i0 :: indices))
    with (Z.of_nat i0 :: map Z.of_nat indices) in *.
  cbv iota beta.
  rewrite (check_valid_index_key_ok _ _ Hmax). simpl rbind.
  rewrite (check_valid_index_key_ok _ _ Hmin). simpl rbind.
  f_equal. apply (omap_of_nat _ _ (i0 :: indices) Hall).
Qed.

Lemma for_each_index_of_missing s (ids : list Cell) :
  Exists (fun c => id_to_index s !! c = None) ids ->
  for_each (index_of s) ids = Raise (KeyError "id").
Proof.
  induction ids as [|c ids IH]; intros Hex; [by inversion Hex|].
  simpl. unfold index_of at 1.
  destruct (id_to_index s !! c) as [i|] eqn:Ec; simpl; [|done].
  apply Exists_cons in Hex as [Hc|Hex]; [congruence|].
  by rewrite IH.
Qed.

(** X23.  Looking items up by id, in a storage built over a well-formed
    dataset that has the item column.  When every id is known the
    result holds, for each id in turn, the item of the row the index
    sends it to, a row bearing that id; one unknown id makes the whole
    lookup raise [KeyError]. *)
Theorem items_by_ids_finds_items d item idf s (ids : list Cell) :
  __init__ d item idf = Ok s ->
  well_formed d ->
  item ∈ column_names d ->
  (Forall (fun c => is_Some (id_to_index s !! c)) ids ->
   exists items,
     items_by_ids s ids = Ok items
     /\ Forall2 (fun c it =>
                   exists i row, id_to_index s !! c = Some i
                                 /\ table d !! i = Some row
                                 /\ row !! idf = Some c
                                 /\ row !! item = Some it)
                ids items)
  /\ (Exists (fun c => id_to_index s !! c = None) ids ->
      items_by_ids s ids = Raise (KeyError "id")).
Proof.
  intros Hinit Hwf Hitem.
  pose proof (index_is_last_occurrence d item idf s Hinit) as Hidx.
  destruct (init_fields _ _ _ _ Hinit) as (Hd & Hi & _ & _).
  split.
  2:{ intros Hex. unfold items_by_ids, rows_by_ids.
      by rewrite (for_each_index_of_missing s ids Hex). }
  intros Hall.
  assert (Hfe : exists indices,
             for_each (index_of s) ids = Ok indices
             /\ Forall2 (fun c i => id_to_index s !! c = Some i) ids indices).
  { induction Hall as [|c ids [i Hc] _ (indices & IH1 & IH2)].
    - by exists [].
    - exists (i :: indices). simpl. unfold index_of at 1.
      rewrite Hc, IH1. simpl. split; [done|]. by constructor. }
  destruct Hfe as (indices & Hfe & Hrel).
  assert (Hlt : Forall (fun i => i < len s) indices).
  { apply Forall_forall. intros i Hin.
    apply list_elem_of_lookup in Hin as [n Hn].
    destruct (Forall2_lookup_r _ _ _ _ _ Hrel Hn) as (c & _ & Hc).
    apply Hidx in Hc as [(row & Hrow & _) _].
    unfold len. rewrite Hd. by eapply lookup_lt_Some. }
  unfold items_by_ids, rows_by_ids. rewrite Hfe. simpl rbind.
  rewrite (getitem_indices_nat s indices Hlt). simpl rbind.
  unfold getitem_column. rewrite Hi, Hd.
  rewrite bool_decide_eq_true_2 by done.
  eexists. split; [reflexivity|].
  clear Hfe Hlt Hall. induction Hrel as [|c i ids indices Hc _ IH]; [constructor|].
  pose proof Hc as Hc'.
  apply Hidx in Hc' as [(row & Hrow & Hid) _].
  assert (His : is_Some (row !! item)).
  { apply (well_formed_lookup d row item Hwf); [|done].
    by eapply list_elem_of_lookup_2. }
  destruct His as [it Hit].
  csimpl. rewrite Hrow. csimpl. rewrite Hit. csimpl.
  constructor; [|exact IH]. by exists i, row.
Qed.

(** X24.  A slice within the bounds gives what indexing by the
    positions of its range gives, and leaving the end out means the end
    of the dataset. *)
Theorem items_slice_is_range s (a b : nat) :
  a <= b <= len s ->
  items_slice s (Z.of_nat a) (Some (Z.of_nat b))
  = items_by_indices s (map Z.of_nat (seq a (b - a)))
  /\ (b = len s ->
      items_slice s (Z.of_nat a) None
      = items_slice s (Z.of_nat a) (Some (Z.of_nat b))).
Proof.
  intros Hab. split; [|by intros ->].
  unfold items_slice, items_by_indices.
  rewrite getitem_indices_nat.
  2:{ apply Forall_forall. intros i Hi%elem_of_seq. lia. }
  simpl rbind. f_equal.
  unfold getitem_slice, slice_bound.
  assert (Ea : (Z.of_nat a <? 0)%Z = false) by (apply Z.ltb_ge; lia).
  assert (Eb : (Z.of_nat b <? 0)%Z = false) by (apply Z.ltb_ge; lia).
  rewrite Ea, Eb.
  rewrite !Z.min_l by lia. rewrite !Nat2Z.id.
  rewrite omap_lookup_seq; [done|]. unfold len in Hab. lia.
Qed.

End WithCells.

Lemma catalogue_built :
  __init__ Examples.catalogue "item" "id" = Ok Examples.catalogue_storage.
Proof. vm_compute. reflexivity. Qed.

Lemma catalogue_well_formed : well_formed Examples.catalogue.
Proof. apply (bool_decide_unpack _). vm_compute. exact I. Qed.

Lemma id_to_index_is_last_occurrence_witness :
  id_to_index Examples.catalogue_storage !! "a" = Some 2.
Proof.
  apply (proj1 (id_to_index_is_last_occurrence Examples.catalogue "item" "id"
                  Examples.catalogue_storage catalogue_built "a" 2)).
  split.
  - eexists. split; reflexivity.
  - intros [|[|[|j]]] row Hj Hrow; try lia. by destruct j.
Defined.

Lemma init_needs_id_column_witness :
  __init__ Examples.catalogue "item" "sku" = Raise (KeyError "sku").
Proof.
  pose proof (init_needs_id_column Examples.catalogue "item" "sku"
                catalogue_well_formed) as Hm.
  destruct (__init__ Examples.catalogue "item" "sku") as [s|e].
  - destruct Hm as (_ & _ & _ & [Hin|Ht]); [|discriminate Ht].
    exfalso. simpl in Hin. rewrite !elem_of_cons in Hin.
    destruct Hin as [Hin|[Hin|Hin]]; [discriminate Hin|discriminate Hin|].
    by apply elem_of_nil in Hin.
  - by destruct Hm as [-> _].
Defined.

Lemma items_by_ids_finds_items_witness :
  (exists items, items_by_ids Examples.catalogue_storage ["a"; "b"] = Ok items
                 /\ length items = 2)
  /\ items_by_ids Examples.catalogue_storage ["a"; "zz"]
     = Raise (KeyError "id").
Proof.
  assert (Hitem : "item" ∈ column_names Examples.catalogue)
    by (right; left).
  split.
  - destruct (proj1 (items_by_ids_finds_items Examples.catalogue "item" "id"
                       Examples.catalogue_storage ["a"; "b"] catalogue_built
                       catalogue_well_formed Hitem))
      as (items & Hok & Hrel).
    + repeat constructor; vm_compute; eexists; reflexivity.
    + exists items. split; [exact Hok|].
      apply Forall2_length in Hrel. by rewrite <- Hrel.
  - apply (proj2 (items_by_ids_finds_items Examples.catalogue "item" "id"
                    Examples.catalogue_storage ["a"; "zz"] catalogue_built
                    catalogue_well_formed Hitem)).
    right. left. vm_compute. reflexivity.
Defined.

Lemma items_slice_is_range_witness :
  items_slice Examples.catalogue_storage 1 (Some 3%Z)
  = items_by_indices Examples.catalogue_storage [1%Z; 2%Z].
Proof.
  assert (Hab : 1 <= 3 <= len Examples.catalogue_storage)
    by (unfold len; simpl; lia).
  exact (proj1 (items_slice_is_range Examples.catalogue_storage 1 3 Hab)).
Defined.

End StorageMore.
